(** * aurora-relayer: block indexer, topic compiler and log-query layer

    A shallow embedding of [src/indexer.ts], [src/topics.js],
    [src/servers/database.ts] and [lib/errors.js], followed by the properties
    of the specification that were checked against it.

    Conventions of the embedding.
    - A JavaScript string is a [string]; every [ascii] stands for one UTF-16
      code unit below 256.
    - A JavaScript [number] that holds an integer is the constructor [Fin]
      applied to that integer; rounding to the 53-bit significand of an
      IEEE-754 double is written out in [round_nearest_even].
    - A [Uint8Array]/[Buffer] is a [list byte].
    - A function that may throw returns a [result]. *)

From Stdlib Require Import ZArith List Strings.String Strings.Ascii Strings.Byte Bool Lia FinFun.
Import ListNotations.
#[local] Set Warnings "-register-all".
Open Scope string_scope.
Open Scope list_scope.
Open Scope Z_scope.

(** ** Outcomes of code that may throw *)

Inductive result (A : Type) : Type :=
| Ok (a : A)
| Throw (message : string).
Arguments Ok {A} a.
Arguments Throw {A} message.

Definition bind {A B} (r : result A) (k : A -> result B) : result B :=
  match r with
  | Ok a => k a
  | Throw m => Throw m
  end.

(** ** The JavaScript built-ins the sources call *)

Module JS.

(** The values [parseInt] can return: NaN, the two zeros ([Fin 0] is +0), a
    non-zero integer that a double represents exactly, and the infinities. *)
Inductive number : Type :=
| NaN
| NegZero
| Fin (z : Z)
| Inf (neg : bool).

Definition isNaN (n : number) : bool :=
  match n with
  | NaN => true
  | _ => false
  end.

(** [n === 0]: both zeros are strictly equal to the literal [0]. *)
Definition is_zero (n : number) : bool :=
  match n with
  | NegZero => true
  | Fin z => z =? 0
  | _ => false
  end.

(** Round a positive integer to the nearest integer with a 53-bit
    significand, ties to the even significand. *)
Definition round_nearest_even (m : Z) : Z :=
  let e := Z.log2 m - 52 in
  if e <=? 0 then m
  else
    let q := Z.shiftr m e in
    let r := m - Z.shiftl q e in
    let half := Z.shiftl 1 (e - 1) in
    let q' := if r <? half then q
              else if half <? r then q + 1
              else if Z.even q then q else q + 1 in
    Z.shiftl q' e.

(** The Number value of [sign * m] for a positive integer [m]. *)
Definition to_double (neg : bool) (m : Z) : number :=
  let v := round_nearest_even m in
  if 2 ^ 1024 <=? v then Inf neg else Fin (if neg then - v else v).

(** [x + 1] on a non-negative integer Number, as in [this.blockID += 1]. *)
Definition add_one (x : Z) : Z := round_nearest_even (x + 1).

Definition code (c : ascii) : Z := Z.of_N (N_of_ascii c).

(** StrWhiteSpaceChar, for code units below 256. *)
Definition is_white_space (c : ascii) : bool :=
  let n := code c in
  ((9 <=? n) && (n <=? 13)) || (n =? 32) || (n =? 160).

Definition digit_value (c : ascii) : option Z :=
  let n := code c in
  if (48 <=? n) && (n <=? 57) then Some (n - 48)
  else if (97 <=? n) && (n <=? 122) then Some (n - 87)
  else if (65 <=? n) && (n <=? 90) then Some (n - 55)
  else None.

Definition radix_digit (R : Z) (c : ascii) : option Z :=
  match digit_value c with
  | Some d => if d <? R then Some d else None
  | None => None
  end.

Fixpoint trim_start (s : string) : string :=
  match s with
  | String c r => if is_white_space c then trim_start r else s
  | EmptyString => s
  end.

Fixpoint trim_end (s : string) : string :=
  match s with
  | String c r =>
      let r' := trim_end r in
      if is_white_space c && (r' =? "")%string then "" else String c r'
  | EmptyString => ""
  end.

(** The longest prefix of radix-[R] digits, as digit values. *)
Fixpoint digits_prefix (R : Z) (s : string) : list Z :=
  match s with
  | String c r =>
      match radix_digit R c with
      | Some d => d :: digits_prefix R r
      | None => []
      end
  | EmptyString => []
  end.

Definition math_int (R : Z) (ds : list Z) : Z :=
  fold_left (fun acc d => acc * R + d) ds 0.

(** [s.startsWith(p)] *)
Fixpoint startsWith (s p : string) {struct p} : bool :=
  match p with
  | EmptyString => true
  | String c p' =>
      match s with
      | String d s' => Ascii.eqb d c && startsWith s' p'
      | EmptyString => false
      end
  end.

(** [s.substring(n)] *)
Fixpoint substring_from (n : nat) (s : string) : string :=
  match n, s with
  | O, _ => s
  | S n', String _ r => substring_from n' r
  | S _, EmptyString => ""
  end.

Definition first_is (c : ascii) (s : string) : bool :=
  match s with
  | String d _ => Ascii.eqb d c
  | EmptyString => false
  end.

(** Steps 11 to 14 of [parseInt]: the Number for the digits that were read. *)
Definition number_of_digits (neg : bool) (R : Z) (ds : list Z) : number :=
  match ds with
  | [] => NaN
  | _ =>
      let mathInt := math_int R ds in
      if mathInt =? 0 then (if neg then NegZero else Fin 0)
      else to_double neg mathInt
  end.

(** [parseInt(string, radix)] (ECMA-262, 19.2.5); [radix = 0] stands for a
    missing radix. *)
Definition parseInt (str : string) (radix : Z) : number :=
  let S0 := trim_start str in
  let neg := first_is "-" S0 in
  let S1 := if first_is "+" S0 || first_is "-" S0 then substring_from 1 S0 else S0 in
  if negb (radix =? 0) && ((radix <? 2) || (36 <? radix)) then NaN
  else
    let stripPrefix := (radix =? 0) || (radix =? 16) in
    let R0 := if radix =? 0 then 10 else radix in
    let has_prefix := stripPrefix && (startsWith S1 "0x" || startsWith S1 "0X") in
    let S2 := if has_prefix then substring_from 2 S1 else S1 in
    let R := if has_prefix then 16 else R0 in
    number_of_digits neg R (digits_prefix R S2).

Definition byte_of_Z (v : Z) : byte :=
  match Byte.of_N (Z.to_N v) with
  | Some b => b
  | None => x00
  end.

(** [Buffer.from(s, 'hex')]: decodes pairs of hex digits and stops at the
    first pair that is not one; a trailing single character is dropped. *)
Fixpoint Buffer_from_hex (s : string) : list byte :=
  match s with
  | String a (String b r) =>
      match radix_digit 16 a, radix_digit 16 b with
      | Some h, Some l => byte_of_Z (16 * h + l) :: Buffer_from_hex r
      | _, _ => []
      end
  | _ => []
  end.

(** All characters of a non-empty string are radix-[R] digits. *)
Definition all_digits (R : Z) (s : string) : option (list Z) :=
  let ds := digits_prefix R s in
  if negb (s =? "")%string && (Z.of_nat (List.length ds) =? Z.of_nat (String.length s))
  then Some ds else None.

(** StringToBigInt (ECMA-262, 7.1.14): the value of [BigInt(s)], [None] for
    the SyntaxError. *)
Definition StringToBigInt (s : string) : option Z :=
  let t := trim_end (trim_start s) in
  let lit R r := option_map (math_int R) (all_digits R r) in
  if (t =? "")%string then Some 0
  else if startsWith t "0x" || startsWith t "0X" then lit 16 (substring_from 2 t)
  else if startsWith t "0o" || startsWith t "0O" then lit 8 (substring_from 2 t)
  else if startsWith t "0b" || startsWith t "0B" then lit 2 (substring_from 2 t)
  else if first_is "-" t then option_map Z.opp (lit 10 (substring_from 1 t))
  else if first_is "+" t then lit 10 (substring_from 1 t)
  else lit 10 t.

(** The JavaScript values that travel between the handlers and the store. *)
Inductive value : Type :=
| VUndefined
| VNull
| VBool (b : bool)
| VNumber (n : number)
| VBigInt (z : Z)
| VString (s : string)
| VBuffer (b : list byte)
| VArray (l : list value)
| VObject (fields : list (string * value)).

(** ToBoolean, as in [if (fromBlock)]. *)
Definition truthy (v : value) : bool :=
  match v with
  | VUndefined | VNull => false
  | VBool b => b
  | VNumber NaN | VNumber NegZero => false
  | VNumber (Fin z) => negb (z =? 0)
  | VNumber (Inf _) => true
  | VBigInt z => negb (z =? 0)
  | VString s => negb (s =? "")%string
  | VBuffer _ | VArray _ | VObject _ => true
  end.

(** [obj[key]] on a record: the first field of that name, else undefined. *)
Fixpoint get_field (key : string) (fields : list (string * value)) : value :=
  match fields with
  | [] => VUndefined
  | (k, v) :: rest => if (k =? key)%string then v else get_field key rest
  end.

(** The mathematical value of a Number that is neither NaN nor infinite. *)
Definition real (n : number) : Z :=
  match n with
  | Fin z => z
  | _ => 0
  end.

(** [a < b] on Numbers: false as soon as one side is NaN. *)
Definition number_lt (a b : number) : bool :=
  match a, b with
  | NaN, _ | _, NaN => false
  | Inf true, Inf true => false
  | Inf true, _ => true
  | _, Inf true => false
  | Inf false, _ => false
  | _, Inf false => true
  | _, _ => real a <? real b
  end.

(** [x - 1] on a Number. *)
Definition sub_one (x : number) : number :=
  match x with
  | NaN => NaN
  | Inf neg => Inf neg
  | NegZero => Fin (-1)
  | Fin z =>
      let v := z - 1 in
      if v =? 0 then Fin 0 else to_double (v <? 0) (Z.abs v)
  end.

End JS.

(** ** The query builder: predicate trees and their reading

    [sql-bricks] builds a tree of comparisons joined by [sql.and] and
    [sql.or]; the store evaluates it on the rows of
    [event e LEFT JOIN transaction t LEFT JOIN block b]. *)

Module Sql.
Import JS.

Inductive column : Type :=
| col_b_id                     (* 'b.id' *)
| col_b_hash                   (* 'b.hash' *)
| col_t_from                   (* 't.from' *)
| col_e_topics (slot : nat).   (* `e.topics[${slot}]` *)

Inductive expr : Type :=
| Eq (c : column) (v : value)          (* sql.eq(c, v) and {c: v} *)
| Gte (c : column) (v : value)         (* sql.gte *)
| Lte (c : column) (v : value)         (* sql.lte *)
| In (c : column) (vs : list value)    (* sql.in *)
| And (operands : list expr)           (* sql.and(...operands) *)
| Or (operands : list expr).           (* sql.or(...operands) *)

(** One row of the join. *)
Record row : Type := {
  block_id : Z;
  block_hash : list byte;
  tx_from : list byte;
  topics : list (list byte)
}.

Inductive cell : Type :=
| CNull
| CInt (z : Z)
| CBytes (b : list byte).

(** Array subscripts of the store are 1-based; a subscript outside the array
    yields NULL. *)
Definition cell_of (r : row) (c : column) : cell :=
  match c with
  | col_b_id => CInt (block_id r)
  | col_b_hash => CBytes (block_hash r)
  | col_t_from => CBytes (tx_from r)
  | col_e_topics O => CNull
  | col_e_topics (S j) =>
      match nth_error (topics r) j with
      | Some t => CBytes t
      | None => CNull
      end
  end.

Fixpoint bytes_eqb (a b : list byte) : bool :=
  match a, b with
  | [], [] => true
  | x :: a', y :: b' => Byte.eqb x y && bytes_eqb a' b'
  | _, _ => false
  end.

(** The integer a query parameter denotes, if it denotes one. *)
Definition sql_int (v : value) : option Z :=
  match v with
  | VBigInt z => Some z
  | VNumber (Fin z) => Some z
  | VNumber NegZero => Some 0
  | _ => None
  end.

(** [cell = v]. A comparison with NULL is not true, and the tree has no
    negation, so reading "unknown" as [false] selects the same rows. *)
Definition cell_eqb (x : cell) (v : value) : bool :=
  match x, v with
  | CBytes a, VBuffer b => bytes_eqb a b
  | CInt z, _ => match sql_int v with Some w => z =? w | None => false end
  | _, _ => false
  end.

Definition cell_cmp (test : Z -> Z -> bool) (x : cell) (v : value) : bool :=
  match x, sql_int v with
  | CInt z, Some w => test z w
  | _, _ => false
  end.

(** The rows a condition selects. The store evaluates only what it could
    parse (see [well_formed] below); on a group without operands and on an
    empty list [eval] follows the empty conjunction and disjunction. *)
Fixpoint eval (r : row) (e : expr) : bool :=
  match e with
  | Eq c v => cell_eqb (cell_of r c) v
  | Gte c v => cell_cmp Z.geb (cell_of r c) v
  | Lte c v => cell_cmp Z.leb (cell_of r c) v
  | In c vs => existsb (cell_eqb (cell_of r c)) vs
  | And operands => forallb (eval r) operands
  | Or operands => existsb (eval r) operands
  end.

(** What [sql-bricks] prints for a tree. A group prints its operands joined
    by its keyword, so [sql.and()] and [sql.or()] without operands print the
    empty text, and [sql.in(c, [])] prints [c IN ()]. The text is a condition
    of SQL exactly when no group of the tree is without operands and no list
    is empty; [eval] gives the meaning of such a tree. *)
Fixpoint well_formed (e : expr) : bool :=
  match e with
  | Eq _ _ | Gte _ _ | Lte _ _ => true
  | In _ vs => match vs with [] => false | _ => true end
  | And operands | Or operands =>
      match operands with [] => false | _ => forallb well_formed operands end
  end.

(** [SELECT ... WHERE e] over the joined rows. *)
Definition select (table : list row) (e : expr) : list row :=
  filter (fun r => eval r e) table.

End Sql.

(** ** [topics.js] *)

Module Topics.
Import JS Sql.

(** One position of a topic filter: [null], a digest, or a list of digests
    (whose entries may again be [null]). *)
Inductive topic : Type :=
| TNull
| TString (s : string)
| TArray (l : list (option string)).

(** The local copy of [hexToBytes]: [Buffer.from(input.substring(2), 'hex')]. *)
Definition hexToBytes (input : string) : list byte :=
  Buffer_from_hex (substring_from 2 input).

(** [xs.map((x, i) => f x i)], counting from [i]. *)
Fixpoint mapi {A B : Type} (f : A -> nat -> B) (i : nat) (xs : list A) : list B :=
  match xs with
  | [] => []
  | x :: xs' => f x i :: mapi f (S i) xs'
  end.

(** The callback of the outer [map]. *)
Definition compile_position (t : topic) (i : nat) : list expr :=
  match t with
  | TNull => []
  | TString s => [Eq (col_e_topics (i + 1)) (VBuffer (hexToBytes s))]
  | TArray l =>
      let operands :=
        List.concat (map (fun t : option string =>
                       match t with
                       | None => []
                       | Some s => [Eq (col_e_topics (i + 1)) (VBuffer (hexToBytes s))]
                       end) l) in
      [Or operands]
  end.

(** [compileTopics]; [None] as argument is an absent filter, [None] as
    result is [null]. *)
Definition compileTopics (topics : option (list topic)) : option expr :=
  match topics with
  | None => None
  | Some [] => None
  | Some l => Some (And (List.concat (mapi compile_position 0%nat l)))
  end.

End Topics.

(** ** Helpers imported from [@aurora-is-near/engine]

    The library is not part of the repository. The handlers are written
    against this interface; [exportJSON_array] is the one law of the library
    the development relies on (an array is exported element by element). *)

Module Engine.
Import JS.

Class Lib : Type := {
  hexToBytes : string -> result (list byte);
  bytesToHex : value -> result value;
  exportJSON : value -> value;
  parseAddress : string -> result (list byte);   (* Address.parse(a).unwrap().toBytes() *)
  exportJSON_array : forall l, exportJSON (VArray l) = VArray (map exportJSON l)
}.

(** Digits of a non-negative integer, most significant first. *)
Fixpoint to_digits (R : Z) (fuel : nat) (n : Z) (acc : list Z) : list Z :=
  match fuel with
  | O => acc
  | S fuel' => if n <? R then n :: acc
               else to_digits R fuel' (n / R) (n mod R :: acc)
  end.

Definition digit_char (d : Z) : ascii :=
  ascii_of_N (Z.to_N (if d <? 10 then 48 + d else 87 + d)).

Fixpoint string_of_digits (ds : list Z) : string :=
  match ds with
  | [] => ""
  | d :: ds' => String (digit_char d) (string_of_digits ds')
  end.

(** The digits of a non-negative integer; [Z.log2 m + 1] steps suffice. *)
Definition printed (R m : Z) : list Z :=
  to_digits R (S (Z.to_nat (Z.log2 m))) m [].

(** [n.toString(R)] for an integer [n]. *)
Definition toString (R : Z) (n : Z) : string :=
  if n <? 0 then String "-" (string_of_digits (printed R (- n)))
  else string_of_digits (printed R n).

(** [intToHex(n)]: the quantity encoding [`0x${n.toString(16)}`]. *)
Definition intToHex (n : Z) : string := ("0x" ++ toString 16 n)%string.

Fixpoint hex_of_bytes (b : list byte) : string :=
  match b with
  | [] => ""
  | x :: b' =>
      let n := Z.of_N (Byte.to_N x) in
      String (digit_char (n / 16)) (String (digit_char (n mod 16)) (hex_of_bytes b'))
  end.

(** A reference instance, used to run the handlers on concrete inputs. *)
Fixpoint reference_exportJSON (v : value) : value :=
  match v with
  | VBigInt z => VString (intToHex z)
  | VBuffer b => VString ("0x" ++ hex_of_bytes b)%string
  | VArray l => VArray (map reference_exportJSON l)
  | VObject fields =>
      VObject (map (fun kv => (fst kv, reference_exportJSON (snd kv))) fields)
  | _ => v
  end.

Definition reference_hexToBytes (input : string) : result (list byte) :=
  let body := if startsWith input "0x" then substring_from 2 input else input in
  match all_digits 16 body with
  | Some ds =>
      if Nat.even (String.length body) then Ok (Buffer_from_hex body)
      else Throw "hex data is odd-length"
  | None => if (body =? "")%string then Ok [] else Throw "invalid hexadecimal string"
  end.

Definition reference_bytesToHex (v : value) : result value :=
  match v with
  | VBuffer b => Ok (VString ("0x" ++ hex_of_bytes b)%string)
  | _ => Throw "invalid bytes"
  end.

Definition reference_parseAddress (a : string) : result (list byte) :=
  bind (reference_hexToBytes a)
       (fun b => if (List.length b =? 20)%nat then Ok b else Throw "bad address").

#[global] Instance reference : Lib := {|
  hexToBytes := reference_hexToBytes;
  bytesToHex := reference_bytesToHex;
  exportJSON := reference_exportJSON;
  parseAddress := reference_parseAddress;
  exportJSON_array := fun l => eq_refl
|}.

End Engine.

(** ** [servers/database.ts] *)

Module Database.
Import JS Sql.

(** A row of a query result: column name to value. *)
Definition record : Type := list (string * value).

(** The statements the handlers send to the store. *)
Inductive query : Type :=
| Q_blockNumber                          (* SELECT eth_blockNumber() AS id *)
| Q_getBlockByHash (arg : value)         (* SELECT * FROM eth_getBlockByHash($1) *)
| Q_getBlockByNumber (arg : value)       (* SELECT * FROM eth_getBlockByNumber($1) *)
| Q_getTransactionByHash (arg : value)   (* SELECT * FROM eth_getTransactionByHash($1) *)
| Q_filter_type (id : number)            (* select type from filter where id = $1 *)
| Q_getFilterChanges_block (id : number)
| Q_getFilterChanges_event (id : number)
| Q_getFilterLogs_block (id : number)
| Q_getFilterLogs_event (id : number)
| Q_uninstallFilter (ip : string) (id : number)
| Q_logs (where_ : expr).                 (* the select of eth_getLogs *)

(** What the store answers: the rows, or an error that [pgClient.query]
    raises. No handler sends the same statement twice, so a function from
    statements to answers describes the store during one call. *)
Definition store : Type := query -> result (list record).

(** The store parses what it is sent before it looks at its tables: a select
    whose condition is not a condition of SQL is answered with a syntax error
    (the message of the store goes on to name the position). [answers] is
    what the store answers to the statements it can parse. *)
Definition syntax_error : string := "syntax error".

Definition postgres (answers : query -> result (list record)) : store :=
  fun q =>
    match q with
    | Q_logs where_ =>
        if Sql.well_formed where_ then answers q else Throw syntax_error
    | _ => answers q
    end.

(** A handler: given the store, its outcome and the statements it sent, in
    order. *)
Definition M (A : Type) : Type := store -> result A * list query.

Definition ret {A} (a : A) : M A := fun _ => (Ok a, []).

Definition lift {A} (r : result A) : M A := fun _ => (r, []).

Definition mbind {A B} (m : M A) (k : A -> M B) : M B :=
  fun db =>
    match m db with
    | (Ok a, sent) => let (r, sent') := k a db in (r, sent ++ sent')
    | (Throw e, sent) => (Throw e, sent)
    end.

(** [this._query(q)] *)
Definition _query (q : query) : M (list record) := fun db => (db q, [q]).

(** [try { body } catch (error) { handler }] *)
Definition try_catch {A} (body : M A) (handler : string -> M A) : M A :=
  fun db =>
    match body db with
    | (Throw e, sent) => let (r, sent') := handler e db in (r, sent ++ sent')
    | done => done
    end.

Notation "x <- m ;; k" := (mbind m (fun x => k))
  (at level 61, m at next level, right associativity).

(** [const { rows: [{ key }] } = ...]: destructuring the first row throws a
    TypeError when there is none. *)
Definition first_row_field (key : string) (rows : list record) : result value :=
  match rows with
  | [] => Throw ("TypeError: Cannot destructure property '" ++ key ++
                 "' of 'undefined' as it is undefined.")%string
  | r :: _ => Ok (get_field key r)
  end.

Fixpoint mapM {A B} (f : A -> result B) (l : list A) : result (list B) :=
  match l with
  | [] => Ok []
  | x :: l' => bind (f x) (fun y => bind (mapM f l') (fun ys => Ok (y :: ys)))
  end.

(** [row[key] = v] *)
Fixpoint set_field (key : string) (v : value) (r : record) : record :=
  match r with
  | [] => [(key, v)]
  | (k, w) :: r' => if (k =? key)%string then (k, v) :: r'
                    else (k, w) :: set_field key v r'
  end.

(** [type === tag] in a [switch] *)
Definition is_string (v : value) (tag : string) : bool :=
  match v with
  | VString s => (s =? tag)%string
  | _ => false
  end.

Definition resolveBlockSpec (latestBlockID : value) (blockSpec : option string)
  : result value :=
  match blockSpec with
  | None => Ok latestBlockID
  | Some spec =>
      if (spec =? "earliest")%string then Ok (VNumber (Fin 0))
      else if (spec =? "latest")%string then Ok latestBlockID
      else if (spec =? "pending")%string then Ok latestBlockID
      else
        let blockID := parseInt spec 16 in
        if isNaN blockID then Throw ("invalid block ID: " ++ spec)%string
        else Ok (VNumber blockID)
  end.

Inductive address_filter : Type :=
| OneAddress (a : string)
| ManyAddresses (l : list string).

Record FilterOptions : Type := {
  blockHash : option string;
  fromBlock : option string;
  toBlock : option string;
  address : option address_filter;
  topics : option (list Topics.topic)
}.

(** [_init]: the column types whose text the client hands back as a BigInt.
    [defined n] tells whether the store has a type named [n] (the
    [pg_type] lookup returned a row). *)
Inductive pg_type : Type :=
| INT8
| NUMERIC
| INT4
| Named (typname : string)
| OtherType.

Definition bigint_type_names : list string := ["blockno"; "chainid"; "u64"; "u256"].

Definition has_BigInt_parser (defined : string -> bool) (t : pg_type) : bool :=
  match t with
  | INT8 | NUMERIC => true
  | Named n => existsb (String.eqb n) bigint_type_names && defined n
  | INT4 | OtherType => false
  end.

(** The value the client builds from the text [val] of a column of type [t];
    without a registered parser an [int4] goes through [parseInt(val, 10)]
    and any other type stays a string. *)
Definition decode (defined : string -> bool) (t : pg_type) (val : string)
  : result value :=
  if has_BigInt_parser defined t then
    match StringToBigInt val with
    | Some z => Ok (VBigInt z)
    | None => Throw "SyntaxError: Cannot convert to a BigInt"
    end
  else
    match t with
    | INT4 => Ok (VNumber (parseInt val 10))
    | _ => Ok (VString val)
    end.

Section Handlers.
Context {engine : Engine.Lib}.

Definition eth_getBlockByHash (blockHash : string) : M value :=
  blockHash_ <- lift (if startsWith blockHash "0x"
                      then bind (Engine.hexToBytes blockHash) (fun b => Ok (VBuffer b))
                      else Ok (VString blockHash)) ;;
  try_catch
    (rows <- _query (Q_getBlockByHash blockHash_) ;;
     ret (Engine.exportJSON
            (VArray (map (fun row => VObject (set_field "transactions" (VArray [])
                                                (set_field "uncles" (VArray []) row)))
                         rows))))
    (fun _ => ret VNull).

Definition eth_getBlockByNumber (blockNumber : string) : M value :=
  let blockNumber_ := if startsWith blockNumber "0x"
                      then VNumber (parseInt blockNumber 16)
                      else VString blockNumber in
  try_catch
    (rows <- _query (Q_getBlockByNumber blockNumber_) ;;
     ret (Engine.exportJSON
            (VArray (map (fun row => VObject (set_field "transactions" (VArray [])
                                                (set_field "uncles" (VArray []) row)))
                         rows))))
    (fun _ => ret VNull).

Definition eth_getTransactionByHash (transactionHash : string) : M value :=
  transactionHash_ <- lift (Engine.hexToBytes transactionHash) ;;
  try_catch
    (rows <- _query (Q_getTransactionByHash (VBuffer transactionHash_)) ;;
     ret (match rows with
          | row :: _ => Engine.exportJSON (VObject row)
          | [] => VNull
          end))
    (fun _ => ret VNull).

Definition eth_getFilterChanges (filterID : string) : M value :=
  let filterID_ := parseInt filterID 16 in
  if is_zero filterID_ then ret (VArray [])
  else
    rows <- _query (Q_filter_type filterID_) ;;
    type <- lift (first_row_field "type" rows) ;;
    if is_string type "block" then
      rows <- _query (Q_getFilterChanges_block filterID_) ;;
      let buffers := flat_map (fun row : record => map snd row) rows in
      hashes <- lift (mapM Engine.bytesToHex buffers) ;;
      ret (VArray hashes)
    else if is_string type "event" then
      rows <- _query (Q_getFilterChanges_event filterID_) ;;
      ret (Engine.exportJSON (VArray (map VObject rows)))
    else ret (VArray []).

Definition eth_getFilterLogs (filterID : string) : M value :=
  let filterID_ := parseInt filterID 16 in
  if is_zero filterID_ then ret (VArray [])
  else
    rows <- _query (Q_filter_type filterID_) ;;
    type <- lift (first_row_field "type" rows) ;;
    if is_string type "block" then
      rows <- _query (Q_getFilterLogs_block filterID_) ;;
      let buffers := flat_map (fun row : record => map snd row) rows in
      hashes <- lift (mapM Engine.bytesToHex buffers) ;;
      ret (VArray hashes)
    else if is_string type "event" then
      rows <- _query (Q_getFilterLogs_event filterID_) ;;
      ret (Engine.exportJSON (VArray (map VObject rows)))
    else ret (VArray []).

Definition eth_uninstallFilter (filterID : string) : M value :=
  let filterID_ := parseInt filterID 16 in
  if is_zero filterID_ then ret (VBool true)
  else
    rows <- _query (Q_uninstallFilter "0.0.0.0" filterID_) ;;
    found <- lift (first_row_field "found" rows) ;;
    ret found.

(** The block part of the [where] list of [eth_getLogs]. *)
Definition block_clauses (latestBlockID : value) (filter : FilterOptions)
  : result (list expr) :=
  match blockHash filter with
  | Some h => bind (Engine.hexToBytes h) (fun b => Ok [Eq col_b_hash (VBuffer b)])
  | None =>
      bind (resolveBlockSpec latestBlockID (fromBlock filter)) (fun fromBlock =>
      let lower := if truthy fromBlock then [Gte col_b_id fromBlock] else [] in
      bind (resolveBlockSpec latestBlockID (toBlock filter)) (fun toBlock =>
      let upper := if truthy toBlock then [Lte col_b_id toBlock] else [] in
      Ok (lower ++ upper)))
  end.

(** [if (filter.address)]: a non-empty string or any array. *)
Definition address_clauses (filter : FilterOptions) : result (list expr) :=
  let addresses :=
    match address filter with
    | None => None
    | Some (OneAddress a) => if (a =? "")%string then None else Some [a]
    | Some (ManyAddresses l) => Some l
    end in
  match addresses with
  | None => Ok []
  | Some l => bind (mapM Engine.parseAddress l)
                   (fun bs => Ok [In col_t_from (map VBuffer bs)])
  end.

(** [if (filter.topics) { const clauses = compileTopics(...); if (clauses) ... }] *)
Definition topics_clauses (filter : FilterOptions) : list expr :=
  match topics filter with
  | None => []
  | Some ts =>
      match Topics.compileTopics (Some ts) with
      | Some clauses => [clauses]
      | None => []
      end
  end.

(** The whole [where] list, in the order it is pushed. *)
Definition getLogs_where (latestBlockID : value) (filter : FilterOptions)
  : result (list expr) :=
  bind (block_clauses latestBlockID filter) (fun blocks =>
  bind (address_clauses filter) (fun addresses =>
  Ok (blocks ++ addresses ++ topics_clauses filter))).

Definition eth_getLogs (filter : FilterOptions) : M value :=
  rows <- _query Q_blockNumber ;;
  latestBlockID <- lift (first_row_field "id" rows) ;;
  where_ <- lift (getLogs_where latestBlockID filter) ;;
  rows <- _query (Q_logs (And where_)) ;;
  ret (Engine.exportJSON (VArray (map VObject rows))).

End Handlers.

End Database.

(** ** [indexer.ts] *)

Module Indexer.
Import JS.

(** A transaction of a fetched block. The library declares [hash] and [from]
    optional and the indexer asserts them with [!]; [tx_to] is [None] when
    [to] is undefined or holds no address. An address is given by its bytes
    ([toBytes()]). *)
Record Transaction : Type := {
  tx_hash : option string;
  tx_from : option (list byte);
  tx_to : option (list byte);
  tx_nonce : Z;
  tx_value : Z;
  tx_data : string;
  tx_v : Z;
  tx_r : Z;
  tx_s : Z
}.

(** [proxy.unwrap().getMetadata()]; [hash] is optional and asserted. *)
Record BlockMetadata : Type := {
  number : Z;
  hash : option string;
  parentHash : string;
  timestamp : Z;
  size : Z;
  gasLimit : Z;
  gasUsed : Z;
  transactionsRoot : string;
  stateRoot : string;
  receiptsRoot : string;
  transactions : list Transaction
}.

(** A row of table [block]: the columns the indexer computes ([hash],
    [timestamp], [parent_hash]); the remaining columns are copied from the
    fields of [block_source]. [time_value] is the instant, in milliseconds,
    whose ISO text the column [timestamp] holds. *)
Record BlockRow : Type := {
  chain : Z;
  id : Z;
  hash_bytes : list byte;
  time_value : Z;
  parent_hash_bytes : list byte;
  block_source : BlockMetadata
}.

(** A row of table [transaction]: [block], [index], the computed columns
    [hash], [from] and [to]; the remaining columns are copied from
    [transaction_source] or constant. *)
Record TransactionRow : Type := {
  block : Z;
  index : Z;
  tx_hash_bytes : list byte;
  tx_from_bytes : list byte;
  tx_to_bytes : option (list byte);
  transaction_source : Transaction
}.

Record Store : Type := {
  block_table : list BlockRow;
  transaction_table : list TransactionRow
}.

Definition empty_store : Store := {| block_table := []; transaction_table := [] |}.

(** What the indexer does to the outside, in order. *)
Inductive action : Type :=
| Select_max_id                          (* SELECT MAX(id)::int FROM block *)
| GetBlock (blockID : Z)                 (* engine.getBlock(blockID, ...) *)
| SetTimeout (ms : Z)                    (* await setTimeout(resolve, ms) *)
| Insert_block (row : BlockRow)
| Insert_transaction (row : TransactionRow).

Record world : Type := {
  db : Store;
  trace : list action
}.

Definition did (a : list action) (w : world) : world :=
  {| db := db w; trace := trace w ++ a |}.

Definition insert_block (row : BlockRow) (w : world) : world :=
  {| db := {| block_table := block_table (db w) ++ [row];
              transaction_table := transaction_table (db w) |};
     trace := trace w ++ [Insert_block row] |}.

Definition insert_transaction (row : TransactionRow) (w : world) : world :=
  {| db := {| block_table := block_table (db w);
              transaction_table := transaction_table (db w) ++ [row] |};
     trace := trace w ++ [Insert_transaction row] |}.

(** What the upstream source answers to one [engine.getBlock]: an error, or
    a block together with the statement of its persistence that the store
    rejects, if any ([Some 0]: the block row; [Some (S j)]: the row of
    transaction [j]; an index past the last statement rejects nothing). *)
Inductive reply : Type :=
| NotProduced
| Produced (block : BlockMetadata) (fault : option nat).

(** The environment does not know which height it will be asked for: each
    of its answers is a function of the height requested. *)
Definition answer : Type := Z -> reply.

Inductive outcome : Type :=
| Done (w : world)
| Failed (w : world) (error : string).

Inductive poll : Type :=
| Waiting (w : world)                         (* still inside the for (;;) *)
| Indexed (w : world) (rest : list answer)    (* returned *)
| Crashed (w : world) (error : string).       (* threw *)

Inductive run : Type :=
| Running (blockID : Z) (w : world)
| Stopped (w : world) (error : string).

(** [new Date(ms).toISOString()]: the time value, or the RangeError of a
    Date outside 8.64e15 ms around the epoch. *)
Definition toISOString (ms : Z) : result Z :=
  if Z.abs ms <=? 8640000000000000 then Ok ms
  else Throw "RangeError: Invalid time value".

Section Process.
Context {engine : Engine.Lib}.
(** [this.network.chainID] and [AccountID.parse(this.config.engine).unwrap()] *)
Variable chainID : Z.
Variable contractID : result string.

(** [hexToBytes(x!)]: when [x] is undefined the library has no string to
    read and throws. *)
Definition hexToBytes_asserted (x : option string) : result (list byte) :=
  match x with
  | Some s => Engine.hexToBytes s
  | None => Throw "TypeError: hexToBytes of undefined"
  end.

(** The row of [sql.insert('block', {...})]; the fields are evaluated in the
    order they are written, and the first that throws ends [indexBlock]. *)
Definition block_query (block : BlockMetadata) : result BlockRow :=
  bind (hexToBytes_asserted (hash block)) (fun hash_ =>
  bind (toISOString (timestamp block * 1000)) (fun timestamp_ =>
  bind (Engine.hexToBytes (parentHash block)) (fun parent_hash_ =>
  Ok {| chain := chainID; id := number block; hash_bytes := hash_;
        time_value := timestamp_; parent_hash_bytes := parent_hash_;
        block_source := block |}))).

(** The row of [sql.insert('transaction', {...})]. *)
Definition transaction_query (blockID transactionIndex : Z) (transaction : Transaction)
  : result TransactionRow :=
  bind (hexToBytes_asserted (tx_hash transaction)) (fun hash_ =>
  bind (match tx_from transaction with
        | Some a => Ok a
        | None => Throw "TypeError: Cannot read properties of undefined (reading 'toBytes')"
        end) (fun from_ =>
  Ok {| block := blockID; index := transactionIndex; tx_hash_bytes := hash_;
        tx_from_bytes := from_; tx_to_bytes := tx_to transaction;
        transaction_source := transaction |})).

(** [indexTransaction]; [rejected] tells whether the store rejects the
    insert. *)
Definition indexTransaction (blockID transactionIndex : Z) (transaction : Transaction)
  (rejected : bool) (w : world) : outcome :=
  match transaction_query blockID transactionIndex transaction with
  | Throw e => Failed w e
  | Ok row =>
      if rejected then Failed (did [Insert_transaction row] w) "query failed"
      else Done (insert_transaction row w)
  end.

(** The [for (const transaction of block.transactions)] loop. *)
Fixpoint indexTransactions (blockID transactionIndex : Z) (txs : list Transaction)
  (fault : option nat) (w : world) : outcome :=
  match txs with
  | [] => Done w
  | transaction :: rest =>
      let rejected := match fault with Some O => true | _ => false end in
      match indexTransaction blockID transactionIndex transaction rejected w with
      | Done w' =>
          indexTransactions blockID (add_one transactionIndex) rest
            (option_map Nat.pred fault) w'
      | Failed w' e => Failed w' e
      end
  end.

(** [indexBlock(blockID)], run against the answers of the environment. The
    contract id is computed anew for every request. *)
Fixpoint indexBlock (blockID : Z) (w : world) (answers : list answer) : poll :=
  match contractID with
  | Throw e => Crashed w e
  | Ok _ =>
      match answers with
      | [] => Waiting w
      | answer :: rest =>
          match answer blockID with
          | NotProduced =>
              indexBlock blockID (did [GetBlock blockID; SetTimeout 100] w) rest
          | Produced block fault =>
              let w1 := did [GetBlock blockID] w in
              match block_query block with
              | Throw e => Crashed w1 e
              | Ok row =>
                  match fault with
                  | Some O => Crashed (did [Insert_block row] w1) "query failed"
                  | _ =>
                      match indexTransactions blockID 0 (transactions block)
                              (option_map Nat.pred fault) (insert_block row w1) with
                      | Done w2 => Indexed w2 rest
                      | Failed w2 e => Crashed w2 e
                      end
                  end
              end
          end
      end
  end.

(** The [for (;;)] of [start]; [fuel] bounds the number of calls of
    [indexBlock], each of which consumes an answer before it returns. *)
Fixpoint loop (fuel : nat) (blockID : Z) (w : world) (answers : list answer) : run :=
  match fuel with
  | O => Running blockID w
  | S fuel' =>
      match indexBlock blockID w answers with
      | Waiting w' => Running blockID w'
      | Indexed w' rest => loop fuel' (add_one blockID) w' rest
      | Crashed w' e => Stopped w' e
      end
  end.

(** [MAX(id)], NULL on an empty table. *)
Definition max_id (rows : list BlockRow) : option Z :=
  fold_left (fun acc row => match acc with
                            | None => Some (id row)
                            | Some m => Some (Z.max m (id row))
                            end) rows None.

(** [::int]: the store raises when the value is outside 32 bits. *)
Definition cast_int (v : option Z) : result (option Z) :=
  match v with
  | None => Ok None
  | Some z => if (- 2 ^ 31 <=? z) && (z <? 2 ^ 31) then Ok (Some z)
              else Throw "integer out of range"
  end.

(** [maxID === null ? 0 : maxID + 1] *)
Definition resume_at (database : Store) : result Z :=
  bind (cast_int (max_id (block_table database)))
       (fun maxID => Ok match maxID with
                        | None => 0
                        | Some m => add_one m
                        end).

(** [start()], run against the answers of the environment until they are
    used up. *)
Definition start (database : Store) (answers : list answer) : run :=
  let w := {| db := database; trace := [Select_max_id] |} in
  match resume_at database with
  | Throw e => Stopped w e
  | Ok blockID => loop (S (List.length answers)) blockID w answers
  end.

Definition store_of (r : run) : Store :=
  match r with
  | Running _ w => db w
  | Stopped w _ => db w
  end.

(** The process is started, runs, dies, and is started again on the store
    it left. *)
Fixpoint sessions (database : Store) (runs : list (list answer)) : Store :=
  match runs with
  | [] => database
  | answers :: runs' => sessions (store_of (start database answers)) runs'
  end.

End Process.

Definition heights (database : Store) : list Z := map id (block_table database).

End Indexer.

(** ** The vocabulary of the specification *)

Module Spec.
Import JS.

(** The heights [0 .. n-1]. *)
Definition upto (n : nat) : list Z := map Z.of_nat (seq 0 n).

(** A quantity on the wire: [0x] followed by at least one hex digit and
    nothing else. *)
Definition well_formed_quantity (s : string) : bool :=
  startsWith s "0x" &&
  match all_digits 16 (substring_from 2 s) with
  | Some _ => true
  | None => false
  end.

(** The integer a quantity denotes. *)
Definition quantity_value (s : string) : option Z :=
  if startsWith s "0x"
  then option_map (math_int 16) (all_digits 16 (substring_from 2 s))
  else None.

(** A hexadecimal digit, by its character. *)
Definition is_hex_digit (c : ascii) : bool :=
  match c with
  | "0" | "1" | "2" | "3" | "4" | "5" | "6" | "7" | "8" | "9"
  | "a" | "b" | "c" | "d" | "e" | "f"
  | "A" | "B" | "C" | "D" | "E" | "F" => true
  | _ => false
  end%char.

(** What is left of a literal once leading white space, one sign and one
    [0x] or [0X] are taken off: the place where its digits have to start. *)
Definition after_sign (s : string) : string :=
  match s with
  | String c r => if Ascii.eqb c "+" || Ascii.eqb c "-" then r else s
  | EmptyString => s
  end.

Definition after_prefix (s : string) : string :=
  match s with
  | String a (String b r) =>
      if Ascii.eqb a "0" && (Ascii.eqb b "x" || Ascii.eqb b "X") then r else s
  | _ => s
  end.

Definition digits_place (s : string) : string :=
  after_prefix (after_sign (trim_start s)).

(** The literal has no hexadecimal digit where its digits have to start. *)
Definition no_digits (s : string) : bool :=
  match digits_place s with
  | String c _ => negb (is_hex_digit c)
  | EmptyString => true
  end.

(** The event's topic in slot [k], counted from 1. *)
Definition slot (event_topics : list (list byte)) (k : nat) : option (list byte) :=
  match k with
  | O => None
  | S j => nth_error event_topics j
  end.

(** What position [i] (counted from 0) of a topic filter asks of an event. *)
Definition position_holds (event_topics : list (list byte)) (i : nat)
  (p : Topics.topic) : Prop :=
  match p with
  | Topics.TNull => True
  | Topics.TString d => slot event_topics (i + 1) = Some (Topics.hexToBytes d)
  | Topics.TArray candidates =>
      exists d, In (Some d) candidates /\
                slot event_topics (i + 1) = Some (Topics.hexToBytes d)
  end.

(** All positions hold together. *)
Definition filter_holds (event_topics : list (list byte))
  (positions : list Topics.topic) : Prop :=
  forall i p, nth_error positions i = Some p -> position_holds event_topics i p.

(** An event with the given topics. *)
Definition event (ts : list (list byte)) : Sql.row :=
  {| Sql.block_id := 0; Sql.block_hash := []; Sql.tx_from := []; Sql.topics := ts |}.

(** The upstream source answers a request for height [h] with the block
    numbered [h], whenever it answers with a block. *)
Definition faithful (a : Indexer.answer) : Prop :=
  forall h block fault, a h = Indexer.Produced block fault -> Indexer.number block = h.

(** A block without transactions at height [h], the row the indexer writes
    for it, the store that holds these rows for every height below [n], and
    the answer of a source that has every such block. *)
Definition plain_block (h : Z) : Indexer.BlockMetadata :=
  {| Indexer.number := h; Indexer.hash := Some "0x"; Indexer.parentHash := "0x";
     Indexer.timestamp := 0; Indexer.size := 0; Indexer.gasLimit := 0;
     Indexer.gasUsed := 0; Indexer.transactionsRoot := "0x";
     Indexer.stateRoot := "0x"; Indexer.receiptsRoot := "0x";
     Indexer.transactions := [] |}.

Definition plain_row (chainID h : Z) : Indexer.BlockRow :=
  {| Indexer.chain := chainID; Indexer.id := h; Indexer.hash_bytes := [];
     Indexer.time_value := 0; Indexer.parent_hash_bytes := [];
     Indexer.block_source := plain_block h |}.

Definition plain_store (chainID : Z) (n : nat) : Indexer.Store :=
  {| Indexer.block_table := map (plain_row chainID) (upto n);
     Indexer.transaction_table := [] |}.

Definition plain_answer : Indexer.answer :=
  fun h => Indexer.Produced (plain_block h) None.

Definition not_produced : Indexer.answer := fun _ => Indexer.NotProduced.

(** A block with two transactions at height [h], and the rows the indexer
    writes for it. *)
Definition transfer (nonce : Z) : Indexer.Transaction :=
  {| Indexer.tx_hash := Some "0x0a"; Indexer.tx_from := Some [x01]%byte;
     Indexer.tx_to := None; Indexer.tx_nonce := nonce; Indexer.tx_value := 0;
     Indexer.tx_data := "0x"; Indexer.tx_v := 0; Indexer.tx_r := 0;
     Indexer.tx_s := 0 |}.

Definition busy_block (h : Z) : Indexer.BlockMetadata :=
  {| Indexer.number := h; Indexer.hash := Some "0x"; Indexer.parentHash := "0x";
     Indexer.timestamp := 0; Indexer.size := 0; Indexer.gasLimit := 0;
     Indexer.gasUsed := 0; Indexer.transactionsRoot := "0x";
     Indexer.stateRoot := "0x"; Indexer.receiptsRoot := "0x";
     Indexer.transactions := [transfer 0; transfer 1] |}.

Definition busy_row (chainID h : Z) : Indexer.BlockRow :=
  {| Indexer.chain := chainID; Indexer.id := h; Indexer.hash_bytes := [];
     Indexer.time_value := 0; Indexer.parent_hash_bytes := [];
     Indexer.block_source := busy_block h |}.

Definition transfer_row (h i : Z) : Indexer.TransactionRow :=
  {| Indexer.block := h; Indexer.index := i; Indexer.tx_hash_bytes := [x0a]%byte;
     Indexer.tx_from_bytes := [x01]%byte; Indexer.tx_to_bytes := None;
     Indexer.transaction_source := transfer i |}.

End Spec.

(** ** [lib/errors.js] *)

Module Errors.
Import JS.

(** [class CodedError extends Error]: a code and a message. *)
Record CodedError : Type := {
  code : Z;
  message : string
}.

Inductive outcome (A : Type) : Type :=
| Returned (a : A)
| Raised (e : CodedError).
Arguments Returned {A} a.
Arguments Raised {A} e.

Definition UnsupportedMethod (method : string) : CodedError :=
  {| code := -32601; message := ("Unsupported method: " ++ method)%string |}.

Definition UnimplementedMethod (method : string) : CodedError :=
  {| code := -32601; message := ("Unimplemented method: " ++ method)%string |}.

Definition InvalidArguments : CodedError :=
  {| code := -32602; message := "Invalid method parameter(s)." |}.

Definition unsupported (method : string) : outcome unit :=
  Raised (UnsupportedMethod method).

Definition unimplemented (method : string) : outcome unit :=
  Raised (UnimplementedMethod method).

Section Numbers.
(** [`${n}`] for a Number [n]: the text the language prints for it. *)
Variable Number_toString : number -> string.

(** [message || `missing value for required argument ${index}`]: an absent or
    empty message gives the default text. *)
Definition MissingArgument (index : number) (msg : option string) : CodedError :=
  let default :=
    ("missing value for required argument " ++ Number_toString index)%string in
  {| code := -32602;
     message := match msg with
                | Some m => if (m =? "")%string then default else m
                | None => default
                end |}.

Definition TooManyArguments (maxCount : number) : CodedError :=
  {| code := -32602;
     message := ("too many arguments, want at most " ++ Number_toString maxCount)%string |}.

(** [expectArgs(args, min, max, minMsg)]; [None] is an absent [args]. The
    bounds are Numbers: the comparisons and [min - 1] are those of doubles. *)
Definition expectArgs (args : option (list value)) (min max : number)
  (minMsg : option string) : outcome unit :=
  match args with
  | None => Returned tt
  | Some l =>
      let length := Fin (Z.of_nat (List.length l)) in
      if number_lt length min then Raised (MissingArgument (sub_one min) minMsg)
      else if number_lt max length then Raised (TooManyArguments max)
      else Returned tt
  end.

End Numbers.

End Errors.

(** ** The replacement of [sql.convert] (both [indexer.ts] and
    [servers/database.ts]) *)

Module SqlConvert.
Import JS.

(** [Buffer.from(val).toString('hex')] *)
Definition toString_hex (b : list byte) : string := Engine.hex_of_bytes b.

(** A byte array becomes the literal [quote backslash x hex quote]; any other
    value goes to the library's own [convert]. *)
Definition convert (sqlConvert : value -> string) (val : value) : string :=
  match val with
  | VBuffer b => ("'\x" ++ toString_hex b ++ "'")%string
  | _ => sqlConvert val
  end.

End SqlConvert.

(** ** [servers/database.ts]: the handlers that send one statement

    These handlers pass the statement as text with its parameters. *)

Module Rpc.
Import JS.

Record statement : Type := {
  text : string;
  params : list value
}.

Definition store : Type := statement -> result (list Database.record).

(** The outcome of a call and the statements it sent. *)
Definition handler : Type := store -> result value * list statement.

(** [await this._query(s)] followed by [k], with nothing caught. *)
Definition query_then (s : statement) (k : list Database.record -> result value)
  : handler :=
  fun db => (bind (db s) k, [s]).

(** [try { rows = await this._query(s); return k(rows) } catch { return null }] *)
Definition query_or_null (s : statement) (k : list Database.record -> value)
  : handler :=
  fun db => (match db s with
             | Ok rows => Ok (k rows)
             | Throw _ => Ok VNull
             end, [s]).

(** An argument that is computed before the statement is sent. *)
Definition with_argument (a : result value) (k : value -> handler) : handler :=
  fun db => match a with
            | Ok v => k v db
            | Throw e => (Throw e, [])
            end.

(** [blockHash.startsWith('0x') ? hexToBytes(blockHash) : blockHash] *)
Definition hash_argument {engine : Engine.Lib} (blockHash : string) : result value :=
  if startsWith blockHash "0x"
  then bind (Engine.hexToBytes blockHash) (fun b => Ok (VBuffer b))
  else Ok (VString blockHash).

(** [blockNumber.startsWith('0x') ? parseInt(blockNumber, 16) : blockNumber] *)
Definition number_argument (blockNumber : string) : value :=
  if startsWith blockNumber "0x" then VNumber (parseInt blockNumber 16)
  else VString blockNumber.

Section Handlers.
Context {engine : Engine.Lib}.
(** [intToHex] of the engine library. *)
Variable intToHex : value -> result value.

(** [const { rows: [{ key }] } = ...; return intToHex(key)] *)
Definition hex_of_field (key : string) (rows : list Database.record) : result value :=
  bind (Database.first_row_field key rows) intToHex.

Definition eth_blockNumber : handler :=
  query_then {| text := "SELECT eth_blockNumber() AS result"; params := [] |}
    (hex_of_field "result").

Definition eth_getBlockTransactionCountByHash (blockHash : string) : handler :=
  with_argument (hash_argument blockHash) (fun blockHash_ =>
    query_then {| text := "SELECT eth_getBlockTransactionCountByHash($1) AS result";
                  params := [blockHash_] |}
      (hex_of_field "result")).

Definition eth_getBlockTransactionCountByNumber (blockNumber : string) : handler :=
  query_then {| text := "SELECT eth_getBlockTransactionCountByNumber($1) AS result";
                params := [number_argument blockNumber] |}
    (hex_of_field "result").

Definition eth_getUncleCountByBlockHash (blockHash : string) : handler :=
  with_argument (hash_argument blockHash) (fun blockHash_ =>
    query_then {| text := "SELECT eth_getUncleCountByBlockHash($1) AS result";
                  params := [blockHash_] |}
      (hex_of_field "result")).

Definition eth_getUncleCountByBlockNumber (blockNumber : string) : handler :=
  query_then {| text := "SELECT eth_getUncleCountByBlockNumber($1) AS result";
                params := [number_argument blockNumber] |}
    (hex_of_field "result").

Definition eth_newBlockFilter : handler :=
  query_then {| text := "SELECT eth_newBlockFilter($1) AS id";
                params := [VString "0.0.0.0"] |}
    (hex_of_field "id").

Definition eth_newPendingTransactionFilter : handler :=
  query_then {| text := "SELECT eth_newPendingTransactionFilter() AS id";
                params := [] |}
    (hex_of_field "id").

(** [(rows.length > 0) ? exportJSON(rows[0]) : null] *)
Definition first_row_or_null (rows : list Database.record) : value :=
  match rows with
  | row :: _ => Engine.exportJSON (VObject row)
  | [] => VNull
  end.

Definition eth_getTransactionByBlockHashAndIndex (blockHash transactionIndex : string)
  : handler :=
  with_argument (bind (Engine.hexToBytes blockHash) (fun b => Ok (VBuffer b)))
    (fun blockHash_ =>
       let transactionIndex_ := VNumber (parseInt transactionIndex 0) in
       query_or_null
         {| text := "SELECT * FROM eth_getTransactionByBlockHashAndIndex($1::hash, $2::int)";
            params := [blockHash_; transactionIndex_] |}
         first_row_or_null).

Definition eth_getTransactionByBlockNumberAndIndex (blockNumber transactionIndex : string)
  : handler :=
  let blockNumber_ := VNumber (parseInt blockNumber 0) in
  let transactionIndex_ := VNumber (parseInt transactionIndex 0) in
  query_or_null
    {| text := "SELECT * FROM eth_getTransactionByBlockNumberAndIndex($1::blockno, $2::int)";
       params := [blockNumber_; transactionIndex_] |}
    first_row_or_null.

End Handlers.

(** [intToHex] on the integers the store hands back:
    [`0x${value.toString(16)}`]; used to run the handlers. *)
Definition reference_intToHex (v : value) : result value :=
  match v with
  | VBigInt z => Ok (VString (Engine.intToHex z))
  | VNumber (Fin z) => Ok (VString (Engine.intToHex z))
  | _ => Throw "TypeError: not an integer"
  end.

End Rpc.

(** ** More vocabulary of the specification *)

Module Expect.

(** The rows [indexTransaction] builds for the transactions of one block,
    the first of them with index [k], when every one of them can be built. *)
Fixpoint transaction_rows {engine : Engine.Lib} (blockID k : Z)
  (txs : list Indexer.Transaction) : result (list Indexer.TransactionRow) :=
  match txs with
  | [] => Ok []
  | t :: rest =>
      bind (Indexer.transaction_query blockID k t) (fun row =>
      bind (transaction_rows blockID (k + 1) rest) (fun rows => Ok (row :: rows)))
  end.

End Expect.

(** * Properties *)

(** ** Arithmetic of [JS.number] *)

Lemma round_nearest_even_small m : m <= 2 ^ 53 -> JS.round_nearest_even m = m.
Proof.
  intros H. destruct (Z.eq_dec m (2 ^ 53)) as [->|Hne]; [vm_compute; reflexivity|].
  unfold JS.round_nearest_even.
  destruct (Z.leb_spec (Z.log2 m - 52) 0) as [_|Hlog]; [reflexivity|].
  exfalso.
  assert (0 < m) by (destruct (Z.lt_trichotomy 0 m) as [?|[<-|Hn]]; auto;
    [simpl in Hlog; lia | rewrite Z.log2_nonpos in Hlog by lia; lia]).
  assert (2 ^ 53 <= m); [|lia].
  transitivity (2 ^ Z.log2 m).
  - apply Z.pow_le_mono_r; lia.
  - apply Z.log2_spec; assumption.
Qed.

Lemma add_one_exact h : h < 2 ^ 53 -> JS.add_one h = h + 1.
Proof. intros H. apply round_nearest_even_small. lia. Qed.

Lemma to_double_small m :
  0 < m <= 2 ^ 53 -> JS.to_double false m = JS.Fin m.
Proof.
  intros H. unfold JS.to_double. rewrite round_nearest_even_small by lia.
  destruct (Z.leb_spec (2 ^ 1024) m) as [Hbig|_]; [|reflexivity].
  exfalso. assert (2 ^ 53 < 2 ^ 1024) by (apply Z.pow_lt_mono_r; lia). lia.
Qed.

(** ** Printing and reading digits *)

Lemma code_digit_char d :
  0 <= d < 36 -> JS.code (Engine.digit_char d) = if d <? 10 then 48 + d else 87 + d.
Proof.
  intros H. unfold JS.code, Engine.digit_char.
  rewrite N_ascii_embedding.
  - rewrite Z2N.id; [reflexivity|]. destruct (d <? 10); lia.
  - destruct (d <? 10); lia.
Qed.

Lemma radix_digit_char R d :
  0 <= d < R -> R <= 36 -> JS.radix_digit R (Engine.digit_char d) = Some d.
Proof.
  intros Hd HR. unfold JS.radix_digit, JS.digit_value.
  rewrite code_digit_char by lia.
  destruct (Z.ltb_spec d 10).
  - replace ((48 <=? 48 + d) && (48 + d <=? 57)) with true by lia.
    replace (48 + d - 48) with d by lia.
    destruct (Z.ltb_spec d R); [reflexivity | lia].
  - replace ((48 <=? 87 + d) && (87 + d <=? 57)) with false by lia.
    replace ((97 <=? 87 + d) && (87 + d <=? 122)) with true by lia.
    replace (87 + d - 87) with d by lia.
    destruct (Z.ltb_spec d R); [reflexivity | lia].
Qed.

Lemma digit_char_not_space d :
  0 <= d < 36 -> JS.is_white_space (Engine.digit_char d) = false.
Proof.
  intros H. unfold JS.is_white_space. rewrite code_digit_char by lia.
  destruct (d <? 10); lia.
Qed.

Lemma digits_prefix_printed R ds :
  R <= 36 -> Forall (fun d => 0 <= d < R) ds ->
  JS.digits_prefix R (Engine.string_of_digits ds) = ds.
Proof.
  intros HR H. induction H as [|d ds Hd _ IH]; simpl; [reflexivity|].
  rewrite radix_digit_char, IH by assumption. reflexivity.
Qed.

Lemma length_string_of_digits ds :
  String.length (Engine.string_of_digits ds) = List.length ds.
Proof. induction ds; simpl; congruence. Qed.

Lemma all_digits_printed R ds :
  R <= 36 -> ds <> [] -> Forall (fun d => 0 <= d < R) ds ->
  JS.all_digits R (Engine.string_of_digits ds) = Some ds.
Proof.
  intros HR Hne H. unfold JS.all_digits.
  rewrite digits_prefix_printed, length_string_of_digits, Z.eqb_refl by assumption.
  destruct ds; [contradiction | reflexivity].
Qed.

Lemma to_digits_range R fuel : forall n acc,
  0 <= n -> 0 < R -> Forall (fun d => 0 <= d < R) acc ->
  Forall (fun d => 0 <= d < R) (Engine.to_digits R fuel n acc).
Proof.
  induction fuel as [|fuel IH]; intros n acc Hn HR Hacc; simpl; [assumption|].
  destruct (Z.ltb_spec n R).
  - constructor; [lia | assumption].
  - apply IH; [apply Z.div_pos; lia | assumption |].
    constructor; [apply Z.mod_pos_bound; lia | assumption].
Qed.

Lemma to_digits_nonempty R fuel : forall n acc,
  acc <> [] \/ fuel <> O -> Engine.to_digits R fuel n acc <> [].
Proof.
  induction fuel as [|fuel IH]; intros n acc H; simpl.
  - destruct H; [assumption | contradiction].
  - destruct (n <? R); [discriminate|]. apply IH. left. discriminate.
Qed.

Lemma to_digits_value R fuel : forall n acc,
  2 <= R -> 0 <= n < 2 ^ Z.of_nat fuel ->
  fold_left (fun a d => a * R + d) (Engine.to_digits R fuel n acc) 0 =
  fold_left (fun a d => a * R + d) acc n.
Proof.
  induction fuel as [|fuel IH]; intros n acc HR Hn.
  - simpl in *. replace n with 0 by lia. reflexivity.
  - cbn [Engine.to_digits]. destruct (Z.ltb_spec n R).
    + simpl. reflexivity.
    + rewrite IH; [simpl; f_equal; rewrite (Z.div_mod n R) at 3 by lia; lia | lia |].
      split; [apply Z.div_pos; lia|].
      apply Z.div_lt_upper_bound; [lia|].
      rewrite Nat2Z.inj_succ, Z.pow_succ_r in Hn by lia. nia.
Qed.

Lemma log2_fuel m : 0 <= m -> 0 <= m < 2 ^ Z.of_nat (S (Z.to_nat (Z.log2 m))).
Proof.
  intros H. split; [assumption|].
  rewrite Nat2Z.inj_succ, Z2Nat.id by apply Z.log2_nonneg.
  destruct (Z.eq_dec m 0) as [->|]; [simpl; lia|].
  apply Z.log2_spec. lia.
Qed.

Lemma printed_spec R m :
  2 <= R -> 0 <= m ->
  Engine.printed R m <> [] /\ Forall (fun d => 0 <= d < R) (Engine.printed R m) /\
  JS.math_int R (Engine.printed R m) = m.
Proof.
  intros HR Hm. unfold Engine.printed. split; [|split].
  - apply to_digits_nonempty. right. discriminate.
  - apply to_digits_range; [assumption | lia | constructor].
  - unfold JS.math_int. rewrite to_digits_value; [reflexivity | assumption |].
    apply log2_fuel. assumption.
Qed.

Lemma toString_nonneg R m :
  0 <= m -> Engine.toString R m = Engine.string_of_digits (Engine.printed R m).
Proof.
  intros H. unfold Engine.toString.
  destruct (Z.ltb_spec m 0); [lia | reflexivity].
Qed.

(** ** Reading back what was printed *)

Lemma parseInt_0x body :
  JS.parseInt (String "0" (String "x" body)) 16 =
  JS.number_of_digits false 16 (JS.digits_prefix 16 body).
Proof.
  cbv -[JS.number_of_digits JS.digits_prefix]. reflexivity.
Qed.

Lemma parseInt_hex_digits ds :
  ds <> [] -> Forall (fun d => 0 <= d < 16) ds ->
  JS.parseInt (String "0" (String "x" (Engine.string_of_digits ds))) 16 =
  if JS.math_int 16 ds =? 0 then JS.Fin 0 else JS.to_double false (JS.math_int 16 ds).
Proof.
  intros Hne H. rewrite parseInt_0x.
  rewrite digits_prefix_printed by (assumption || lia).
  destruct ds; [contradiction | reflexivity].
Qed.

Lemma parseInt_intToHex n :
  0 <= n <= 2 ^ 53 -> JS.parseInt (Engine.intToHex n) 16 = JS.Fin n.
Proof.
  intros Hn. unfold Engine.intToHex. rewrite toString_nonneg by lia.
  destruct (printed_spec 16 n) as (Hne & Hrange & Hval); [lia | lia |].
  change ("0x" ++ ?s)%string with (String "0" (String "x" s)).
  rewrite parseInt_hex_digits, Hval by assumption.
  destruct (Z.eqb_spec n 0) as [->|Hnz]; [reflexivity|].
  apply to_double_small. lia.
Qed.

Lemma trim_end_printed ds :
  Forall (fun d => 0 <= d < 36) ds ->
  JS.trim_end (Engine.string_of_digits ds) = Engine.string_of_digits ds.
Proof.
  induction 1 as [|d ds Hd _ IH]; simpl; [reflexivity|].
  rewrite digit_char_not_space, IH by assumption. reflexivity.
Qed.

Lemma trim_start_printed ds :
  Forall (fun d => 0 <= d < 36) ds ->
  JS.trim_start (Engine.string_of_digits ds) = Engine.string_of_digits ds.
Proof.
  destruct 1 as [|d ds Hd _]; simpl; [reflexivity|].
  rewrite digit_char_not_space by assumption. reflexivity.
Qed.

Lemma digit_char_neq R d c :
  0 <= d < R -> R <= 36 -> JS.radix_digit R c = None ->
  Ascii.eqb (Engine.digit_char d) c = false.
Proof.
  intros Hd HR Hc. destruct (Ascii.eqb_spec (Engine.digit_char d) c) as [<-|]; [|reflexivity].
  rewrite radix_digit_char in Hc by assumption. discriminate.
Qed.

Lemma printed_no_prefix ds a c :
  Forall (fun d => 0 <= d < 10) ds -> JS.radix_digit 10 c = None ->
  JS.startsWith (Engine.string_of_digits ds) (String a (String c "")) = false.
Proof.
  intros H Hc. destruct H as [|d1 ds Hd1 H]; [reflexivity|].
  destruct H as [|d2 ds Hd2 H]; simpl.
  - apply andb_false_r.
  - rewrite (digit_char_neq 10 d2 c) by (assumption || lia).
    apply andb_false_r.
Qed.

Lemma printed_not_empty ds :
  ds <> [] -> (Engine.string_of_digits ds =? "")%string = false.
Proof. destruct ds; [contradiction | reflexivity]. Qed.

Lemma printed_first_is ds c :
  Forall (fun d => 0 <= d < 10) ds -> JS.radix_digit 10 c = None ->
  JS.first_is c (Engine.string_of_digits ds) = false.
Proof.
  intros H Hc. destruct H as [|d ds Hd _]; [reflexivity|]. simpl.
  apply (digit_char_neq 10); (assumption || lia).
Qed.

Lemma StringToBigInt_printed ds :
  ds <> [] -> Forall (fun d => 0 <= d < 10) ds ->
  JS.StringToBigInt (Engine.string_of_digits ds) = Some (JS.math_int 10 ds) /\
  JS.StringToBigInt (String "-" (Engine.string_of_digits ds)) = Some (- JS.math_int 10 ds).
Proof.
  intros Hne H.
  assert (H36 : Forall (fun d => 0 <= d < 36) ds)
    by (eapply Forall_impl; [|exact H]; simpl; lia).
  split; unfold JS.StringToBigInt.
  - rewrite trim_start_printed, trim_end_printed by assumption.
    rewrite printed_not_empty by assumption.
    rewrite !printed_no_prefix by (assumption || reflexivity).
    rewrite !printed_first_is by (assumption || reflexivity).
    cbn [orb]. rewrite all_digits_printed by (assumption || lia). reflexivity.
  - change (JS.trim_start (String "-" ?s)) with (String "-" s).
    change (JS.trim_end (String "-" ?s)) with
      (if JS.is_white_space "-" && (JS.trim_end s =? "")%string then ""
       else String "-" (JS.trim_end s)).
    change (JS.is_white_space "-") with false. cbn [andb].
    rewrite trim_end_printed by assumption.
    cbn -[JS.all_digits JS.math_int].
    rewrite all_digits_printed by (assumption || lia). reflexivity.
Qed.

Lemma StringToBigInt_toString z :
  JS.StringToBigInt (Engine.toString 10 z) = Some z.
Proof.
  unfold Engine.toString. destruct (Z.ltb_spec z 0).
  - destruct (printed_spec 10 (- z)) as (Hne & Hr & Hv); [lia | lia |].
    destruct (StringToBigInt_printed _ Hne Hr) as [_ ->]. rewrite Hv. f_equal. lia.
  - destruct (printed_spec 10 z) as (Hne & Hr & Hv); [lia | lia |].
    destruct (StringToBigInt_printed _ Hne Hr) as [-> _]. rewrite Hv. reflexivity.
Qed.

(** ** Block specifiers *)

Lemma parseInt_no_digit c r :
  JS.is_white_space c = false -> c <> "+"%char -> c <> "-"%char ->
  JS.radix_digit 16 c = None ->
  JS.parseInt (String c r) 16 = JS.NaN.
Proof.
  intros Hws Hplus Hminus Hdigit.
  assert (Hzero : Ascii.eqb c "0" = false).
  { destruct (Ascii.eqb_spec c "0") as [->|]; [discriminate Hdigit | reflexivity]. }
  apply Ascii.eqb_neq in Hplus, Hminus.
  unfold JS.parseInt. cbn [JS.trim_start]. rewrite Hws.
  cbn [JS.first_is]. rewrite Hplus, Hminus. cbn [orb].
  cbn [JS.startsWith]. rewrite Hzero.
  cbn -[JS.number_of_digits]. rewrite Hdigit. reflexivity.
Qed.

Lemma intToHex_not_a_tag n tag c :
  c <> "0"%char ->
  (Engine.intToHex n =? String c tag)%string = false.
Proof.
  intros Hc. unfold Engine.intToHex. cbn [String.append String.eqb].
  apply Ascii.eqb_neq in Hc. rewrite Ascii.eqb_sym, Hc. reflexivity.
Qed.

(** The characters [parseInt] reads as digits in radix 16 are the
    hexadecimal digits. *)
Lemma radix_digit_hex (c : ascii) :
  match JS.radix_digit 16 c with Some _ => true | None => false end =
  Spec.is_hex_digit c.
Proof. destruct c as [[] [] [] [] [] [] [] []]; reflexivity. Qed.

(** [parseInt(s, 16)] skips white space, one sign and one prefix, and reads
    the digits it finds there. *)
Lemma parseInt_digits_place (s : string) :
  JS.parseInt s 16 =
  JS.number_of_digits (JS.first_is "-" (JS.trim_start s)) 16
    (JS.digits_prefix 16 (Spec.digits_place s)).
Proof.
  unfold JS.parseInt, Spec.digits_place.
  change (16 =? 0) with false. change (16 =? 16) with true.
  change (16 <? 2) with false. change (36 <? 16) with false.
  cbn [negb andb orb].
  set (S0 := JS.trim_start s).
  assert (Hsign : (if JS.first_is "+" S0 || JS.first_is "-" S0
                   then JS.substring_from 1 S0 else S0) = Spec.after_sign S0).
  { destruct S0 as [|c r]; [reflexivity|]. reflexivity. }
  rewrite Hsign. set (S1 := Spec.after_sign S0).
  assert (Hprefix : (if JS.startsWith S1 "0x" || JS.startsWith S1 "0X"
                     then JS.substring_from 2 S1 else S1) = Spec.after_prefix S1).
  { destruct S1 as [|a [|b r]]; cbn [JS.startsWith Spec.after_prefix JS.substring_from].
    - reflexivity.
    - rewrite !andb_false_r. reflexivity.
    - rewrite !andb_true_r, <- andb_orb_distrib_r. reflexivity. }
  rewrite Hprefix.
  destruct (JS.startsWith S1 "0x" || JS.startsWith S1 "0X"); reflexivity.
Qed.

Lemma parseInt_no_digits (s : string) :
  Spec.no_digits s = true -> JS.parseInt s 16 = JS.NaN.
Proof.
  intros H. rewrite parseInt_digits_place. unfold Spec.no_digits in H.
  destruct (Spec.digits_place s) as [|c r]; [reflexivity|].
  cbn [JS.digits_prefix]. rewrite <- radix_digit_hex in H.
  destruct (JS.radix_digit 16 c); [discriminate | reflexivity].
Qed.

Lemma startsWith_0x (s : string) :
  JS.startsWith s "0x" = true ->
  s = String "0" (String "x" (JS.substring_from 2 s)).
Proof.
  destruct s as [|a [|b r]]; cbn [JS.startsWith]; try discriminate.
  - rewrite andb_false_r. discriminate.
  - rewrite andb_true_r. intros H. apply andb_prop in H as [Ha Hb].
    apply Ascii.eqb_eq in Ha, Hb. subst. reflexivity.
Qed.

Lemma all_digits_prefix R (s : string) (ds : list Z) :
  JS.all_digits R s = Some ds -> JS.digits_prefix R s = ds /\ ds <> [].
Proof.
  unfold JS.all_digits. set (ds0 := JS.digits_prefix R s).
  destruct s as [|c r]; [discriminate|].
  cbn [String.eqb negb andb].
  destruct (Z.eqb_spec (Z.of_nat (List.length ds0)) (Z.of_nat (String.length (String c r))))
    as [E|E]; [|discriminate].
  intros H. injection H as <-. split; [reflexivity|].
  intros Hnil. rewrite Hnil in E. discriminate.
Qed.

Lemma radix_digit_nonneg R c d : JS.radix_digit R c = Some d -> 0 <= d.
Proof.
  unfold JS.radix_digit, JS.digit_value.
  destruct ((48 <=? JS.code c) && (JS.code c <=? 57)) eqn:E1;
    [|destruct ((97 <=? JS.code c) && (JS.code c <=? 122)) eqn:E2;
      [|destruct ((65 <=? JS.code c) && (JS.code c <=? 90)) eqn:E3; [|discriminate]]];
    match goal with
    | E : _ && _ = true |- _ => apply andb_prop in E as [E _]; apply Z.leb_le in E
    end;
    match goal with
    | |- context [if ?t then _ else _] => destruct t; [|discriminate]
    end; intros H; injection H as <-; lia.
Qed.

Lemma math_int_nonneg R (s : string) : 0 <= R -> 0 <= JS.math_int R (JS.digits_prefix R s).
Proof.
  intros HR. unfold JS.math_int.
  assert (Hfold : forall s acc, 0 <= acc ->
            0 <= fold_left (fun a d => a * R + d) (JS.digits_prefix R s) acc).
  { clear s. induction s as [|c r IH]; intros acc Hacc; cbn [JS.digits_prefix fold_left];
      [exact Hacc|].
    destruct (JS.radix_digit R c) as [d|] eqn:E; [|exact Hacc].
    apply radix_digit_nonneg in E. cbn [fold_left]. apply IH. nia. }
  apply Hfold. lia.
Qed.

(** A quantity is read as the double nearest to its value. *)
Lemma parseInt_quantity (s : string) (v : Z) :
  Spec.quantity_value s = Some v ->
  (s =? "earliest")%string = false /\ (s =? "latest")%string = false /\
  (s =? "pending")%string = false /\
  JS.parseInt s 16 = (if v =? 0 then JS.Fin 0 else JS.to_double false v).
Proof.
  unfold Spec.quantity_value. destruct (JS.startsWith s "0x") eqn:E; [|discriminate].
  apply startsWith_0x in E. set (body := JS.substring_from 2 s) in *.
  destruct (JS.all_digits 16 body) as [ds|] eqn:Hds; [|discriminate].
  cbn [option_map]. intros H. injection H as <-.
  apply all_digits_prefix in Hds as [Hprefix Hne].
  rewrite E. repeat split; try reflexivity.
  rewrite parseInt_0x, Hprefix. destruct ds; [contradiction | reflexivity].
Qed.

(** Rounding an integer above 2^53 gives an even integer. *)
Lemma round_nearest_even_large (v : Z) :
  2 ^ 53 < v -> Z.even (JS.round_nearest_even v) = true.
Proof.
  intros Hv. unfold JS.round_nearest_even.
  assert (Hlog : 53 <= Z.log2 v) by (apply Z.log2_le_pow2; lia).
  destruct (Z.leb_spec (Z.log2 v - 52) 0) as [?|He]; [lia|].
  rewrite Z.shiftl_mul_pow2 by lia.
  replace (Z.log2 v - 52) with (Z.succ (Z.log2 v - 53)) by lia.
  rewrite Z.pow_succ_r by lia.
  rewrite Z.even_mul, Z.even_mul. cbn [Z.even]. rewrite orb_true_r. reflexivity.
Qed.

Lemma to_double_odd (v : Z) :
  2 ^ 53 < v -> Z.odd v = true -> JS.to_double false v <> JS.Fin v.
Proof.
  intros Hv Hodd. unfold JS.to_double.
  destruct (2 ^ 1024 <=? JS.round_nearest_even v); [discriminate|].
  intros H. injection H as H.
  pose proof (round_nearest_even_large v Hv) as Heven.
  rewrite H in Heven. rewrite <- Z.negb_odd, Hodd in Heven. discriminate.
Qed.

(** C4, as amended. An absent specifier, [latest] and [pending] resolve to
    the height handed in and [earliest] to 0. A quantity ([0x] and hex digits
    of either case) of value at most 2^53 resolves to that value, a larger
    one to the double nearest to it, which is never an odd value. A literal
    that has no hex digit where its digits have to start (after white space,
    one sign and one [0x] or [0X]) is rejected with
    [invalid block ID: <literal>]. *)
Theorem resolveBlockSpec_cases (latest : JS.value) (quantity : string) (v : Z)
  (bad : string) :
  Spec.quantity_value quantity = Some v ->
  Spec.no_digits bad = true -> bad <> "latest" -> bad <> "pending" ->
  Database.resolveBlockSpec latest None = Ok latest /\
  Database.resolveBlockSpec latest (Some "earliest") = Ok (JS.VNumber (JS.Fin 0)) /\
  Database.resolveBlockSpec latest (Some "latest") = Ok latest /\
  Database.resolveBlockSpec latest (Some "pending") = Ok latest /\
  (v <= 2 ^ 53 ->
   Database.resolveBlockSpec latest (Some quantity) = Ok (JS.VNumber (JS.Fin v))) /\
  (2 ^ 53 < v ->
   Database.resolveBlockSpec latest (Some quantity) =
     Ok (JS.VNumber (JS.to_double false v)) /\
   (Z.odd v = true -> JS.to_double false v <> JS.Fin v)) /\
  Database.resolveBlockSpec latest (Some bad) =
    Throw ("invalid block ID: " ++ bad)%string.
Proof.
  intros Hq Hbad Hlatest Hpending.
  destruct (parseInt_quantity quantity v Hq) as (He & Hl & Hp & Hparse).
  assert (Hv : 0 <= v).
  { unfold Spec.quantity_value in Hq.
    destruct (JS.startsWith quantity "0x"); [|discriminate].
    destruct (JS.all_digits 16 _) as [ds|] eqn:Hds; [|discriminate].
    injection Hq as <-. apply all_digits_prefix in Hds as [<- _].
    apply math_int_nonneg. lia. }
  repeat split; try reflexivity.
  - intros Hsmall. unfold Database.resolveBlockSpec. rewrite He, Hl, Hp, Hparse.
    destruct (Z.eqb_spec v 0) as [->|Hnz]; [reflexivity|].
    rewrite to_double_small by lia. reflexivity.
  - unfold Database.resolveBlockSpec. rewrite He, Hl, Hp, Hparse.
    replace (v =? 0) with false by lia.
    unfold JS.to_double. destruct (_ <=? _); reflexivity.
  - apply to_double_odd. assumption.
  - unfold Database.resolveBlockSpec.
    apply String.eqb_neq in Hlatest, Hpending. rewrite Hlatest, Hpending.
    rewrite parseInt_no_digits by assumption.
    destruct (String.eqb_spec bad "earliest") as [->|]; [discriminate Hbad | reflexivity].
Qed.

Lemma resolveBlockSpec_cases_witness :
  (Database.resolveBlockSpec (JS.VBigInt 7) None = Ok (JS.VBigInt 7) /\
   Database.resolveBlockSpec (JS.VBigInt 7) (Some "earliest") = Ok (JS.VNumber (JS.Fin 0)) /\
   Database.resolveBlockSpec (JS.VBigInt 7) (Some "latest") = Ok (JS.VBigInt 7) /\
   Database.resolveBlockSpec (JS.VBigInt 7) (Some "pending") = Ok (JS.VBigInt 7) /\
   Database.resolveBlockSpec (JS.VBigInt 7) (Some "0x00Ff") = Ok (JS.VNumber (JS.Fin 255)) /\
   Database.resolveBlockSpec (JS.VBigInt 7) (Some "0xzz") = Throw "invalid block ID: 0xzz") /\
  (Database.resolveBlockSpec (JS.VBigInt 7) (Some "0x20000000000001") =
     Ok (JS.VNumber (JS.to_double false (2 ^ 53 + 1))) /\
   JS.to_double false (2 ^ 53 + 1) <> JS.Fin (2 ^ 53 + 1)) /\
  Database.resolveBlockSpec (JS.VBigInt 7) (Some "") = Throw "invalid block ID: " /\
  Database.resolveBlockSpec (JS.VBigInt 7) (Some "0x") = Throw "invalid block ID: 0x" /\
  Database.resolveBlockSpec (JS.VBigInt 7) (Some " zz") = Throw "invalid block ID:  zz" /\
  Database.resolveBlockSpec (JS.VBigInt 7) (Some "-zz") = Throw "invalid block ID: -zz".
Proof.
  pose proof (resolveBlockSpec_cases (JS.VBigInt 7) "0x00Ff" 255 "0xzz"
                eq_refl eq_refl) as H1.
  pose proof (resolveBlockSpec_cases (JS.VBigInt 7) "0x20000000000001" (2 ^ 53 + 1) ""
                eq_refl eq_refl) as H2.
  pose proof (resolveBlockSpec_cases (JS.VBigInt 7) "0x0" 0 "0x" eq_refl eq_refl) as H3.
  pose proof (resolveBlockSpec_cases (JS.VBigInt 7) "0x0" 0 " zz" eq_refl eq_refl) as H4.
  pose proof (resolveBlockSpec_cases (JS.VBigInt 7) "0x0" 0 "-zz" eq_refl eq_refl) as H5.
  destruct H1 as (A1 & A2 & A3 & A4 & A5 & _ & A7); try discriminate.
  destruct H2 as (_ & _ & _ & _ & _ & B6 & B7); try discriminate.
  destruct H3 as (_ & _ & _ & _ & _ & _ & C7); try discriminate.
  destruct H4 as (_ & _ & _ & _ & _ & _ & D7); try discriminate.
  destruct H5 as (_ & _ & _ & _ & _ & _ & E7); try discriminate.
  assert (Hbig : 2 ^ 53 < 2 ^ 53 + 1) by lia.
  destruct (B6 Hbig) as [B6a B6b].
  assert (Hsmall : 255 <= 2 ^ 53) by lia.
  exact (conj (conj A1 (conj A2 (conj A3 (conj A4 (conj (A5 Hsmall) A7)))))
          (conj (conj B6a (B6b eq_refl)) (conj B7 (conj C7 (conj D7 E7))))).
Defined.

(** C4 as stated fails: a literal with trailing garbage is not rejected, and
    a well-formed height above 2^53 does not resolve to itself. *)
Lemma resolveBlockSpec_counterexample :
  Spec.well_formed_quantity "0x1g" = false /\
  Database.resolveBlockSpec (JS.VBigInt 7) (Some "0x1g") = Ok (JS.VNumber (JS.Fin 1)) /\
  Spec.well_formed_quantity "0x20000000000001" = true /\
  JS.StringToBigInt "0x20000000000001" = Some (2 ^ 53 + 1) /\
  Database.resolveBlockSpec (JS.VBigInt 7) (Some "0x20000000000001") =
    Ok (JS.VNumber (JS.Fin (2 ^ 53))).
Proof. repeat split; vm_compute; reflexivity. Qed.

(** ** Topic filters *)

Lemma bytes_eqb_eq a : forall b, Sql.bytes_eqb a b = true <-> a = b.
Proof.
  induction a as [|x a IH]; intros [|y b]; simpl; try (split; congruence).
  rewrite andb_true_iff, IH. split.
  - intros [Hx ->]. f_equal.
    destruct (Byte.eqb x y) eqn:E; [|discriminate].
    apply Byte.byte_dec_bl. exact E.
  - intros H. injection H as -> ->. split; [|reflexivity].
    apply Byte.byte_dec_lb. reflexivity.
Qed.

Lemma bytes_eqb_refl a : Sql.bytes_eqb a a = true.
Proof. apply bytes_eqb_eq. reflexivity. Qed.

(** A comparison of a topic slot with a digest holds exactly when the slot
    exists and carries the decoded digest. *)
Lemma eval_topic_eq (r : Sql.row) (k : nat) (b : list byte) :
  Sql.eval r (Sql.Eq (Sql.col_e_topics k) (JS.VBuffer b)) = true <->
  Spec.slot (Sql.topics r) k = Some b.
Proof.
  destruct k as [|j]; simpl; [split; discriminate|].
  destruct (nth_error (Sql.topics r) j) as [t|]; simpl.
  - rewrite bytes_eqb_eq. split; congruence.
  - split; discriminate.
Qed.

Lemma eval_candidates (r : Sql.row) (k : nat) (l : list (option string)) :
  existsb (Sql.eval r)
    (List.concat (map (fun t : option string =>
       match t with
       | None => []
       | Some s => [Sql.Eq (Sql.col_e_topics k) (JS.VBuffer (Topics.hexToBytes s))]
       end) l)) = true <->
  exists d, In (Some d) l /\ Spec.slot (Sql.topics r) k = Some (Topics.hexToBytes d).
Proof.
  induction l as [|[s|] l IH]; cbn [map List.concat].
  - simpl. split; [discriminate | intros (d & [] & _)].
  - cbn [app existsb]. rewrite orb_true_iff, IH, eval_topic_eq. split.
    + intros [H | (d & Hin & H)]; [exists s | exists d]; simpl; auto.
    + intros (d & [Heq | Hin] & H).
      * injection Heq as ->. left. exact H.
      * right. exists d. auto.
  - cbn [app]. rewrite IH. split; intros (d & Hin & H); exists d; simpl in *.
    + auto.
    + destruct Hin as [Heq|Hin]; [discriminate | auto].
Qed.

Lemma eval_position (r : Sql.row) (i : nat) (p : Topics.topic) :
  forallb (Sql.eval r) (Topics.compile_position p i) = true <->
  Spec.position_holds (Sql.topics r) i p.
Proof.
  destruct p as [|s|l]; cbn [Topics.compile_position Spec.position_holds forallb].
  - tauto.
  - rewrite andb_true_r. apply eval_topic_eq.
  - rewrite andb_true_r. cbn [Sql.eval]. apply eval_candidates.
Qed.

Lemma eval_positions (r : Sql.row) (l : list Topics.topic) : forall i,
  forallb (Sql.eval r) (List.concat (Topics.mapi Topics.compile_position i l)) = true <->
  (forall j p, nth_error l j = Some p -> Spec.position_holds (Sql.topics r) (i + j) p).
Proof.
  induction l as [|p l IH]; intros i; cbn [Topics.mapi List.concat].
  - split; [intros _ [|j] q; discriminate | reflexivity].
  - rewrite forallb_app, andb_true_iff, eval_position, IH. split.
    + intros [Hp Hl] [|j] q Hj; simpl in Hj.
      * injection Hj as <-. rewrite Nat.add_0_r. exact Hp.
      * replace (i + S j)%nat with (S i + j)%nat by lia. apply (Hl j q Hj).
    + intros H. split.
      * rewrite <- (Nat.add_0_r i). apply (H O). reflexivity.
      * intros j q Hj. replace (S i + j)%nat with (i + S j)%nat by lia.
        apply (H (S j)). exact Hj.
Qed.

Lemma compileTopics_sound (r : Sql.row) (p : Topics.topic) (l : list Topics.topic) :
  exists e, Topics.compileTopics (Some (p :: l)) = Some e /\
            (Sql.eval r e = true <-> Spec.filter_holds (Sql.topics r) (p :: l)).
Proof.
  eexists. split; [reflexivity|]. cbn [Sql.eval].
  apply (eval_positions r (p :: l) O).
Qed.

(** C2. A non-empty topic filter compiles to a predicate that holds of an
    event exactly when every position holds: a [null] position asks nothing,
    a digest at position [i] asks slot [i+1] to carry it, a list asks slot
    [i+1] to carry one of its digests. For [[A, null, [B, C]]] it accepts
    [[A, X, B]] and [[A, Y, C]] and rejects [[Z, Y, B]] when [Z] is not [A]. *)
Theorem compileTopics_and_of_or (r : Sql.row) (p : Topics.topic) (l : list Topics.topic)
  (A B C : string) (X Y Z : list byte) :
  Z <> Topics.hexToBytes A ->
  (exists e, Topics.compileTopics (Some (p :: l)) = Some e /\
             (Sql.eval r e = true <-> Spec.filter_holds (Sql.topics r) (p :: l))) /\
  (exists e, Topics.compileTopics
               (Some [Topics.TString A; Topics.TNull; Topics.TArray [Some B; Some C]])
             = Some e /\
     Sql.eval (Spec.event [Topics.hexToBytes A; X; Topics.hexToBytes B]) e = true /\
     Sql.eval (Spec.event [Topics.hexToBytes A; Y; Topics.hexToBytes C]) e = true /\
     Sql.eval (Spec.event [Z; Y; Topics.hexToBytes B]) e = false).
Proof.
  intros HZ. split; [apply compileTopics_sound|].
  eexists. split; [reflexivity|].
  cbn -[Topics.hexToBytes]. rewrite !bytes_eqb_refl. cbn [andb orb].
  repeat split.
  - rewrite orb_true_r. reflexivity.
  - rewrite andb_true_r.
    destruct (Sql.bytes_eqb Z (Topics.hexToBytes A)) eqn:E; [|reflexivity].
    apply bytes_eqb_eq in E. contradiction.
Qed.

Lemma compileTopics_and_of_or_witness :
  exists e, Topics.compileTopics
              (Some [Topics.TString "0x0a"; Topics.TNull;
                     Topics.TArray [Some "0x0b"; Some "0x0c"]]) = Some e /\
    Sql.eval (Spec.event [[x0a]; [x77]; [x0b]]%byte) e = true /\
    Sql.eval (Spec.event [[x0a]; [x78]; [x0c]]%byte) e = true /\
    Sql.eval (Spec.event [[xff]; [x78]; [x0b]]%byte) e = false.
Proof.
  refine (proj2 (compileTopics_and_of_or (Spec.event []) Topics.TNull []
                   "0x0a" "0x0b" "0x0c" [x77]%byte [x78]%byte [xff]%byte _)).
  discriminate.
Defined.

Lemma mapi_app {A B : Type} (f : A -> nat -> B) (l1 l2 : list A) : forall i,
  Topics.mapi f i (l1 ++ l2) =
  Topics.mapi f i l1 ++ Topics.mapi f (i + List.length l1) l2.
Proof.
  induction l1 as [|x l1 IH]; intros i; cbn [app Topics.mapi List.length].
  - rewrite Nat.add_0_r. reflexivity.
  - rewrite IH. do 3 f_equal. lia.
Qed.

Lemma compile_wildcards (k : nat) : forall i,
  List.concat (Topics.mapi Topics.compile_position i (repeat Topics.TNull k)) = [].
Proof. induction k as [|k IH]; intros i; simpl; [reflexivity | apply IH]. Qed.

(** A candidate list that holds no digest compiles to a group without
    operands. *)
Lemma compile_no_candidates (cands : list (option string)) (i : nat) :
  Forall (fun c => c = None) cands ->
  Topics.compile_position (Topics.TArray cands) i = [Sql.Or []].
Proof.
  intros H. cbn [Topics.compile_position]. do 2 f_equal.
  induction H as [|c cands -> _ IH]; [reflexivity | exact IH].
Qed.

Lemma forallb_false_in {A : Type} (f : A -> bool) (x : A) (l : list A) :
  In x l -> f x = false -> forallb f l = false.
Proof.
  intros Hin Hx. destruct (forallb f l) eqn:E; [|reflexivity].
  rewrite forallb_forall in E. rewrite (E x Hin) in Hx. discriminate.
Qed.

Lemma and_with_malformed (x : Sql.expr) (l : list Sql.expr) :
  In x l -> Sql.well_formed x = false -> Sql.well_formed (Sql.And l) = false.
Proof.
  intros Hin Hx. cbn [Sql.well_formed]. destruct l; [reflexivity|].
  apply (forallb_false_in _ x); assumption.
Qed.

(** A filter with such a position compiles to a tree that holds a group
    without operands. *)
Lemma compileTopics_no_candidates (pre suf : list Topics.topic)
  (cands : list (option string)) :
  Forall (fun c => c = None) cands ->
  exists l, Topics.compileTopics (Some (pre ++ Topics.TArray cands :: suf)) =
              Some (Sql.And l) /\
            In (Sql.Or []) l.
Proof.
  intros H.
  assert (Hcons : exists p t, pre ++ Topics.TArray cands :: suf = p :: t)
    by (destruct pre; simpl; eauto).
  destruct Hcons as (p & t & Heq). rewrite Heq. cbn [Topics.compileTopics].
  eexists. split; [reflexivity|]. rewrite <- Heq.
  rewrite mapi_app, concat_app. apply in_or_app. right.
  cbn [Topics.mapi List.concat]. apply in_or_app. left.
  rewrite compile_no_candidates by assumption. left. reflexivity.
Qed.

(** ** Filter calls *)

Section FilterCalls.
Context {engine : Engine.Lib}.
Variable store : Database.store.

(** Filter id 0: the designated result, and nothing is sent to the store. *)
Lemma filter_id_zero (filterID : string) :
  JS.is_zero (JS.parseInt filterID 16) = true ->
  Database.eth_getFilterChanges filterID store = (Ok (JS.VArray []), []) /\
  Database.eth_getFilterLogs filterID store = (Ok (JS.VArray []), []) /\
  Database.eth_uninstallFilter filterID store = (Ok (JS.VBool true), []).
Proof.
  intros H.
  unfold Database.eth_getFilterChanges, Database.eth_getFilterLogs,
    Database.eth_uninstallFilter.
  rewrite H. repeat split.
Qed.

(** C5 on the code. With id 0 both calls return the empty sequence and send
    nothing; with an id for which table [filter] has no row, destructuring
    the first row of the empty answer throws a TypeError. *)
Theorem unknown_filter_throws (zero unknown : string) :
  JS.is_zero (JS.parseInt zero 16) = true ->
  JS.is_zero (JS.parseInt unknown 16) = false ->
  store (Database.Q_filter_type (JS.parseInt unknown 16)) = Ok [] ->
  Database.eth_getFilterChanges zero store = (Ok (JS.VArray []), []) /\
  Database.eth_getFilterLogs zero store = (Ok (JS.VArray []), []) /\
  Database.eth_getFilterChanges unknown store =
    (Throw "TypeError: Cannot destructure property 'type' of 'undefined' as it is undefined.",
     [Database.Q_filter_type (JS.parseInt unknown 16)]) /\
  Database.eth_getFilterLogs unknown store =
    (Throw "TypeError: Cannot destructure property 'type' of 'undefined' as it is undefined.",
     [Database.Q_filter_type (JS.parseInt unknown 16)]).
Proof.
  intros Hzero Hunknown Hrows.
  destruct (filter_id_zero zero Hzero) as (-> & -> & _).
  unfold Database.eth_getFilterChanges, Database.eth_getFilterLogs.
  rewrite Hunknown.
  unfold Database.mbind, Database._query, Database.lift. rewrite Hrows.
  repeat split.
Qed.

(** With an unreadable id, whatever the store answers, the first statement
    is sent. *)
Lemma malformed_filter_id_first_statement (filterID : string) :
  JS.parseInt filterID 16 = JS.NaN ->
  (exists rest, snd (Database.eth_getFilterChanges filterID store) =
                  Database.Q_filter_type JS.NaN :: rest) /\
  (exists rest, snd (Database.eth_getFilterLogs filterID store) =
                  Database.Q_filter_type JS.NaN :: rest) /\
  (exists rest, snd (Database.eth_uninstallFilter filterID store) =
                  Database.Q_uninstallFilter "0.0.0.0" JS.NaN :: rest).
Proof.
  intros Hnan.
  unfold Database.eth_getFilterChanges, Database.eth_getFilterLogs,
    Database.eth_uninstallFilter.
  rewrite Hnan. cbn [JS.is_zero].
  repeat split; unfold Database.mbind at 1, Database._query;
    match goal with |- context [store ?q] => destruct (store q) end;
    cbn [app snd];
    match goal with
    | |- context [let (_, _) := ?m in _] => destruct m; cbn [snd]; eauto
    | _ => eauto
    end.
Qed.

(** C7, as amended. A filter id that [parseInt] cannot read becomes NaN, which
    is not 0: each of the three calls sends its first statement to the store
    with NaN as the id, and an error that the store raises for it is the
    error of the call. *)
Theorem malformed_filter_id_reaches_store (filterID : string) :
  JS.parseInt filterID 16 = JS.NaN ->
  ((exists rest, snd (Database.eth_getFilterChanges filterID store) =
                   Database.Q_filter_type JS.NaN :: rest) /\
   (exists rest, snd (Database.eth_getFilterLogs filterID store) =
                   Database.Q_filter_type JS.NaN :: rest) /\
   (exists rest, snd (Database.eth_uninstallFilter filterID store) =
                   Database.Q_uninstallFilter "0.0.0.0" JS.NaN :: rest)) /\
  (forall e, store (Database.Q_filter_type JS.NaN) = Throw e ->
     Database.eth_getFilterChanges filterID store =
       (Throw e, [Database.Q_filter_type JS.NaN]) /\
     Database.eth_getFilterLogs filterID store =
       (Throw e, [Database.Q_filter_type JS.NaN])) /\
  (forall e, store (Database.Q_uninstallFilter "0.0.0.0" JS.NaN) = Throw e ->
     Database.eth_uninstallFilter filterID store =
       (Throw e, [Database.Q_uninstallFilter "0.0.0.0" JS.NaN])).
Proof.
  intros Hnan. split; [apply malformed_filter_id_first_statement; exact Hnan|].
  unfold Database.eth_getFilterChanges, Database.eth_getFilterLogs,
    Database.eth_uninstallFilter.
  rewrite Hnan. cbn [JS.is_zero].
  unfold Database.mbind, Database._query.
  split; intros e He; rewrite He; repeat split.
Qed.

End FilterCalls.

Lemma unknown_filter_throws_witness :
  Database.eth_getFilterChanges "0x0" (fun _ => Ok []) = (Ok (JS.VArray []), []) /\
  Database.eth_getFilterLogs "0x0" (fun _ => Ok []) = (Ok (JS.VArray []), []) /\
  Database.eth_getFilterChanges "0x5" (fun _ => Ok []) =
    (Throw "TypeError: Cannot destructure property 'type' of 'undefined' as it is undefined.",
     [Database.Q_filter_type (JS.Fin 5)]) /\
  Database.eth_getFilterLogs "0x5" (fun _ => Ok []) =
    (Throw "TypeError: Cannot destructure property 'type' of 'undefined' as it is undefined.",
     [Database.Q_filter_type (JS.Fin 5)]).
Proof.
  apply (unknown_filter_throws (fun _ => Ok []) "0x0" "0x5"); reflexivity.
Defined.

Lemma malformed_filter_id_reaches_store_witness :
  Database.eth_getFilterChanges "zz" (fun _ => Throw "invalid input syntax for type bigint") =
    (Throw "invalid input syntax for type bigint", [Database.Q_filter_type JS.NaN]) /\
  Database.eth_uninstallFilter "zz" (fun _ => Throw "invalid input syntax for type bigint") =
    (Throw "invalid input syntax for type bigint",
     [Database.Q_uninstallFilter "0.0.0.0" JS.NaN]).
Proof.
  destruct (malformed_filter_id_reaches_store
              (fun _ => Throw "invalid input syntax for type bigint") "zz" eq_refl)
    as (_ & Hfilter & Huninstall).
  split; [apply (Hfilter _ eq_refl) | apply (Huninstall _ eq_refl)].
Defined.

(** C7 as stated fails: with an unreadable id the store is accessed. *)
Lemma malformed_filter_id_counterexample :
  JS.parseInt "zz" 16 = JS.NaN /\
  snd (Database.eth_getFilterChanges "zz" (fun _ => Ok [])) <> [] /\
  snd (Database.eth_getFilterLogs "zz" (fun _ => Ok [])) <> [] /\
  snd (Database.eth_uninstallFilter "zz" (fun _ => Ok [])) <> [].
Proof. repeat split; discriminate. Qed.

(** ** Single-item lookups *)

Section Lookups.
Context {engine : Engine.Lib}.
Variable store : Database.store.

Lemma exportJSON_nil : Engine.exportJSON (JS.VArray []) = JS.VArray [].
Proof. rewrite Engine.exportJSON_array. reflexivity. Qed.

(** An error of the store is turned into [null] by all three lookups. *)
Lemma lookup_store_error (blockHash blockNumber transactionHash : string)
  (b t : list byte) (e : string) :
  JS.startsWith blockHash "0x" = true ->
  Engine.hexToBytes blockHash = Ok b ->
  Engine.hexToBytes transactionHash = Ok t ->
  (forall q, store q = Throw e) ->
  fst (Database.eth_getBlockByHash blockHash store) = Ok JS.VNull /\
  fst (Database.eth_getBlockByNumber blockNumber store) = Ok JS.VNull /\
  fst (Database.eth_getTransactionByHash transactionHash store) = Ok JS.VNull.
Proof.
  intros H0x Hb Ht Hstore.
  unfold Database.eth_getBlockByHash, Database.eth_getBlockByNumber,
    Database.eth_getTransactionByHash.
  rewrite H0x, Hb, Ht.
  unfold Database.mbind, Database.try_catch, Database._query, Database.lift.
  cbn [bind]. rewrite !Hstore. repeat split.
Qed.

(** No row for the transaction: [null]. *)
Lemma getTransactionByHash_no_rows (transactionHash : string) (t : list byte) :
  Engine.hexToBytes transactionHash = Ok t ->
  store (Database.Q_getTransactionByHash (JS.VBuffer t)) = Ok [] ->
  Database.eth_getTransactionByHash transactionHash store =
    (Ok JS.VNull, [Database.Q_getTransactionByHash (JS.VBuffer t)]).
Proof.
  intros Ht Hrows. unfold Database.eth_getTransactionByHash. rewrite Ht.
  unfold Database.mbind, Database.try_catch, Database._query, Database.lift.
  rewrite Hrows. reflexivity.
Qed.

(** C6 on the code. When the store answers a block lookup with no row, the
    two block lookups return the empty array, not [null]. *)
Theorem getBlock_no_rows_returns_array (blockHash blockNumber : string) (b : list byte) :
  JS.startsWith blockHash "0x" = true ->
  Engine.hexToBytes blockHash = Ok b ->
  JS.startsWith blockNumber "0x" = true ->
  store (Database.Q_getBlockByHash (JS.VBuffer b)) = Ok [] ->
  store (Database.Q_getBlockByNumber (JS.VNumber (JS.parseInt blockNumber 16))) = Ok [] ->
  Database.eth_getBlockByHash blockHash store =
    (Ok (JS.VArray []), [Database.Q_getBlockByHash (JS.VBuffer b)]) /\
  Database.eth_getBlockByNumber blockNumber store =
    (Ok (JS.VArray []),
     [Database.Q_getBlockByNumber (JS.VNumber (JS.parseInt blockNumber 16))]).
Proof.
  intros H0x Hb Hn0x Hhash Hnumber.
  unfold Database.eth_getBlockByHash, Database.eth_getBlockByNumber.
  rewrite H0x, Hb, Hn0x.
  unfold Database.mbind, Database.try_catch, Database._query, Database.lift,
    Database.ret.
  cbn [bind]. rewrite Hhash, Hnumber. cbn [map]. rewrite exportJSON_nil.
  split; reflexivity.
Qed.

End Lookups.

Lemma getBlock_no_rows_returns_array_witness :
  Database.eth_getBlockByHash "0xab" (fun _ => Ok []) =
    (Ok (JS.VArray []), [Database.Q_getBlockByHash (JS.VBuffer [xab]%byte)]) /\
  Database.eth_getBlockByNumber "0x7" (fun _ => Ok []) =
    (Ok (JS.VArray []), [Database.Q_getBlockByNumber (JS.VNumber (JS.Fin 7))]).
Proof.
  apply (getBlock_no_rows_returns_array (fun _ => Ok []) "0xab" "0x7" [xab]%byte);
    reflexivity.
Defined.

(** ** [eth_getLogs] *)

Lemma truthy_height (latest : JS.value) (h : Z) :
  Sql.sql_int latest = Some h -> JS.truthy latest = negb (h =? 0).
Proof.
  destruct latest as [| |b|[| |z|neg]|z|s|b|l|f]; simpl; intros H;
    try discriminate; injection H as <-; reflexivity.
Qed.

Section GetLogsRun.
Context {engine : Engine.Lib}.

(** The call reads the latest height, builds the [where] list from it, and
    sends the select. *)
Lemma getLogs_run (filter : Database.FilterOptions) (store : Database.store)
  (row : Database.record) (rows : list Database.record) (where_ : list Sql.expr) :
  store Database.Q_blockNumber = Ok (row :: rows) ->
  Database.getLogs_where (JS.get_field "id" row) filter = Ok where_ ->
  Database.eth_getLogs filter store =
    (bind (store (Database.Q_logs (Sql.And where_)))
          (fun found => Ok (Engine.exportJSON (JS.VArray (map JS.VObject found)))),
     [Database.Q_blockNumber; Database.Q_logs (Sql.And where_)]).
Proof.
  intros Hstore Hwhere.
  unfold Database.eth_getLogs, Database.mbind, Database._query, Database.lift,
    Database.ret.
  rewrite Hstore. cbn [Database.first_row_field app]. rewrite Hwhere.
  destruct (store (Database.Q_logs (Sql.And where_))); reflexivity.
Qed.

(** A select whose condition is not well formed is sent and rejected. *)
Lemma getLogs_rejected (filter : Database.FilterOptions)
  (answers : Database.query -> result (list Database.record))
  (row : Database.record) (rows : list Database.record) (where_ : list Sql.expr) :
  answers Database.Q_blockNumber = Ok (row :: rows) ->
  Database.getLogs_where (JS.get_field "id" row) filter = Ok where_ ->
  Sql.well_formed (Sql.And where_) = false ->
  Database.eth_getLogs filter (Database.postgres answers) =
    (Throw Database.syntax_error,
     [Database.Q_blockNumber; Database.Q_logs (Sql.And where_)]).
Proof.
  intros Hstore Hwhere Hbad.
  rewrite (getLogs_run filter (Database.postgres answers) row rows where_ Hstore Hwhere).
  cbn [Database.postgres]. rewrite Hbad. reflexivity.
Qed.

(** C10 on the code. The latest height is the [id] of the first row the store
    answers to [SELECT eth_blockNumber()]; absent bounds resolve to it. When
    it is not 0 the select carries [b.id >= latest] and [b.id <= latest], and
    a row passes exactly when it belongs to the latest block and passes the
    other clauses. When it is 0 the value is falsy: no block clause is
    pushed, and with no other clause the condition is empty and the store
    rejects the select. *)
Theorem getLogs_default_range
  (answers : Database.query -> result (list Database.record))
  (row : Database.record) (rows : list Database.record) (h : Z)
  (filter : Database.FilterOptions) (others : list Sql.expr) :
  answers Database.Q_blockNumber = Ok (row :: rows) ->
  Sql.sql_int (JS.get_field "id" row) = Some h ->
  Database.blockHash filter = None ->
  Database.fromBlock filter = None ->
  Database.toBlock filter = None ->
  Database.address_clauses filter = Ok others ->
  let latest := JS.get_field "id" row in
  let rest := others ++ Database.topics_clauses filter in
  let bounded := Sql.Gte Sql.col_b_id latest :: Sql.Lte Sql.col_b_id latest :: rest in
  Database.resolveBlockSpec latest (Database.fromBlock filter) = Ok latest /\
  Database.resolveBlockSpec latest (Database.toBlock filter) = Ok latest /\
  (h <> 0 ->
   Database.eth_getLogs filter (Database.postgres answers) =
     (bind (Database.postgres answers (Database.Q_logs (Sql.And bounded)))
           (fun found => Ok (Engine.exportJSON (JS.VArray (map JS.VObject found)))),
      [Database.Q_blockNumber; Database.Q_logs (Sql.And bounded)]) /\
   forall r, Sql.eval r (Sql.And bounded) =
             (Sql.block_id r =? h) && Sql.eval r (Sql.And rest)) /\
  (h = 0 ->
   snd (Database.eth_getLogs filter (Database.postgres answers)) =
     [Database.Q_blockNumber; Database.Q_logs (Sql.And rest)] /\
   (rest = [] ->
    Database.eth_getLogs filter (Database.postgres answers) =
      (Throw Database.syntax_error,
       [Database.Q_blockNumber; Database.Q_logs (Sql.And [])]))).
Proof.
  intros Hstore Hlatest Hhash Hfrom Hto Hothers latest rest bounded.
  rewrite Hfrom, Hto. split; [reflexivity|]. split; [reflexivity|].
  assert (Hwhere : Database.getLogs_where latest filter =
                   Ok ((if negb (h =? 0) then [Sql.Gte Sql.col_b_id latest] else []) ++
                       (if negb (h =? 0) then [Sql.Lte Sql.col_b_id latest] else []) ++
                       rest)).
  { unfold Database.getLogs_where, Database.block_clauses.
    rewrite Hhash, Hfrom, Hto. cbn [Database.resolveBlockSpec bind].
    rewrite (truthy_height latest h Hlatest), Hothers. cbn [bind].
    rewrite <- app_assoc. reflexivity. }
  split.
  - intros Hnz. replace (h =? 0) with false in Hwhere by lia.
    cbn [negb app] in Hwhere. fold bounded in Hwhere. split.
    + apply (getLogs_run filter _ row rows bounded); [exact Hstore | exact Hwhere].
    + intros r. unfold bounded.
      cbn [Sql.eval forallb Sql.cell_of Sql.cell_cmp]. unfold latest. rewrite Hlatest.
      rewrite andb_assoc. f_equal.
      unfold Z.geb. rewrite Z.leb_compare.
      destruct (Z.compare_spec (Sql.block_id r) h); simpl;
        try (symmetry; apply Z.eqb_neq); try (symmetry; apply Z.eqb_eq); lia.
  - intros ->. cbn [Z.eqb negb app] in Hwhere. split.
    + rewrite (getLogs_run filter (Database.postgres answers) row rows rest Hstore Hwhere). reflexivity.
    + intros Hrest. rewrite Hrest in Hwhere.
      apply (getLogs_rejected filter answers row rows []); [exact Hstore | exact Hwhere |].
      reflexivity.
Qed.

(** C3 on the code. An absent or empty topic filter compiles to [null], and
    the call is the call without topics. A position that is an empty list
    (or a list of [null] only) compiles to [sql.or()] without operands; the
    condition that holds it is not a condition of SQL, and the call fails
    with the syntax error of the store instead of finding no event. *)
Theorem getLogs_empty_candidates_rejected
  (answers : Database.query -> result (list Database.record))
  (row : Database.record) (rows : list Database.record)
  (bh fb tb : option string) (ad : option Database.address_filter)
  (pre suf : list Topics.topic) (cands : list (option string)) (i : nat)
  (blocks others : list Sql.expr) :
  let request ts :=
    {| Database.blockHash := bh; Database.fromBlock := fb; Database.toBlock := tb;
       Database.address := ad; Database.topics := ts |} in
  answers Database.Q_blockNumber = Ok (row :: rows) ->
  Database.block_clauses (JS.get_field "id" row) (request None) = Ok blocks ->
  Database.address_clauses (request None) = Ok others ->
  Forall (fun c => c = None) cands ->
  Topics.compileTopics None = None /\
  Topics.compileTopics (Some []) = None /\
  Database.eth_getLogs (request (Some [])) (Database.postgres answers) =
    Database.eth_getLogs (request None) (Database.postgres answers) /\
  snd (Database.eth_getLogs (request None) (Database.postgres answers)) =
    [Database.Q_blockNumber; Database.Q_logs (Sql.And (blocks ++ others))] /\
  Topics.compile_position (Topics.TArray cands) i = [Sql.Or []] /\
  exists e,
    Topics.compileTopics (Some (pre ++ Topics.TArray cands :: suf)) = Some e /\
    Sql.well_formed e = false /\
    Database.eth_getLogs (request (Some (pre ++ Topics.TArray cands :: suf)))
      (Database.postgres answers) =
      (Throw Database.syntax_error,
       [Database.Q_blockNumber; Database.Q_logs (Sql.And (blocks ++ others ++ [e]))]).
Proof.
  intros request Hstore Hblocks Hothers Hcands.
  split; [reflexivity|]. split; [reflexivity|]. split; [reflexivity|].
  assert (Hwhere : forall ts,
            Database.getLogs_where (JS.get_field "id" row) (request ts) =
            Ok (blocks ++ others ++ Database.topics_clauses (request ts))).
  { intros ts. unfold Database.getLogs_where.
    change (Database.block_clauses (JS.get_field "id" row) (request ts))
      with (Database.block_clauses (JS.get_field "id" row) (request None)).
    change (Database.address_clauses (request ts))
      with (Database.address_clauses (request None)).
    rewrite Hblocks, Hothers. reflexivity. }
  split.
  { rewrite (getLogs_run (request None) (Database.postgres answers) row rows _ Hstore (Hwhere None)).
    cbn [snd Database.topics_clauses Database.topics request]. rewrite app_nil_r.
    reflexivity. }
  split; [apply compile_no_candidates; exact Hcands|].
  destruct (compileTopics_no_candidates pre suf cands Hcands) as (l & He & Hin).
  exists (Sql.And l). split; [exact He|].
  assert (Hbad : Sql.well_formed (Sql.And l) = false)
    by (apply (and_with_malformed (Sql.Or []) l Hin); reflexivity).
  split; [exact Hbad|].
  apply (getLogs_rejected _ answers row rows).
  - exact Hstore.
  - rewrite Hwhere. unfold Database.topics_clauses. cbn [Database.topics request].
    rewrite He. reflexivity.
  - apply (and_with_malformed (Sql.And l)); [|exact Hbad].
    apply in_or_app. right. apply in_or_app. right. left. reflexivity.
Qed.

End GetLogsRun.

Lemma getLogs_default_range_witness :
  (Database.eth_getLogs
     {| Database.blockHash := None; Database.fromBlock := None;
        Database.toBlock := None; Database.address := None; Database.topics := None |}
     (Database.postgres (fun q => match q with
                                  | Database.Q_blockNumber => Ok [[("id", JS.VBigInt 9)]]
                                  | _ => Ok []
                                  end)) =
   (Ok (JS.VArray []),
    [Database.Q_blockNumber;
     Database.Q_logs (Sql.And [Sql.Gte Sql.col_b_id (JS.VBigInt 9);
                               Sql.Lte Sql.col_b_id (JS.VBigInt 9)])])) /\
  Database.eth_getLogs
    {| Database.blockHash := None; Database.fromBlock := None;
       Database.toBlock := None; Database.address := None; Database.topics := None |}
    (Database.postgres (fun q => match q with
                                 | Database.Q_blockNumber => Ok [[("id", JS.VBigInt 0)]]
                                 | _ => Ok []
                                 end)) =
  (Throw Database.syntax_error,
   [Database.Q_blockNumber; Database.Q_logs (Sql.And [])]).
Proof.
  split.
  - refine (proj1 (proj1 (proj2 (proj2
      (getLogs_default_range
         (fun q => match q with
                   | Database.Q_blockNumber => Ok [[("id", JS.VBigInt 9)]]
                   | _ => Ok []
                   end)
         [("id", JS.VBigInt 9)] [] 9
         {| Database.blockHash := None; Database.fromBlock := None;
            Database.toBlock := None; Database.address := None;
            Database.topics := None |} []
         eq_refl eq_refl eq_refl eq_refl eq_refl eq_refl))) _)).
    discriminate.
  - refine (proj2 (proj2 (proj2 (proj2
      (getLogs_default_range
         (fun q => match q with
                   | Database.Q_blockNumber => Ok [[("id", JS.VBigInt 0)]]
                   | _ => Ok []
                   end)
         [("id", JS.VBigInt 0)] [] 0
         {| Database.blockHash := None; Database.fromBlock := None;
            Database.toBlock := None; Database.address := None;
            Database.topics := None |} []
         eq_refl eq_refl eq_refl eq_refl eq_refl eq_refl))) eq_refl) eq_refl).
Defined.

Lemma getLogs_empty_candidates_rejected_witness :
  Database.eth_getLogs
    {| Database.blockHash := None; Database.fromBlock := None;
       Database.toBlock := None; Database.address := None;
       Database.topics := Some [Topics.TString "0x0a"; Topics.TArray []] |}
    (Database.postgres (fun q => match q with
                                 | Database.Q_blockNumber => Ok [[("id", JS.VBigInt 9)]]
                                 | _ => Ok []
                                 end)) =
  (Throw Database.syntax_error,
   [Database.Q_blockNumber;
    Database.Q_logs
      (Sql.And [Sql.Gte Sql.col_b_id (JS.VBigInt 9);
                Sql.Lte Sql.col_b_id (JS.VBigInt 9);
                Sql.And [Sql.Eq (Sql.col_e_topics 1) (JS.VBuffer [x0a]%byte);
                         Sql.Or []]])]).
Proof.
  destruct (getLogs_empty_candidates_rejected
              (fun q => match q with
                        | Database.Q_blockNumber => Ok [[("id", JS.VBigInt 9)]]
                        | _ => Ok []
                        end)
              [("id", JS.VBigInt 9)] [] None None None None
              [Topics.TString "0x0a"] [] [] 1%nat
              [Sql.Gte Sql.col_b_id (JS.VBigInt 9); Sql.Lte Sql.col_b_id (JS.VBigInt 9)] []
              eq_refl eq_refl eq_refl (Forall_nil _))
    as (_ & _ & _ & _ & _ & e & He & _ & Hrun).
  injection He as <-. exact Hrun.
Defined.

(** ** The indexer *)

Lemma upto_S n : Spec.upto (S n) = Spec.upto n ++ [Z.of_nat n].
Proof. unfold Spec.upto. rewrite seq_S, map_app. reflexivity. Qed.

Lemma length_upto n : List.length (Spec.upto n) = n.
Proof. unfold Spec.upto. rewrite length_map, length_seq. reflexivity. Qed.

Lemma NoDup_upto n : NoDup (Spec.upto n).
Proof.
  unfold Spec.upto. apply Injective_map_NoDup; [|apply seq_NoDup].
  intros a b H. lia.
Qed.

Lemma upto_increasing n : forall i j a b,
  (i < j)%nat -> nth_error (Spec.upto n) i = Some a ->
  nth_error (Spec.upto n) j = Some b -> a < b.
Proof.
  intros i j a b Hij Ha Hb. unfold Spec.upto in *.
  rewrite nth_error_map in Ha, Hb.
  destruct (nth_error (seq 0 n) i) as [x|] eqn:Ex; [|discriminate].
  destruct (nth_error (seq 0 n) j) as [y|] eqn:Ey; [|discriminate].
  pose proof (nth_error_Some (seq 0 n) i) as Hi. rewrite Ex, length_seq in Hi.
  pose proof (nth_error_Some (seq 0 n) j) as Hj. rewrite Ey, length_seq in Hj.
  assert (Hin : (i < n)%nat) by (apply Hi; discriminate).
  assert (Hjn : (j < n)%nat) by (apply Hj; discriminate).
  rewrite (nth_error_nth' _ O) in Ex by (rewrite length_seq; exact Hin).
  rewrite (nth_error_nth' _ O) in Ey by (rewrite length_seq; exact Hjn).
  rewrite seq_nth in Ex, Ey by assumption.
  simpl in Ha, Hb. injection Ex as <-. injection Ey as <-.
  injection Ha as <-. injection Hb as <-. lia.
Qed.

Section IndexerFacts.
Import Indexer.
Context {engine : Engine.Lib}.
Variable chainID : Z.

Lemma block_query_row (block : BlockMetadata) (row : BlockRow) :
  block_query chainID block = Ok row ->
  chain row = chainID /\ id row = number block /\ block_source row = block.
Proof.
  unfold block_query.
  destruct (hexToBytes_asserted (hash block)); [|discriminate].
  destruct (toISOString (timestamp block * 1000)); [|discriminate].
  destruct (Engine.hexToBytes (parentHash block)); [|discriminate].
  cbn [bind]. intros H. injection H as <-. repeat split.
Qed.

Lemma transaction_query_row (blockID k : Z) (t : Transaction) (row : TransactionRow) :
  transaction_query blockID k t = Ok row ->
  block row = blockID /\ index row = k /\ transaction_source row = t.
Proof.
  unfold transaction_query.
  destruct (hexToBytes_asserted (tx_hash t)); [|discriminate].
  destruct (tx_from t); [|discriminate].
  cbn [bind]. intros H. injection H as <-. repeat split.
Qed.

(** The transaction loop only appends to the transaction table, rows of the
    requested height; it returns when every transaction has its row. *)
Lemma indexTransactions_appends (txs : list Transaction) : forall blockID k fault w,
  exists ts,
    Forall (fun r => block r = blockID) ts /\
    match indexTransactions blockID k txs fault w with
    | Done w' =>
        block_table (db w') = block_table (db w) /\
        transaction_table (db w') = transaction_table (db w) ++ ts /\
        map transaction_source ts = txs
    | Failed w' _ =>
        block_table (db w') = block_table (db w) /\
        transaction_table (db w') = transaction_table (db w) ++ ts /\
        (List.length ts < List.length txs)%nat
    end.
Proof.
  induction txs as [|t txs IH]; intros blockID k fault w; cbn [indexTransactions].
  - exists []. rewrite app_nil_r. repeat split. constructor.
  - unfold indexTransaction.
    destruct (transaction_query blockID k t) as [row|e] eqn:Hrow.
    + apply transaction_query_row in Hrow as (Hb & _ & Hs).
      destruct fault as [[|j]|].
      * exists []. rewrite app_nil_r. split; [constructor|].
        cbn [did db List.length]. repeat split. lia.
      * destruct (IH blockID (JS.add_one k) (option_map Nat.pred (Some (S j)))
                    (insert_transaction row w)) as (ts & Hall & H).
        exists (row :: ts). split; [constructor; assumption|].
        destruct (indexTransactions blockID (JS.add_one k) txs _ _) as [w'|w' e];
          cbn [insert_transaction db block_table transaction_table] in H;
          destruct H as (H1 & H2 & H3); rewrite H1, H2, <- app_assoc;
          repeat split; cbn [map List.length]; [congruence | lia].
      * destruct (IH blockID (JS.add_one k) (option_map Nat.pred None)
                    (insert_transaction row w)) as (ts & Hall & H).
        exists (row :: ts). split; [constructor; assumption|].
        destruct (indexTransactions blockID (JS.add_one k) txs _ _) as [w'|w' e];
          cbn [insert_transaction db block_table transaction_table] in H;
          destruct H as (H1 & H2 & H3); rewrite H1, H2, <- app_assoc;
          repeat split; cbn [map List.length]; [congruence | lia].
    + exists []. rewrite app_nil_r. split; [constructor|].
      repeat split. cbn [List.length]. lia.
Qed.

(** What one call of [indexBlock] leaves behind. It returns only when the
    answers begin with refusals followed by a block for the requested height,
    that block has its row and every one of its transactions has one;
    otherwise it is still polling with the store untouched, or it threw. *)
Lemma indexBlock_result (contractID : result string) (answers : list answer) :
  forall blockID w,
  match indexBlock chainID contractID blockID w answers with
  | Waiting w' => db w' = db w
  | Indexed w' rest =>
      exists waits a b fault row ts,
        answers = waits ++ a :: rest /\
        Forall (fun a' => a' blockID = NotProduced) waits /\
        a blockID = Produced b fault /\
        block_query chainID b = Ok row /\
        block_table (db w') = block_table (db w) ++ [row] /\
        transaction_table (db w') = transaction_table (db w) ++ ts /\
        Forall (fun r => block r = blockID) ts /\
        map transaction_source ts = transactions b
  | Crashed w' _ =>
      db w' = db w \/
      exists a b fault row ts,
        In a answers /\ a blockID = Produced b fault /\
        block_query chainID b = Ok row /\
        block_table (db w') = block_table (db w) ++ [row] /\
        transaction_table (db w') = transaction_table (db w) ++ ts /\
        Forall (fun r => block r = blockID) ts
  end.
Proof.
  destruct contractID as [account|e0].
  2:{ intros blockID w. destruct answers; left; reflexivity. }
  induction answers as [|a answers IH]; intros blockID w; cbn [indexBlock].
  - reflexivity.
  - destruct (a blockID) as [|b fault] eqn:Ha.
    + specialize (IH blockID (did [GetBlock blockID; SetTimeout 100] w)).
      destruct (indexBlock chainID (Ok account) blockID _ answers) as [w'|w' rest|w' e].
      * exact IH.
      * destruct IH as (waits & a' & b & fault & row & ts & Heq & Hwaits & IH).
        exists (a :: waits), a', b, fault, row, ts.
        split; [rewrite Heq; reflexivity|].
        split; [constructor; assumption|]. exact IH.
      * destruct IH as [IH | (a' & b & fault & row & ts & Hin & IH)]; [left; exact IH|].
        right. exists a', b, fault, row, ts. split; [right; exact Hin | exact IH].
    + destruct (block_query chainID b) as [row|e] eqn:Hrow; [|left; reflexivity].
      destruct fault as [[|j]|]; [left; reflexivity | |].
      * destruct (indexTransactions_appends (transactions b) blockID 0
                    (option_map Nat.pred (Some (S j)))
                    (insert_block row (did [GetBlock blockID] w))) as (ts & Hall & H).
        destruct (indexTransactions blockID 0 (transactions b) _ _) as [w2|w2 e];
          cbn [insert_block did db block_table transaction_table] in H;
          destruct H as (H1 & H2 & H3).
        -- exists [], a, b, (Some (S j)), row, ts.
           repeat split; try assumption. constructor.
        -- right. exists a, b, (Some (S j)), row, ts.
           repeat split; try assumption. left; reflexivity.
      * destruct (indexTransactions_appends (transactions b) blockID 0
                    (option_map Nat.pred None)
                    (insert_block row (did [GetBlock blockID] w))) as (ts & Hall & H).
        destruct (indexTransactions blockID 0 (transactions b) _ _) as [w2|w2 e];
          cbn [insert_block did db block_table transaction_table] in H;
          destruct H as (H1 & H2 & H3).
        -- exists [], a, b, None, row, ts.
           repeat split; try assumption. constructor.
        -- right. exists a, b, None, row, ts.
           repeat split; try assumption. left; reflexivity.
Qed.

(** The heights stay an initial segment of the naturals along the loop, as
    long as the source is faithful and the heights are exact as doubles. *)
Lemma loop_heights (contractID : result string) (fuel : nat) :
  forall blockID w answers n,
  heights (db w) = Spec.upto n ->
  blockID = Z.of_nat n ->
  Forall Spec.faithful answers ->
  Z.of_nat n + Z.of_nat (List.length answers) <= 2 ^ 53 ->
  exists n',
    heights (store_of (loop chainID contractID fuel blockID w answers)) = Spec.upto n' /\
    (n <= n' <= n + List.length answers)%nat.
Proof.
  induction fuel as [|fuel IH]; intros blockID w answers n Hh Hid Hf Hbound;
    cbn [loop store_of].
  - exists n. split; [assumption | lia].
  - pose proof (indexBlock_result contractID answers blockID w) as Hres.
    destruct (indexBlock chainID contractID blockID w answers) as [w'|w' rest|w' e].
    + exists n. cbn [store_of]. rewrite Hres. split; [assumption | lia].
    + destruct Hres as (waits & a & b & fault & row & ts & Heq & _ & Ha & Hrow &
                        Htable & _).
      subst answers. apply Forall_app in Hf as [_ Hf].
      apply Forall_cons_iff in Hf as [Hfa Hf].
      apply block_query_row in Hrow as (_ & Hid' & _).
      rewrite length_app in Hbound. cbn [List.length] in Hbound.
      destruct (IH (JS.add_one blockID) w' rest (S n)) as (n' & Hn' & Hrange).
      * unfold heights. rewrite Htable, map_app. cbn [map].
        fold (heights (db w)). rewrite Hh, upto_S, Hid', (Hfa _ _ _ Ha). congruence.
      * rewrite add_one_exact by lia. lia.
      * exact Hf.
      * lia.
      * exists n'. split; [exact Hn'|]. rewrite length_app. cbn [List.length]. lia.
    + cbn [store_of].
      destruct Hres as [Hsame | (a & b & fault & row & ts & Hin & Ha & Hrow & Htable & _)].
      * exists n. rewrite Hsame. split; [assumption | lia].
      * exists (S n). rewrite Forall_forall in Hf.
        apply block_query_row in Hrow as (_ & Hid' & _). split.
        -- unfold heights. rewrite Htable, map_app. cbn [map].
           fold (heights (db w)). rewrite Hh, upto_S, Hid', (Hf a Hin _ _ _ Ha).
           congruence.
        -- destruct answers; [contradiction | cbn [List.length]; lia].
Qed.

Lemma max_id_map (rows : list BlockRow) : forall acc,
  fold_left (fun acc row => match acc with
                            | None => Some (id row)
                            | Some m => Some (Z.max m (id row))
                            end) rows acc =
  fold_left (fun acc z => match acc with
                          | None => Some z
                          | Some m => Some (Z.max m z)
                          end) (map id rows) acc.
Proof. induction rows as [|row rows IH]; intros acc; simpl; [reflexivity | apply IH]. Qed.

Lemma max_id_upto (database : Store) (n : nat) :
  heights database = Spec.upto n ->
  max_id (block_table database) =
  match n with
  | O => None
  | S m => Some (Z.of_nat m)
  end.
Proof.
  unfold max_id, heights. rewrite max_id_map. intros ->. clear database.
  induction n as [|n IH]; [reflexivity|].
  rewrite upto_S, fold_left_app, IH. cbn [fold_left].
  destruct n; [reflexivity|]. f_equal. lia.
Qed.

(** Start-up resumes after the greatest height, while it fits 32 bits. *)
Lemma resume_at_upto (database : Store) (n : nat) :
  heights database = Spec.upto n ->
  Z.of_nat n <= 2 ^ 31 ->
  resume_at database = Ok (Z.of_nat n).
Proof.
  intros Hh Hn. unfold resume_at. rewrite (max_id_upto database n Hh).
  destruct n as [|m]; [reflexivity|]. unfold cast_int.
  destruct (Z.leb_spec (- 2 ^ 31) (Z.of_nat m)); [|lia].
  destruct (Z.ltb_spec (Z.of_nat m) (2 ^ 31)); [|lia].
  cbn [andb bind]. rewrite add_one_exact by lia. f_equal. lia.
Qed.

(** ... and fails beyond. *)
Lemma resume_at_overflow (database : Store) (n : nat) :
  heights database = Spec.upto n ->
  2 ^ 31 < Z.of_nat n ->
  resume_at database = Throw "integer out of range".
Proof.
  intros Hh Hn. unfold resume_at. rewrite (max_id_upto database n Hh).
  destruct n as [|m]; [simpl in Hn; lia|]. unfold cast_int.
  destruct (Z.ltb_spec (Z.of_nat m) (2 ^ 31)); [lia|].
  rewrite andb_false_r. reflexivity.
Qed.

(** A start that fails leaves the store as it found it. *)
Lemma start_heights (contractID : result string) (database : Store)
  (answers : list answer) (n : nat) :
  heights database = Spec.upto n ->
  Z.of_nat n + Z.of_nat (List.length answers) <= 2 ^ 53 ->
  Forall Spec.faithful answers ->
  exists n',
    heights (store_of (start chainID contractID database answers)) = Spec.upto n' /\
    (n <= n' <= n + List.length answers)%nat.
Proof.
  intros Hh Hbound Hf. unfold start.
  destruct (Z.le_gt_cases (Z.of_nat n) (2 ^ 31)) as [Hfit|Hbig].
  - rewrite (resume_at_upto database n Hh Hfit).
    apply loop_heights; [exact Hh | reflexivity | exact Hf | lia].
  - rewrite (resume_at_overflow database n Hh) by lia.
    exists n. split; [exact Hh | lia].
Qed.

Lemma sessions_heights (contractID : result string) (runs : list (list answer)) :
  forall database n,
  heights database = Spec.upto n ->
  Forall (Forall Spec.faithful) runs ->
  Z.of_nat n + Z.of_nat (List.length (List.concat runs)) <= 2 ^ 53 ->
  exists n', heights (sessions chainID contractID database runs) = Spec.upto n'.
Proof.
  induction runs as [|answers runs IH]; intros database n Hh Hf Hbound;
    cbn [sessions List.concat] in *.
  - exists n. assumption.
  - rewrite length_app in Hbound. apply Forall_cons_iff in Hf as [Hrun Hrest].
    destruct (start_heights contractID database answers n Hh) as (n1 & Hn1 & Hrange);
      [lia | exact Hrun |].
    apply (IH _ n1 Hn1 Hrest). lia.
Qed.

End IndexerFacts.

(** C1, as amended. Over any sequence of runs and restarts that begins with
    the empty store, in which the source answers a request for height [h]
    only with a block numbered [h] and gives at most 2^53 answers, the
    recorded heights are exactly [0 .. N-1] (hence without duplicates and
    increasing), however many refusals the answers contain and whichever
    statements the store rejects. The next start resumes at [N], which is 0
    for the empty store and the greatest height plus one otherwise, as long
    as [N] is at most 2^31; beyond, the cast of the start-up query fails. *)
Theorem indexer_heights_gap_free {engine : Engine.Lib} (chainID : Z)
  (contractID : result string) (runs : list (list Indexer.answer)) :
  Forall (Forall Spec.faithful) runs ->
  Z.of_nat (List.length (List.concat runs)) <= 2 ^ 53 ->
  let final := Indexer.sessions chainID contractID Indexer.empty_store runs in
  let N := List.length (Indexer.block_table final) in
  Indexer.heights final = Spec.upto N /\
  NoDup (Indexer.heights final) /\
  (forall i j a b, (i < j)%nat ->
     nth_error (Indexer.heights final) i = Some a ->
     nth_error (Indexer.heights final) j = Some b -> a < b) /\
  (Z.of_nat N <= 2 ^ 31 -> Indexer.resume_at final = Ok (Z.of_nat N)) /\
  (2 ^ 31 < Z.of_nat N -> Indexer.resume_at final = Throw "integer out of range") /\
  Indexer.resume_at Indexer.empty_store = Ok 0.
Proof.
  intros Hf Hbound final N.
  destruct (sessions_heights chainID contractID runs Indexer.empty_store 0)
    as (n' & Hn'); [reflexivity | exact Hf | simpl; lia |].
  fold final in Hn'.
  assert (HN : N = n').
  { unfold N. rewrite <- (length_map Indexer.id). fold (Indexer.heights final).
    rewrite Hn'. apply length_upto. }
  rewrite HN, Hn'. split; [reflexivity|]. split; [apply NoDup_upto|].
  split; [apply upto_increasing|].
  split; [apply resume_at_upto; exact Hn'|].
  split; [apply resume_at_overflow; exact Hn' | reflexivity].
Qed.

Lemma faithful_not_produced : Spec.faithful Spec.not_produced.
Proof. intros h b f H. discriminate H. Qed.

Lemma faithful_plain_answer : Spec.faithful Spec.plain_answer.
Proof. intros h b f H. injection H as <- _. reflexivity. Qed.

Lemma indexer_heights_gap_free_witness :
  Indexer.heights
    (Indexer.sessions 1313161554 (Ok "aurora") Indexer.empty_store
       [[Spec.not_produced; Spec.not_produced; Spec.plain_answer;
         Spec.not_produced; Spec.plain_answer];
        [fun h => Indexer.Produced (Spec.plain_block h) (Some 0%nat)];
        [Spec.not_produced; Spec.plain_answer]]) = Spec.upto 3 /\
  Indexer.resume_at
    (Indexer.sessions 1313161554 (Ok "aurora") Indexer.empty_store
       [[Spec.not_produced; Spec.not_produced; Spec.plain_answer;
         Spec.not_produced; Spec.plain_answer];
        [fun h => Indexer.Produced (Spec.plain_block h) (Some 0%nat)];
        [Spec.not_produced; Spec.plain_answer]]) = Ok 3.
Proof.
  assert (Hrejected : Spec.faithful
            (fun h => Indexer.Produced (Spec.plain_block h) (Some 0%nat))).
  { intros h b f H. injection H as <- _. reflexivity. }
  pose proof (indexer_heights_gap_free 1313161554 (Ok "aurora")
    [[Spec.not_produced; Spec.not_produced; Spec.plain_answer;
      Spec.not_produced; Spec.plain_answer];
     [fun h => Indexer.Produced (Spec.plain_block h) (Some 0%nat)];
     [Spec.not_produced; Spec.plain_answer]]) as H.
  destruct H as (Hheights & _ & _ & Hresume & _).
  - repeat constructor;
      first [ exact faithful_not_produced | exact faithful_plain_answer
            | exact Hrejected ].
  - simpl. lia.
  - split; [exact Hheights|]. apply Hresume. simpl. lia.
Defined.

Lemma block_query_plain (chainID h : Z) :
  Indexer.block_query chainID (Spec.plain_block h) = Ok (Spec.plain_row chainID h).
Proof. reflexivity. Qed.

(** A source that has every block and a store that accepts every row: the
    run records one block per answer and goes on with what follows. *)
Lemma loop_plain_prefix (chainID : Z) (account : string) (n : nat) :
  forall fuel h w rest,
  (n <= fuel)%nat -> h + Z.of_nat n <= 2 ^ 53 ->
  exists w',
    Indexer.db w' =
      {| Indexer.block_table :=
           Indexer.block_table (Indexer.db w) ++
           map (fun i => Spec.plain_row chainID (h + Z.of_nat i)) (seq 0 n);
         Indexer.transaction_table := Indexer.transaction_table (Indexer.db w) |} /\
    Indexer.loop chainID (Ok account) fuel h w (repeat Spec.plain_answer n ++ rest) =
    Indexer.loop chainID (Ok account) (fuel - n) (h + Z.of_nat n) w' rest.
Proof.
  induction n as [|n IH]; intros fuel h w rest Hfuel Hh.
  - exists w. cbn [repeat seq map app]. rewrite app_nil_r, Z.add_0_r, Nat.sub_0_r.
    destruct w as [[bt tt] tr]. split; reflexivity.
  - destruct fuel as [|fuel]; [lia|].
    cbn [repeat app Indexer.loop Indexer.indexBlock].
    change (Spec.plain_answer h) with (Indexer.Produced (Spec.plain_block h) None).
    cbn [Indexer.transactions Spec.plain_block Indexer.indexTransactions option_map].
    rewrite block_query_plain, add_one_exact by lia.
    destruct (IH fuel (h + 1)
                (Indexer.insert_block (Spec.plain_row chainID h)
                   (Indexer.did [Indexer.GetBlock h] w)) rest) as (w' & Hdb & Hrun);
      [lia | lia |].
    exists w'. split.
    + rewrite Hdb.
      cbn [Indexer.insert_block Indexer.did Indexer.db Indexer.block_table
           Indexer.transaction_table].
      rewrite <- app_assoc. cbn [app seq map]. rewrite Z.add_0_r.
      rewrite <- seq_shift, map_map. do 3 f_equal.
      apply map_ext. intros i. f_equal. lia.
    + rewrite Hrun. cbn [Nat.sub]. f_equal. lia.
Qed.

Lemma loop_plain_answers (chainID : Z) (account : string) (n : nat) (fuel : nat)
  (h : Z) (w : Indexer.world) :
  (n <= fuel)%nat -> h + Z.of_nat n <= 2 ^ 53 ->
  Indexer.store_of (Indexer.loop chainID (Ok account) fuel h w
                      (repeat Spec.plain_answer n)) =
  {| Indexer.block_table :=
       Indexer.block_table (Indexer.db w) ++
       map (fun i => Spec.plain_row chainID (h + Z.of_nat i)) (seq 0 n);
     Indexer.transaction_table := Indexer.transaction_table (Indexer.db w) |}.
Proof.
  intros Hfuel Hh.
  destruct (loop_plain_prefix chainID account n fuel h w [] Hfuel Hh) as (w' & Hdb & Hrun).
  rewrite app_nil_r in Hrun. rewrite Hrun, <- Hdb.
  destruct (fuel - n)%nat; reflexivity.
Qed.

Lemma heights_plain_store chainID n :
  Indexer.heights (Spec.plain_store chainID n) = Spec.upto n.
Proof.
  unfold Indexer.heights, Spec.plain_store. cbn [Indexer.block_table].
  rewrite map_map. cbn [Spec.plain_row Indexer.id]. apply map_id.
Qed.

Lemma add_one_stuck : JS.add_one (2 ^ 53) = 2 ^ 53.
Proof. vm_compute. reflexivity. Qed.

(** C1 as stated fails. A run of 2^31 + 1 blocks from the empty store leaves
    the heights [0 .. 2^31], and the restart on that store does not resume at
    2^31 + 1: the cast of the start-up query fails. *)
Lemma indexer_counterexample :
  Indexer.sessions 1313161554 (Ok "aurora") Indexer.empty_store
    [repeat Spec.plain_answer (Z.to_nat (2 ^ 31 + 1))] =
    Spec.plain_store 1313161554 (Z.to_nat (2 ^ 31 + 1)) /\
  Indexer.heights (Spec.plain_store 1313161554 (Z.to_nat (2 ^ 31 + 1))) =
    Spec.upto (Z.to_nat (2 ^ 31 + 1)) /\
  Indexer.resume_at (Spec.plain_store 1313161554 (Z.to_nat (2 ^ 31 + 1))) =
    Throw "integer out of range".
Proof.
  split; [|split].
  - cbn [Indexer.sessions]. unfold Indexer.start.
    change (Indexer.resume_at Indexer.empty_store) with (@Ok Z 0).
    rewrite repeat_length, loop_plain_answers by lia.
    unfold Spec.plain_store, Spec.upto. cbn [Indexer.db Indexer.block_table
      Indexer.transaction_table Indexer.empty_store app].
    rewrite map_map. reflexivity.
  - apply heights_plain_store.
  - apply (resume_at_overflow _ (Z.to_nat (2 ^ 31 + 1))); [apply heights_plain_store | lia].
Qed.

(** Why the runs above are bounded. At 2^53 the increment [blockID += 1] no
    longer advances, so a run of more than 2^53 answers asks for height 2^53
    a second time; a store that accepts the second row then holds that
    height twice. *)
Lemma loop_repeats_height :
  Forall (Forall Spec.faithful)
    [repeat Spec.plain_answer (Z.to_nat (2 ^ 53)) ++
     [Spec.plain_answer; Spec.plain_answer]] /\
  ~ NoDup (Indexer.heights
             (Indexer.sessions 1313161554 (Ok "aurora") Indexer.empty_store
                [repeat Spec.plain_answer (Z.to_nat (2 ^ 53)) ++
                 [Spec.plain_answer; Spec.plain_answer]])).
Proof.
  split.
  - constructor; [|constructor]. apply Forall_app. split.
    + apply Forall_forall. intros a Ha. apply repeat_spec in Ha. subst a.
      exact faithful_plain_answer.
    + repeat constructor; exact faithful_plain_answer.
  - cbn [Indexer.sessions]. unfold Indexer.start.
    change (Indexer.resume_at Indexer.empty_store) with (@Ok Z 0).
    rewrite length_app, repeat_length. cbn [List.length].
    destruct (loop_plain_prefix 1313161554 "aurora" (Z.to_nat (2 ^ 53))
                (S (Z.to_nat (2 ^ 53) + 2)) 0
                {| Indexer.db := Indexer.empty_store;
                   Indexer.trace := [Indexer.Select_max_id] |}
                [Spec.plain_answer; Spec.plain_answer]) as (w' & Hdb & Hrun);
      [lia | lia |].
    rewrite Hrun.
    replace (S (Z.to_nat (2 ^ 53) + 2) - Z.to_nat (2 ^ 53))%nat with 3%nat by lia.
    replace (0 + Z.of_nat (Z.to_nat (2 ^ 53))) with (2 ^ 53) by lia.
    cbn [Indexer.loop Indexer.indexBlock].
    change (Spec.plain_answer (2 ^ 53))
      with (Indexer.Produced (Spec.plain_block (2 ^ 53)) None).
    cbn [Indexer.transactions Spec.plain_block Indexer.indexTransactions option_map].
    rewrite block_query_plain, add_one_stuck.
    cbn [Indexer.indexBlock].
    change (Spec.plain_answer (2 ^ 53))
      with (Indexer.Produced (Spec.plain_block (2 ^ 53)) None).
    cbn [Indexer.transactions Spec.plain_block Indexer.indexTransactions option_map].
    rewrite block_query_plain, add_one_stuck.
    cbn [Indexer.indexBlock Indexer.store_of Indexer.insert_block Indexer.did Indexer.db
         Indexer.block_table].
    unfold Indexer.heights. cbn [Indexer.block_table].
    rewrite !map_app. cbn [map Spec.plain_row Indexer.id].
    rewrite <- app_assoc. cbn [app].
    intros Hnodup. apply NoDup_remove_2 in Hnodup.
    apply Hnodup. apply in_or_app. right. left. reflexivity.
Qed.

(** ** Polling for a block that is not produced yet *)

Section Polling.
Import Indexer.
Context {engine : Engine.Lib}.
Variable chainID : Z.
Variable account : string.

Lemma did_did a b w : did b (did a w) = did (a ++ b) w.
Proof. unfold did. cbn [db trace]. rewrite app_assoc. reflexivity. Qed.

Lemma did_nil w : did [] w = w.
Proof. unfold did. rewrite app_nil_r. destruct w; reflexivity. Qed.

(** Refusals followed by further answers: the same height is requested once
    per refusal, each time followed by a wait of 100 ms. *)
Lemma indexBlock_waits (waits : list answer) : forall blockID w rest,
  Forall (fun a => a blockID = NotProduced) waits ->
  indexBlock chainID (Ok account) blockID w (waits ++ rest) =
  indexBlock chainID (Ok account) blockID
    (did (List.concat (repeat [GetBlock blockID; SetTimeout 100] (List.length waits))) w)
    rest.
Proof.
  induction waits as [|a waits IH]; intros blockID w rest Hwaits;
    cbn [List.length repeat app List.concat].
  - rewrite did_nil. reflexivity.
  - apply Forall_cons_iff in Hwaits as [Ha Hwaits].
    cbn [indexBlock]. rewrite Ha, IH, did_did by assumption. reflexivity.
Qed.

(** The transactions whose rows can be built and whose inserts the store
    accepts are written in order, with consecutive indices. *)
Lemma indexTransactions_app (pre : list Transaction) :
  forall blockID k rows rest fault w,
  Expect.transaction_rows blockID k pre = Ok rows ->
  k + Z.of_nat (List.length pre) <= 2 ^ 53 ->
  match fault with
  | None => True
  | Some j => (List.length pre <= j)%nat
  end ->
  indexTransactions blockID k (pre ++ rest) fault w =
  indexTransactions blockID (k + Z.of_nat (List.length pre)) rest
    (option_map (fun j => (j - List.length pre)%nat) fault)
    {| db := {| block_table := block_table (db w);
                transaction_table := transaction_table (db w) ++ rows |};
       trace := trace w ++ map Insert_transaction rows |}.
Proof.
  induction pre as [|t pre IH]; intros blockID k rows rest fault w Hrows Hk Hfault.
  - cbn [Expect.transaction_rows] in Hrows. injection Hrows as <-.
    cbn [app List.length map]. rewrite Z.add_0_r, !app_nil_r.
    destruct w as [[bt tt] tr]. cbn [db trace block_table transaction_table].
    f_equal. destruct fault as [j|]; [|reflexivity].
    cbn [option_map]. f_equal. lia.
  - cbn [Expect.transaction_rows] in Hrows.
    destruct (transaction_query blockID k t) as [row|e] eqn:Hrow; [|discriminate].
    cbn [bind] in Hrows.
    destruct (Expect.transaction_rows blockID (k + 1) pre) as [rows'|e] eqn:Hrows';
      [|discriminate].
    injection Hrows as <-. cbn [List.length] in Hk, Hfault.
    cbn [app indexTransactions]. unfold indexTransaction. rewrite Hrow.
    assert (Hrejected : match fault with Some O => true | _ => false end = false)
      by (destruct fault as [[|j]|]; [lia | reflexivity | reflexivity]).
    rewrite Hrejected, add_one_exact by lia.
    rewrite (IH blockID (k + 1) rows' rest (option_map Nat.pred fault)
               (insert_transaction row w) Hrows').
    + cbn [insert_transaction db trace block_table transaction_table map List.length].
      rewrite <- !app_assoc. cbn [app]. f_equal; [lia|].
      destruct fault as [j|]; [|reflexivity]. cbn [option_map]. f_equal. lia.
    + lia.
    + destruct fault as [j|]; [cbn [option_map]; lia | exact I].
Qed.

Lemma indexTransactions_rows (txs : list Transaction) (blockID k : Z)
  (rows : list TransactionRow) (fault : option nat) (w : world) :
  Expect.transaction_rows blockID k txs = Ok rows ->
  k + Z.of_nat (List.length txs) <= 2 ^ 53 ->
  match fault with
  | None => True
  | Some j => (List.length txs <= j)%nat
  end ->
  indexTransactions blockID k txs fault w =
  Done {| db := {| block_table := block_table (db w);
                   transaction_table := transaction_table (db w) ++ rows |};
          trace := trace w ++ map Insert_transaction rows |}.
Proof.
  intros Hrows Hk Hfault.
  rewrite <- (app_nil_r txs) at 1.
  rewrite (indexTransactions_app txs blockID k rows [] fault w Hrows Hk Hfault).
  reflexivity.
Qed.

(** A block that is fetched, whose row and transaction rows can be built
    and none of whose inserts is rejected, is written completely; only then
    does [indexBlock] return. *)
Lemma indexBlock_persists (a : answer) (h : Z) (b : BlockMetadata)
  (row : BlockRow) (rows : list TransactionRow) (w : world) (rest : list answer) :
  a h = Produced b None ->
  block_query chainID b = Ok row ->
  Expect.transaction_rows h 0 (transactions b) = Ok rows ->
  Z.of_nat (List.length (transactions b)) <= 2 ^ 53 ->
  indexBlock chainID (Ok account) h w (a :: rest) =
  Indexed {| db := {| block_table := block_table (db w) ++ [row];
                      transaction_table := transaction_table (db w) ++ rows |};
             trace := trace w ++ [GetBlock h; Insert_block row] ++
                      map Insert_transaction rows |} rest.
Proof.
  intros Ha Hrow Hrows Hlen. cbn [indexBlock]. rewrite Ha, Hrow.
  cbn [option_map].
  rewrite (indexTransactions_rows (transactions b) h 0 rows None _ Hrows) by (lia || exact I).
  cbn [insert_block did db trace block_table transaction_table].
  rewrite <- !app_assoc. reflexivity.
Qed.



End Polling.


(** ** Numbers *)

Lemma decode_exact defined t z :
  Database.has_BigInt_parser defined t = true ->
  Database.decode defined t (Engine.toString 10 z) = Ok (JS.VBigInt z).
Proof.
  intros H. unfold Database.decode. rewrite H, StringToBigInt_toString. reflexivity.
Qed.

(** A quantity above 0 is read as the double nearest to it. *)
Lemma parseInt_intToHex_double n :
  0 < n -> JS.parseInt (Engine.intToHex n) 16 = JS.to_double false n.
Proof.
  intros Hn. unfold Engine.intToHex. rewrite toString_nonneg by lia.
  destruct (printed_spec 16 n) as (Hne & Hrange & Hval); [lia | lia |].
  change ("0x" ++ ?s)%string with (String "0" (String "x" s)).
  rewrite parseInt_hex_digits, Hval by assumption.
  replace (n =? 0) with false by lia. reflexivity.
Qed.

Lemma to_double_not_zero n :
  0 < n -> JS.is_zero (JS.to_double false n) = false /\
           JS.isNaN (JS.to_double false n) = false.
Proof.
  intros Hn. unfold JS.to_double.
  destruct (2 ^ 1024 <=? JS.round_nearest_even n) eqn:E; [split; reflexivity|].
  split; [|reflexivity]. cbn [JS.is_zero]. apply Z.eqb_neq.
  unfold JS.round_nearest_even.
  destruct (Z.leb_spec (Z.log2 n - 52) 0) as [|He]; [lia|].
  set (e := Z.log2 n - 52) in *.
  assert (Hq : 0 < Z.shiftr n e).
  { rewrite Z.shiftr_div_pow2 by lia. apply Z.div_str_pos. split; [lia|].
    transitivity (2 ^ Z.log2 n); [apply Z.pow_le_mono_r; lia|].
    apply Z.log2_spec. lia. }
  rewrite Z.shiftl_mul_pow2 by lia.
  assert (0 < 2 ^ e) by (apply Z.pow_pos_nonneg; lia).
  destruct (_ <? _); [nia|]. destruct (_ <? _); [nia|]. destruct (Z.even _); nia.
Qed.

Lemma max_fold (l : list Z) : forall a m,
  In m (a :: l) -> (forall x, In x (a :: l) -> x <= m) ->
  fold_left (fun acc z => match acc with
                          | None => Some z
                          | Some b => Some (Z.max b z)
                          end) l (Some a) = Some m.
Proof.
  induction l as [|x l IH]; intros a m Hin Hmax; cbn [fold_left].
  - destruct Hin as [-> | []]. reflexivity.
  - apply IH.
    + assert (a <= m) by (apply Hmax; simpl; auto).
      assert (x <= m) by (apply Hmax; simpl; auto).
      destruct Hin as [-> | [-> | Hin]]; simpl; [left | left | right]; auto; lia.
    + intros y [<- | Hy].
      * assert (a <= m) by (apply Hmax; simpl; auto).
        assert (x <= m) by (apply Hmax; simpl; auto). lia.
      * apply Hmax. simpl. auto.
Qed.

Lemma max_id_greatest (database : Indexer.Store) (m : Z) :
  In m (Indexer.heights database) ->
  (forall x, In x (Indexer.heights database) -> x <= m) ->
  Indexer.max_id (Indexer.block_table database) = Some m.
Proof.
  intros Hin Hmax. unfold Indexer.max_id. rewrite max_id_map.
  fold (Indexer.heights database).
  destruct (Indexer.heights database) as [|a l]; [contradiction|].
  cbn [fold_left]. apply max_fold; assumption.
Qed.

(** C9, as amended. What the query side reads from a column of type INT8 or
    NUMERIC, or of a type named blockno, chainid, u64 or u256 that the store
    defines, is the exact integer, whatever its size; an int4, such as the
    height read at start-up, becomes a double. A height or filter id that
    arrives as a quantity reaches [resolveBlockSpec] and the statements of
    the filter calls as the double nearest to it: itself up to 2^53, never
    itself when it is odd and larger. The indexer moves its target with the
    addition of doubles, which is exact below 2^53 and stops at 2^53, and it
    resumes after the greatest recorded height only when that fits a signed
    32-bit integer. *)
Theorem numbers_exact_in_range {engine : Engine.Lib} (chainID : Z) (account : string)
  (defined : string -> bool) (store : Database.store) (latest : JS.value)
  (z n h m : Z) (w : Indexer.world) (fuel : nat) (a : Indexer.answer)
  (b : Indexer.BlockMetadata) (row : Indexer.BlockRow)
  (rows : list Indexer.TransactionRow) (database : Indexer.Store) :
  0 < n ->
  a h = Indexer.Produced b None ->
  Indexer.block_query chainID b = Ok row ->
  Expect.transaction_rows h 0 (Indexer.transactions b) = Ok rows ->
  Z.of_nat (List.length (Indexer.transactions b)) <= 2 ^ 53 ->
  In m (Indexer.heights database) ->
  (forall x, In x (Indexer.heights database) -> x <= m) ->
  (forall t, In t [Database.INT8; Database.NUMERIC] ->
     Database.decode defined t (Engine.toString 10 z) = Ok (JS.VBigInt z)) /\
  (forall name, In name ["blockno"; "chainid"; "u64"; "u256"] -> defined name = true ->
     Database.decode defined (Database.Named name) (Engine.toString 10 z) =
       Ok (JS.VBigInt z)) /\
  Database.decode defined Database.INT4 (Engine.toString 10 z) =
    Ok (JS.VNumber (JS.parseInt (Engine.toString 10 z) 10)) /\
  Database.resolveBlockSpec latest (Some (Engine.intToHex n)) =
    Ok (JS.VNumber (JS.to_double false n)) /\
  (exists rest, snd (Database.eth_getFilterChanges (Engine.intToHex n) store) =
                  Database.Q_filter_type (JS.to_double false n) :: rest) /\
  (exists rest, snd (Database.eth_uninstallFilter (Engine.intToHex n) store) =
                  Database.Q_uninstallFilter "0.0.0.0" (JS.to_double false n) :: rest) /\
  (n <= 2 ^ 53 -> JS.to_double false n = JS.Fin n) /\
  (2 ^ 53 < n -> Z.odd n = true -> JS.to_double false n <> JS.Fin n) /\
  Indexer.loop chainID (Ok account) (S fuel) h w [a] =
    Indexer.Running (JS.add_one h)
      {| Indexer.db :=
           {| Indexer.block_table := Indexer.block_table (Indexer.db w) ++ [row];
              Indexer.transaction_table :=
                Indexer.transaction_table (Indexer.db w) ++ rows |};
         Indexer.trace := Indexer.trace w ++
                          [Indexer.GetBlock h; Indexer.Insert_block row] ++
                          map Indexer.Insert_transaction rows |} /\
  (h < 2 ^ 53 -> JS.add_one h = h + 1) /\
  JS.add_one (2 ^ 53) = 2 ^ 53 /\
  (- 2 ^ 31 <= m < 2 ^ 31 -> Indexer.resume_at database = Ok (m + 1)) /\
  (2 ^ 31 <= m -> Indexer.resume_at database = Throw "integer out of range").
Proof.
  intros Hn Ha Hrow Hrows Hlen Hin Hmax.
  destruct (to_double_not_zero n Hn) as [Hzero Hnan].
  split.
  { intros t [<- | [<- | []]]; apply decode_exact; reflexivity. }
  split.
  { intros name Hname Hdefined. apply decode_exact.
    cbn [Database.has_BigInt_parser]. rewrite Hdefined, andb_true_r.
    unfold Database.bigint_type_names.
    destruct Hname as [<- | [<- | [<- | [<- | []]]]]; reflexivity. }
  split; [reflexivity|].
  split.
  { unfold Database.resolveBlockSpec. rewrite !intToHex_not_a_tag by discriminate.
    rewrite parseInt_intToHex_double, Hnan by assumption. reflexivity. }
  split.
  { unfold Database.eth_getFilterChanges.
    rewrite parseInt_intToHex_double, Hzero by assumption.
    unfold Database.mbind at 1, Database._query.
    destruct (store (Database.Q_filter_type (JS.to_double false n))); cbn [app snd];
      match goal with
      | |- context [let (_, _) := ?m in _] => destruct m; cbn [snd]; eauto
      | _ => eauto
      end. }
  split.
  { unfold Database.eth_uninstallFilter.
    rewrite parseInt_intToHex_double, Hzero by assumption.
    unfold Database.mbind at 1, Database._query.
    destruct (store (Database.Q_uninstallFilter "0.0.0.0" (JS.to_double false n)));
      cbn [app snd];
      match goal with
      | |- context [let (_, _) := ?m in _] => destruct m; cbn [snd]; eauto
      | _ => eauto
      end. }
  split; [intros Hsmall; apply to_double_small; lia|].
  split; [apply to_double_odd|].
  split.
  { cbn [Indexer.loop].
    rewrite (indexBlock_persists chainID account a h b row rows w [] Ha Hrow Hrows Hlen).
    destruct fuel; reflexivity. }
  split; [apply add_one_exact|].
  split; [vm_compute; reflexivity|].
  unfold Indexer.resume_at. rewrite (max_id_greatest database m Hin Hmax).
  unfold Indexer.cast_int. split; intros Hr.
  - destruct (Z.leb_spec (- 2 ^ 31) m); [|lia].
    destruct (Z.ltb_spec m (2 ^ 31)); [|lia].
    cbn [andb bind]. rewrite add_one_exact by lia. reflexivity.
  - destruct (Z.ltb_spec m (2 ^ 31)); [lia|]. rewrite andb_false_r. reflexivity.
Qed.

Lemma numbers_exact_in_range_witness :
  Database.decode (fun _ => true) (Database.Named "u256")
    (Engine.toString 10 (2 ^ 256 - 1)) = Ok (JS.VBigInt (2 ^ 256 - 1)) /\
  Database.resolveBlockSpec (JS.VBigInt 7) (Some (Engine.intToHex 255)) =
    Ok (JS.VNumber (JS.Fin 255)) /\
  (exists rest, snd (Database.eth_uninstallFilter (Engine.intToHex 255) (fun _ => Ok [])) =
                  Database.Q_uninstallFilter "0.0.0.0" (JS.Fin 255) :: rest) /\
  Indexer.loop 1313161554 (Ok "aurora") 1 5
    {| Indexer.db := Spec.plain_store 1313161554 5; Indexer.trace := [] |}
    [fun h => Indexer.Produced (Spec.busy_block h) None] =
  Indexer.Running 6
    {| Indexer.db :=
         {| Indexer.block_table :=
              Indexer.block_table (Spec.plain_store 1313161554 5) ++
              [Spec.busy_row 1313161554 5];
            Indexer.transaction_table := [Spec.transfer_row 5 0; Spec.transfer_row 5 1] |};
       Indexer.trace := [Indexer.GetBlock 5;
                         Indexer.Insert_block (Spec.busy_row 1313161554 5);
                         Indexer.Insert_transaction (Spec.transfer_row 5 0);
                         Indexer.Insert_transaction (Spec.transfer_row 5 1)] |} /\
  Indexer.resume_at (Spec.plain_store 1313161554 5) = Ok 5.
Proof.
  pose proof (numbers_exact_in_range 1313161554 "aurora" (fun _ => true)
    (fun _ => Ok []) (JS.VBigInt 7) (2 ^ 256 - 1) 255 5 4
    {| Indexer.db := Spec.plain_store 1313161554 5; Indexer.trace := [] |} 0
    (fun h => Indexer.Produced (Spec.busy_block h) None)
    (Spec.busy_block 5) (Spec.busy_row 1313161554 5)
    [Spec.transfer_row 5 0; Spec.transfer_row 5 1]
    (Spec.plain_store 1313161554 5)) as H.
  destruct H as (_ & Hnamed & _ & Hspec & _ & Hfilter & _ & _ & Hloop & _ & _ & Hresume & _).
  - lia.
  - reflexivity.
  - reflexivity.
  - reflexivity.
  - simpl. lia.
  - simpl. tauto.
  - simpl. intros x Hx. intuition lia.
  - split; [apply (Hnamed "u256"); [simpl; tauto | reflexivity]|].
    split; [exact Hspec|]. split; [exact Hfilter|]. split; [exact Hloop|].
    apply Hresume. lia.
Defined.

(** C9 as stated fails: block heights and filter ids are doubles, and the
    height read at start-up is a 32-bit integer. *)
Lemma numbers_counterexample :
  JS.StringToBigInt "0x20000000000001" = Some (2 ^ 53 + 1) /\
  JS.parseInt "0x20000000000001" 16 = JS.Fin (2 ^ 53) /\
  Database.resolveBlockSpec (JS.VBigInt 7) (Some "0x20000000000001") =
    Ok (JS.VNumber (JS.Fin (2 ^ 53))) /\
  snd (Database.eth_uninstallFilter "0x20000000000001" (fun _ => Ok [])) =
    [Database.Q_uninstallFilter "0.0.0.0" (JS.Fin (2 ^ 53))] /\
  JS.add_one (2 ^ 53) = 2 ^ 53 /\
  Indexer.cast_int (Some (2 ^ 31)) = Throw "integer out of range".
Proof. repeat split; vm_compute; reflexivity. Qed.

(** ** Concrete runs *)

Example parseInt_examples :
  JS.parseInt "0xff" 16 = JS.Fin 255 /\
  JS.parseInt "ff" 16 = JS.Fin 255 /\
  JS.parseInt "  -0x10" 16 = JS.Fin (-16) /\
  JS.parseInt "-0" 16 = JS.NegZero /\
  JS.parseInt "" 16 = JS.NaN /\
  JS.parseInt "0x" 16 = JS.NaN /\
  JS.parseInt "latest " 16 = JS.NaN /\
  JS.parseInt "0x20000000000003" 16 = JS.Fin (2 ^ 53 + 4).
Proof. repeat split; vm_compute; reflexivity. Qed.

Example hexToBytes_examples :
  Topics.hexToBytes "0x0aff" = [x0a; xff]%byte /\
  Topics.hexToBytes "0x0afz" = [x0a]%byte /\
  Topics.hexToBytes "0x" = [].
Proof. repeat split. Qed.

Example compileTopics_example :
  Topics.compileTopics
    (Some [Topics.TString "0x0a"; Topics.TNull; Topics.TArray [Some "0x0b"; None]]) =
  Some (Sql.And [Sql.Eq (Sql.col_e_topics 1) (JS.VBuffer [x0a]%byte);
                 Sql.Or [Sql.Eq (Sql.col_e_topics 3) (JS.VBuffer [x0b]%byte)]]).
Proof. reflexivity. Qed.

Example getLogs_where_example :
  Database.getLogs_where (JS.VBigInt 9)
    {| Database.blockHash := None; Database.fromBlock := Some "earliest";
       Database.toBlock := None; Database.address := None;
       Database.topics := Some [] |} =
  Ok [Sql.Lte Sql.col_b_id (JS.VBigInt 9)].
Proof. reflexivity. Qed.

Example indexer_run_example :
  Indexer.start 1313161554 (Ok "aurora") (Spec.plain_store 1313161554 2)
    [Spec.not_produced; Spec.plain_answer] =
  Indexer.Running 3
    {| Indexer.db := Spec.plain_store 1313161554 3;
       Indexer.trace := [Indexer.Select_max_id;
                         Indexer.GetBlock 2; Indexer.SetTimeout 100;
                         Indexer.GetBlock 2;
                         Indexer.Insert_block (Spec.plain_row 1313161554 2)] |}.
Proof. vm_compute. reflexivity. Qed.

(** A block whose timestamp is no date, or whose hash is no hex string for
    the library, stops the process before anything is written. *)
Example indexer_crash_example :
  Indexer.start 1313161554 (Ok "aurora") (Spec.plain_store 1313161554 2)
    [fun h => Indexer.Produced
       {| Indexer.number := h; Indexer.hash := Some "0x"; Indexer.parentHash := "0x";
          Indexer.timestamp := 8640000000001; Indexer.size := 0;
          Indexer.gasLimit := 0; Indexer.gasUsed := 0;
          Indexer.transactionsRoot := "0x"; Indexer.stateRoot := "0x";
          Indexer.receiptsRoot := "0x"; Indexer.transactions := [] |} None] =
  Indexer.Stopped
    {| Indexer.db := Spec.plain_store 1313161554 2;
       Indexer.trace := [Indexer.Select_max_id; Indexer.GetBlock 2] |}
    "RangeError: Invalid time value".
Proof. vm_compute. reflexivity. Qed.

(** * Further properties of the code *)

(** ** Hex encoding of bytes *)

Lemma byte_of_Z_to_N (x : byte) : JS.byte_of_Z (Z.of_N (Byte.to_N x)) = x.
Proof. unfold JS.byte_of_Z. rewrite N2Z.id, Byte.of_to_N. reflexivity. Qed.

Lemma byte_range (x : byte) : 0 <= Z.of_N (Byte.to_N x) < 256.
Proof. pose proof (Byte.to_N_bounded x). lia. Qed.

Lemma Buffer_from_hex_encoded (b : list byte) (rest : string) :
  JS.Buffer_from_hex (Engine.hex_of_bytes b ++ rest)%string =
  b ++ JS.Buffer_from_hex rest.
Proof.
  induction b as [|x b IH]; [reflexivity|].
  cbn [Engine.hex_of_bytes String.append JS.Buffer_from_hex app].
  pose proof (byte_range x) as Hx.
  set (n := Z.of_N (Byte.to_N x)) in *.
  rewrite !radix_digit_char;
    try lia; try (apply Z.mod_pos_bound; lia);
    try (split; [apply Z.div_pos; lia | apply Z.div_lt_upper_bound; lia]).
  rewrite IH. f_equal.
  replace (16 * (n / 16) + n mod 16) with n by (rewrite (Z.div_mod n 16) at 1; lia).
  apply byte_of_Z_to_N.
Qed.

Lemma hex_of_bytes_digits (b : list byte) :
  JS.all_digits 16 (Engine.hex_of_bytes b) =
  match b with [] => None | _ => Some (JS.digits_prefix 16 (Engine.hex_of_bytes b)) end /\
  String.length (Engine.hex_of_bytes b) = (2 * List.length b)%nat /\
  List.length (JS.digits_prefix 16 (Engine.hex_of_bytes b)) = (2 * List.length b)%nat.
Proof.
  assert (H : String.length (Engine.hex_of_bytes b) = (2 * List.length b)%nat /\
              List.length (JS.digits_prefix 16 (Engine.hex_of_bytes b)) =
                (2 * List.length b)%nat).
  { induction b as [|x b [IH1 IH2]]; [split; reflexivity|].
    cbn [Engine.hex_of_bytes JS.digits_prefix String.length List.length].
    pose proof (byte_range x) as Hx.
    set (n := Z.of_N (Byte.to_N x)) in *.
    rewrite !radix_digit_char;
      try lia; try (apply Z.mod_pos_bound; lia);
      try (split; [apply Z.div_pos; lia | apply Z.div_lt_upper_bound; lia]).
    cbn [List.length]. rewrite IH1, IH2. split; lia. }
  destruct H as [H1 H2]. split; [|split; assumption].
  unfold JS.all_digits. rewrite H1, H2, Z.eqb_refl.
  destruct b; reflexivity.
Qed.

(** X1. The local [hexToBytes] decodes the lower-case hex encoding of any
    byte string back to that byte string, whatever its two leading characters
    are; the result is never longer than half of what follows them. *)
Theorem hexToBytes_round_trip (b : list byte) (c1 c2 : ascii) (input : string) :
  Topics.hexToBytes (String c1 (String c2 (Engine.hex_of_bytes b))) = b /\
  Topics.hexToBytes ("0x" ++ Engine.hex_of_bytes b)%string = b /\
  (2 * List.length (Topics.hexToBytes input) <= String.length input - 2)%nat.
Proof.
  unfold Topics.hexToBytes. cbn [JS.substring_from String.append].
  rewrite <- (app_nil_r b) at 2 4.
  replace (Engine.hex_of_bytes b) with (Engine.hex_of_bytes b ++ "")%string
    by (clear; induction (Engine.hex_of_bytes b); simpl; congruence).
  rewrite Buffer_from_hex_encoded. repeat split.
  assert (Hlen : forall n s, (String.length s <= n)%nat ->
            (2 * List.length (JS.Buffer_from_hex s) <= String.length s)%nat).
  { induction n as [|n IH]; intros s Hs.
    - destruct s; simpl in *; lia.
    - destruct s as [|a [|a' s]]; simpl in *; try lia.
      destruct (JS.radix_digit 16 a), (JS.radix_digit 16 a'); simpl; try lia.
      specialize (IH s). lia. }
  destruct input as [|a [|a' s]]; simpl; try lia.
  specialize (Hlen (String.length s) s). lia.
Qed.

(** ** The byte literal of [sql.convert] *)

Lemma hex_chars (b : list byte) : forall c,
  In c (list_ascii_of_string (Engine.hex_of_bytes b)) ->
  exists d, 0 <= d < 16 /\ c = Engine.digit_char d.
Proof.
  induction b as [|x b IH]; intros c; cbn [Engine.hex_of_bytes list_ascii_of_string In];
    [contradiction|].
  pose proof (byte_range x) as Hx.
  intros [<- | [<- | H]]; [| |apply IH; exact H]; eexists; (split; [|reflexivity]).
  - split; [apply Z.div_pos; lia | apply Z.div_lt_upper_bound; lia].
  - apply Z.mod_pos_bound; lia.
Qed.

(** X13. A byte array is converted to a literal that opens with
    quote-backslash-x and closes with a quote; between them stand two hex
    digits per byte and nothing else (so no quote and no backslash), and they
    decode to the same bytes. Any other value is left to the library. *)
Theorem convert_bytes_literal (sqlConvert : JS.value -> string) (b : list byte) :
  exists body,
    SqlConvert.convert sqlConvert (JS.VBuffer b) = ("'\x" ++ body ++ "'")%string /\
    String.length body = (2 * List.length b)%nat /\
    (forall c, In c (list_ascii_of_string body) -> JS.radix_digit 16 c <> None) /\
    JS.Buffer_from_hex body = b /\
    (forall v, (forall b', v <> JS.VBuffer b') ->
               SqlConvert.convert sqlConvert v = sqlConvert v).
Proof.
  exists (Engine.hex_of_bytes b). unfold SqlConvert.convert, SqlConvert.toString_hex.
  split; [reflexivity|]. split; [apply hex_of_bytes_digits|]. split; [|split].
  - intros c Hc. destruct (hex_chars b c Hc) as (d & Hd & ->).
    rewrite radix_digit_char by lia. discriminate.
  - rewrite <- (app_nil_r b).
    replace (Engine.hex_of_bytes (b ++ [])) with (Engine.hex_of_bytes b ++ "")%string.
    + rewrite Buffer_from_hex_encoded. reflexivity.
    + rewrite app_nil_r. clear. induction (Engine.hex_of_bytes b); simpl; congruence.
  - intros v Hv. destruct v; try reflexivity. exfalso. apply (Hv b0). reflexivity.
Qed.

(** ** More on topic filters *)

(** X2. Wildcard positions at the end of a topic filter change nothing: the
    filter compiles to the same tree with or without them. A filter made of
    wildcards only is not the absent filter: it compiles to [sql.and()]
    without operands, which is pushed as a clause; the condition is then not
    a condition of SQL and the store rejects the select. *)
Theorem compileTopics_trailing_wildcards {engine : Engine.Lib}
  (p : Topics.topic) (l : list Topics.topic) (k : nat)
  (answers : Database.query -> result (list Database.record))
  (row : Database.record) (rows : list Database.record)
  (bh fb tb : option string) (ad : option Database.address_filter)
  (blocks others : list Sql.expr) :
  let request ts :=
    {| Database.blockHash := bh; Database.fromBlock := fb; Database.toBlock := tb;
       Database.address := ad; Database.topics := ts |} in
  Topics.compileTopics (Some (p :: l ++ repeat Topics.TNull k)) =
    Topics.compileTopics (Some (p :: l)) /\
  Topics.compileTopics (Some (repeat Topics.TNull (S k))) = Some (Sql.And []) /\
  Sql.well_formed (Sql.And []) = false /\
  (answers Database.Q_blockNumber = Ok (row :: rows) ->
   Database.block_clauses (JS.get_field "id" row) (request None) = Ok blocks ->
   Database.address_clauses (request None) = Ok others ->
   Database.eth_getLogs (request (Some (repeat Topics.TNull (S k))))
     (Database.postgres answers) =
     (Throw Database.syntax_error,
      [Database.Q_blockNumber;
       Database.Q_logs (Sql.And (blocks ++ others ++ [Sql.And []]))])).
Proof.
  intros request.
  assert (Hall : Topics.compileTopics (Some (repeat Topics.TNull (S k))) =
                 Some (Sql.And [])).
  { cbn [repeat Topics.compileTopics]. do 2 f_equal.
    apply (compile_wildcards (S k) O). }
  split; [|split; [exact Hall | split; [reflexivity|]]].
  - cbn [Topics.compileTopics]. do 2 f_equal.
    change (p :: l ++ repeat Topics.TNull k) with ((p :: l) ++ repeat Topics.TNull k).
    rewrite mapi_app, concat_app, compile_wildcards, app_nil_r. reflexivity.
  - intros Hstore Hblocks Hothers.
    apply (getLogs_rejected _ answers row rows).
    + exact Hstore.
    + unfold Database.getLogs_where.
      change (Database.block_clauses (JS.get_field "id" row)
                (request (Some (repeat Topics.TNull (S k)))))
        with (Database.block_clauses (JS.get_field "id" row) (request None)).
      change (Database.address_clauses (request (Some (repeat Topics.TNull (S k)))))
        with (Database.address_clauses (request None)).
      rewrite Hblocks, Hothers. cbn [bind]. unfold Database.topics_clauses.
      cbn [Database.topics request]. rewrite Hall. reflexivity.
    + apply (and_with_malformed (Sql.And [])); [|reflexivity].
      apply in_or_app. right. apply in_or_app. right. left. reflexivity.
Qed.

(** X3. A filter that names a digest, or a list of digests, at position [i]
    rejects every event that has [i] topics or fewer. *)
Theorem compileTopics_rejects_short_events (r : Sql.row)
  (pre suf : list Topics.topic) (p : Topics.topic) :
  p <> Topics.TNull ->
  (List.length (Sql.topics r) <= List.length pre)%nat ->
  exists e, Topics.compileTopics (Some (pre ++ p :: suf)) = Some e /\
            Sql.eval r e = false.
Proof.
  intros Hp Hshort.
  assert (Hcons : exists q l, pre ++ p :: suf = q :: l) by (destruct pre; simpl; eauto).
  destruct Hcons as (q & l & Heq).
  destruct (compileTopics_sound r q l) as (e & He & Hiff).
  exists e. rewrite Heq. split; [exact He|].
  destruct (Sql.eval r e); [|reflexivity]. exfalso.
  assert (Hholds : Spec.filter_holds (Sql.topics r) (pre ++ p :: suf))
    by (rewrite Heq; apply Hiff; reflexivity).
  specialize (Hholds (List.length pre) p).
  rewrite nth_error_app2, Nat.sub_diag in Hholds by lia.
  specialize (Hholds eq_refl).
  assert (Hnone : Spec.slot (Sql.topics r) (List.length pre + 1) = None).
  { rewrite Nat.add_1_r. cbn [Spec.slot]. apply nth_error_None. exact Hshort. }
  destruct p as [|s|cs]; cbn [Spec.position_holds] in Hholds.
  - contradiction.
  - congruence.
  - destruct Hholds as (d & _ & Hd). congruence.
Qed.

Lemma compileTopics_rejects_short_events_witness :
  exists e, Topics.compileTopics (Some [Topics.TNull; Topics.TString "0x0a"]) = Some e /\
            Sql.eval (Spec.event [[x0a]]%byte) e = false.
Proof.
  apply (compileTopics_rejects_short_events (Spec.event [[x0a]]%byte)
           [Topics.TNull] [] (Topics.TString "0x0a")).
  - discriminate.
  - simpl. lia.
Defined.

(** ** More on [eth_getLogs] *)

Section GetLogs.
Context {engine : Engine.Lib}.

Lemma resolveBlockSpec_bad_literal (latest : JS.value) (c : ascii) (s : string) :
  JS.is_white_space c = false -> c <> "+"%char -> c <> "-"%char ->
  JS.radix_digit 16 c = None ->
  String c s <> "latest" -> String c s <> "pending" ->
  Database.resolveBlockSpec latest (Some (String c s)) =
    Throw ("invalid block ID: " ++ String c s)%string.
Proof.
  intros Hws Hplus Hminus Hdigit Hlatest Hpending.
  unfold Database.resolveBlockSpec.
  apply String.eqb_neq in Hlatest, Hpending. rewrite Hlatest, Hpending.
  replace (String c s =? "earliest")%string with false.
  - rewrite parseInt_no_digit by assumption. reflexivity.
  - symmetry. cbn [String.eqb].
    destruct (Ascii.eqb_spec c "e") as [->|]; [discriminate Hdigit | reflexivity].
Qed.

Lemma mapM_parse_spec (l : list string) (r : Sql.row) :
  match bind (Database.mapM Engine.parseAddress l)
             (fun bs => Ok [Sql.In Sql.col_t_from (map JS.VBuffer bs)]) with
  | Ok clauses =>
      forallb (Sql.eval r) clauses = true <->
      exists a, In a l /\ Engine.parseAddress a = Ok (Sql.tx_from r)
  | Throw e => exists a, In a l /\ Engine.parseAddress a = Throw e
  end.
Proof.
  assert (H : match Database.mapM Engine.parseAddress l with
              | Ok bs =>
                  existsb (Sql.cell_eqb (Sql.CBytes (Sql.tx_from r))) (map JS.VBuffer bs)
                    = true <->
                  exists a, In a l /\ Engine.parseAddress a = Ok (Sql.tx_from r)
              | Throw e => exists a, In a l /\ Engine.parseAddress a = Throw e
              end).
  { induction l as [|a l IH]; cbn [Database.mapM].
    - simpl. split; [discriminate | intros (a & [] & _)].
    - destruct (Engine.parseAddress a) as [b|e] eqn:Ea; cbn [bind].
      + destruct (Database.mapM Engine.parseAddress l) as [bs|e]; cbn [bind].
        * cbn [map existsb Sql.cell_eqb]. rewrite orb_true_iff, IH, bytes_eqb_eq.
          split.
          -- intros [<- | (a' & Hin & Ha')]; [exists a | exists a']; simpl; auto.
          -- intros (a' & [<- | Hin] & Ha').
             ++ left. congruence.
             ++ right. exists a'. auto.
        * destruct IH as (a' & Hin & Ha'). exists a'. simpl. auto.
      + exists a. simpl. auto. }
  destruct (Database.mapM Engine.parseAddress l) as [bs|e]; cbn [bind]; [|exact H].
  cbn [forallb Sql.eval Sql.cell_of]. rewrite andb_true_r. exact H.
Qed.

(** X4. An exact block hash takes precedence: with [blockHash] present the
    block part of the query is the single comparison of [b.hash] with the
    decoded hash, [fromBlock] and [toBlock] are not even resolved (a
    malformed one raises nothing), and a row passes exactly when its block
    hash is the given one. *)
Theorem getLogs_blockHash_takes_precedence (latest : JS.value) (h : string)
  (b : list byte) (from to : option string) (ad : option Database.address_filter)
  (ts : option (list Topics.topic)) (r : Sql.row) :
  Engine.hexToBytes h = Ok b ->
  Database.block_clauses latest
    {| Database.blockHash := Some h; Database.fromBlock := from;
       Database.toBlock := to; Database.address := ad; Database.topics := ts |} =
    Ok [Sql.Eq Sql.col_b_hash (JS.VBuffer b)] /\
  (forallb (Sql.eval r) [Sql.Eq Sql.col_b_hash (JS.VBuffer b)] = true <->
   Sql.block_hash r = b).
Proof.
  intros Hb. unfold Database.block_clauses. cbn [Database.blockHash].
  rewrite Hb. split; [reflexivity|].
  cbn [forallb Sql.eval Sql.cell_of Sql.cell_eqb]. rewrite andb_true_r.
  apply bytes_eqb_eq.
Qed.

(** X5. A range given by two hex quantities between 1 and 2^53 selects
    exactly the rows whose height lies in it, bounds included. *)
Theorem getLogs_explicit_range (latest : JS.value) (a b : Z)
  (ad : option Database.address_filter) (ts : option (list Topics.topic)) (r : Sql.row) :
  0 < a <= 2 ^ 53 -> 0 < b <= 2 ^ 53 ->
  exists blocks,
    Database.block_clauses latest
      {| Database.blockHash := None; Database.fromBlock := Some (Engine.intToHex a);
         Database.toBlock := Some (Engine.intToHex b); Database.address := ad;
         Database.topics := ts |} = Ok blocks /\
    (forallb (Sql.eval r) blocks = true <-> a <= Sql.block_id r <= b).
Proof.
  intros Ha Hb. unfold Database.block_clauses.
  cbn [Database.blockHash Database.fromBlock Database.toBlock].
  unfold Database.resolveBlockSpec.
  rewrite !intToHex_not_a_tag by discriminate.
  rewrite !parseInt_intToHex by lia. cbn [JS.isNaN bind JS.truthy].
  replace (a =? 0) with false by lia. replace (b =? 0) with false by lia.
  cbn [negb app]. eexists. split; [reflexivity|].
  cbn [forallb Sql.eval Sql.cell_of Sql.cell_cmp Sql.sql_int].
  rewrite andb_true_r, andb_true_iff. unfold Z.geb.
  rewrite Z.leb_le.
  destruct (Z.compare_spec (Sql.block_id r) a); split; intros; try lia; intuition (try lia; try discriminate).
Qed.

(** X6. A bound that resolves to height 0 adds no clause, because 0 is falsy:
    with [toBlock] given as [earliest] or [0x0] the query has no upper bound.
    A request from [earliest] to [earliest] has no block clause at all: the
    select carries the other clauses alone, and when there is none its
    condition is empty and the store rejects it. *)
Theorem getLogs_zero_bound_is_no_bound
  (answers : Database.query -> result (list Database.record))
  (row : Database.record) (rows : list Database.record)
  (from : option string) (zero : string) (ad : option Database.address_filter)
  (ts : option (list Topics.topic)) (others : list Sql.expr) :
  let latest := JS.get_field "id" row in
  let request fb tb a t :=
    {| Database.blockHash := None; Database.fromBlock := fb; Database.toBlock := tb;
       Database.address := a; Database.topics := t |} in
  zero = "earliest" \/ zero = "0x0" ->
  answers Database.Q_blockNumber = Ok (row :: rows) ->
  Database.address_clauses (request None None ad ts) = Ok others ->
  (forall lower,
     Database.block_clauses latest (request from None ad ts) = Ok lower ->
     JS.truthy latest = true ->
     exists rest,
       lower = rest ++ [Sql.Lte Sql.col_b_id latest] /\
       Database.block_clauses latest (request from (Some zero) ad ts) = Ok rest) /\
  Database.block_clauses latest (request (Some zero) (Some zero) ad ts) = Ok [] /\
  snd (Database.eth_getLogs (request (Some zero) (Some zero) ad ts)
         (Database.postgres answers)) =
    [Database.Q_blockNumber;
     Database.Q_logs (Sql.And (others ++ Database.topics_clauses (request None None ad ts)))] /\
  Database.eth_getLogs (request (Some zero) (Some zero) None None)
    (Database.postgres answers) =
    (Throw Database.syntax_error, [Database.Q_blockNumber; Database.Q_logs (Sql.And [])]).
Proof.
  intros latest request Hzero Hstore Hothers.
  assert (Hnone : Database.block_clauses latest (request (Some zero) (Some zero) ad ts) =
                  Ok []) by (destruct Hzero as [-> | ->]; reflexivity).
  split; [|split; [exact Hnone | split]].
  - intros lower Hlower Htruthy. unfold Database.block_clauses in *.
    cbn [Database.blockHash Database.fromBlock Database.toBlock request] in *.
    destruct (Database.resolveBlockSpec latest from) as [fromBlock|e];
      cbn [bind] in *; [|discriminate].
    cbn [Database.resolveBlockSpec bind] in Hlower. rewrite Htruthy in Hlower.
    injection Hlower as <-. eexists. split; [reflexivity|].
    destruct Hzero as [-> | ->]; cbn; rewrite app_nil_r; reflexivity.
  - rewrite (getLogs_run (request (Some zero) (Some zero) ad ts)
               (Database.postgres answers) row rows
               (others ++ Database.topics_clauses (request None None ad ts)) Hstore).
    + reflexivity.
    + unfold Database.getLogs_where. fold latest.
      rewrite Hnone. cbn [bind].
      change (Database.address_clauses (request (Some zero) (Some zero) ad ts))
        with (Database.address_clauses (request None None ad ts)).
      rewrite Hothers. reflexivity.
  - apply (getLogs_rejected _ answers row rows []); [exact Hstore | | reflexivity].
    unfold Database.getLogs_where. fold latest.
    assert (Hnone' : Database.block_clauses latest
                       (request (Some zero) (Some zero) None None) = Ok [])
      by (destruct Hzero as [-> | ->]; reflexivity).
    rewrite Hnone'. reflexivity.
Qed.

(** X7. A malformed [fromBlock] or [toBlock] makes [eth_getLogs] fail with
    [invalid block ID: <literal>], but only after the latest height has been
    read from the store: that statement is sent, the select of the logs is
    not. *)
Theorem getLogs_malformed_bound (store : Database.store) (row : Database.record)
  (rows : list Database.record) (c : ascii) (s : string)
  (ad : option Database.address_filter) (ts : option (list Topics.topic)) :
  store Database.Q_blockNumber = Ok (row :: rows) ->
  JS.is_white_space c = false -> c <> "+"%char -> c <> "-"%char ->
  JS.radix_digit 16 c = None ->
  String c s <> "latest" -> String c s <> "pending" ->
  Database.eth_getLogs
    {| Database.blockHash := None; Database.fromBlock := Some (String c s);
       Database.toBlock := None; Database.address := ad; Database.topics := ts |} store =
    (Throw ("invalid block ID: " ++ String c s)%string, [Database.Q_blockNumber]) /\
  Database.eth_getLogs
    {| Database.blockHash := None; Database.fromBlock := None;
       Database.toBlock := Some (String c s); Database.address := ad;
       Database.topics := ts |} store =
    (Throw ("invalid block ID: " ++ String c s)%string, [Database.Q_blockNumber]).
Proof.
  intros Hstore Hws Hplus Hminus Hdigit Hlatest Hpending.
  assert (Hbad : forall latest, Database.resolveBlockSpec latest (Some (String c s)) =
                   Throw ("invalid block ID: " ++ String c s)%string).
  { intros latest.
    apply (resolveBlockSpec_bad_literal latest c s); assumption. }
  unfold Database.eth_getLogs, Database.mbind, Database._query, Database.lift.
  rewrite Hstore. cbn [Database.first_row_field app].
  unfold Database.getLogs_where, Database.block_clauses.
  cbn [Database.blockHash Database.fromBlock Database.toBlock].
  rewrite !Hbad. cbn [Database.resolveBlockSpec bind]. split; reflexivity.
Qed.

Lemma mapM_length {A B : Type} (f : A -> result B) (l : list A) : forall bs,
  Database.mapM f l = Ok bs -> List.length bs = List.length l.
Proof.
  induction l as [|x l IH]; intros bs; cbn [Database.mapM].
  - intros H. injection H as <-. reflexivity.
  - destruct (f x); [|discriminate]. cbn [bind].
    destruct (Database.mapM f l) as [ys|]; [|discriminate]. cbn [bind].
    intros H. injection H as <-. cbn [List.length]. rewrite (IH ys eq_refl). reflexivity.
Qed.

Lemma address_list_clauses (l : list string) (r : Sql.row) :
  l <> [] ->
  match bind (Database.mapM Engine.parseAddress l)
             (fun bs => Ok [Sql.In Sql.col_t_from (map JS.VBuffer bs)]) with
  | Ok clauses =>
      forallb Sql.well_formed clauses = true /\
      (forallb (Sql.eval r) clauses = true <->
       exists a, In a l /\ Engine.parseAddress a = Ok (Sql.tx_from r))
  | Throw e => exists a, In a l /\ Engine.parseAddress a = Throw e
  end.
Proof.
  intros Hne. pose proof (mapM_parse_spec l r) as H.
  destruct (Database.mapM Engine.parseAddress l) as [bs|e] eqn:E; cbn [bind] in *;
    [|exact H].
  split; [|exact H].
  apply mapM_length in E. destruct bs as [|b bs]; [|reflexivity].
  destruct l; [contradiction | discriminate E].
Qed.

(** X8. The address part of the query. An absent address or an empty string
    adds no clause. One address, or an array that is not empty, adds a test
    that a row passes exactly when the sender of its transaction is one of
    the parsed addresses; an address that does not parse is the failure of
    the call. An empty array adds [t.from IN ()], which is not a condition of
    SQL: the select is sent and the store rejects it. *)
Theorem getLogs_address_semantics
  (bh fb tb : option string) (ts : option (list Topics.topic))
  (a : string) (l : list string) (r : Sql.row)
  (answers : Database.query -> result (list Database.record))
  (row : Database.record) (rows : list Database.record) (blocks : list Sql.expr) :
  let request ad :=
    {| Database.blockHash := bh; Database.fromBlock := fb; Database.toBlock := tb;
       Database.address := ad; Database.topics := ts |} in
  Database.address_clauses (request None) = Ok [] /\
  Database.address_clauses (request (Some (Database.OneAddress ""))) = Ok [] /\
  (a <> "" ->
   match Database.address_clauses (request (Some (Database.OneAddress a))) with
   | Ok clauses =>
       forallb Sql.well_formed clauses = true /\
       (forallb (Sql.eval r) clauses = true <->
        Engine.parseAddress a = Ok (Sql.tx_from r))
   | Throw e => Engine.parseAddress a = Throw e
   end) /\
  (l <> [] ->
   match Database.address_clauses (request (Some (Database.ManyAddresses l))) with
   | Ok clauses =>
       forallb Sql.well_formed clauses = true /\
       (forallb (Sql.eval r) clauses = true <->
        exists x, In x l /\ Engine.parseAddress x = Ok (Sql.tx_from r))
   | Throw e => exists x, In x l /\ Engine.parseAddress x = Throw e
   end) /\
  Database.address_clauses (request (Some (Database.ManyAddresses []))) =
    Ok [Sql.In Sql.col_t_from []] /\
  (answers Database.Q_blockNumber = Ok (row :: rows) ->
   Database.block_clauses (JS.get_field "id" row) (request None) = Ok blocks ->
   Database.eth_getLogs (request (Some (Database.ManyAddresses [])))
     (Database.postgres answers) =
     (Throw Database.syntax_error,
      [Database.Q_blockNumber;
       Database.Q_logs (Sql.And (blocks ++ [Sql.In Sql.col_t_from []] ++
                                 Database.topics_clauses (request None)))])).
Proof.
  intros request.
  split; [reflexivity|]. split; [reflexivity|]. split; [|split; [|split; [reflexivity|]]].
  - intros Ha. unfold Database.address_clauses. cbn [Database.address request].
    apply String.eqb_neq in Ha. rewrite Ha.
    pose proof (address_list_clauses [a] r) as H.
    destruct (bind (Database.mapM Engine.parseAddress [a]) _) as [clauses|e].
    + destruct H as [Hwf Hiff]; [discriminate|]. split; [exact Hwf|].
      rewrite Hiff. split.
      * intros (x & [<- | []] & Hx). exact Hx.
      * intros Hx. exists a. split; [left; reflexivity | exact Hx].
    + destruct H as (x & [<- | []] & Hx); [discriminate|]. exact Hx.
  - intros Hl. unfold Database.address_clauses. cbn [Database.address request].
    apply (address_list_clauses l r Hl).
  - intros Hstore Hblocks.
    apply (getLogs_rejected _ answers row rows).
    + exact Hstore.
    + unfold Database.getLogs_where.
      change (Database.block_clauses (JS.get_field "id" row)
                (request (Some (Database.ManyAddresses []))))
        with (Database.block_clauses (JS.get_field "id" row) (request None)).
      rewrite Hblocks. reflexivity.
    + apply (and_with_malformed (Sql.In Sql.col_t_from [])); [|reflexivity].
      apply in_or_app. right. left. reflexivity.
Qed.

End GetLogs.

Lemma getLogs_blockHash_takes_precedence_witness :
  Database.block_clauses (JS.VBigInt 9)
    {| Database.blockHash := Some "0xab"; Database.fromBlock := Some "nonsense";
       Database.toBlock := Some "zzz"; Database.address := None;
       Database.topics := None |} =
    Ok [Sql.Eq Sql.col_b_hash (JS.VBuffer [xab]%byte)].
Proof.
  refine (proj1 (getLogs_blockHash_takes_precedence (JS.VBigInt 9) "0xab" [xab]%byte
                   (Some "nonsense") (Some "zzz") None None (Spec.event []) _)).
  reflexivity.
Defined.

Lemma getLogs_explicit_range_witness :
  exists blocks,
    Database.block_clauses (JS.VBigInt 9)
      {| Database.blockHash := None; Database.fromBlock := Some (Engine.intToHex 3);
         Database.toBlock := Some (Engine.intToHex 5); Database.address := None;
         Database.topics := None |} = Ok blocks /\
    (forallb (Sql.eval (Spec.event [])) blocks = true <->
     3 <= Sql.block_id (Spec.event []) <= 5).
Proof.
  apply (getLogs_explicit_range (JS.VBigInt 9) 3 5 None None (Spec.event [])); lia.
Defined.

Lemma getLogs_zero_bound_is_no_bound_witness :
  Database.eth_getLogs
    {| Database.blockHash := None; Database.fromBlock := Some "earliest";
       Database.toBlock := Some "earliest"; Database.address := None;
       Database.topics := None |}
    (Database.postgres (fun q => match q with
                                 | Database.Q_blockNumber => Ok [[("id", JS.VBigInt 9)]]
                                 | _ => Ok []
                                 end)) =
  (Throw Database.syntax_error, [Database.Q_blockNumber; Database.Q_logs (Sql.And [])]).
Proof.
  refine (proj2 (proj2 (proj2
    (getLogs_zero_bound_is_no_bound
       (fun q => match q with
                 | Database.Q_blockNumber => Ok [[("id", JS.VBigInt 9)]]
                 | _ => Ok []
                 end)
       [("id", JS.VBigInt 9)] [] None "earliest" None None [] _ _ _)))).
  - left. reflexivity.
  - reflexivity.
  - reflexivity.
Defined.

Lemma getLogs_malformed_bound_witness :
  Database.eth_getLogs
    {| Database.blockHash := None; Database.fromBlock := Some "xyz";
       Database.toBlock := None; Database.address := None; Database.topics := None |}
    (fun _ => Ok [[("id", JS.VBigInt 9)]]) =
  (Throw "invalid block ID: xyz", [Database.Q_blockNumber]).
Proof.
  refine (proj1 (getLogs_malformed_bound (fun _ => Ok [[("id", JS.VBigInt 9)]])
                   [("id", JS.VBigInt 9)] [] "x" "yz" None None _ _ _ _ _ _ _));
    solve [ reflexivity | discriminate ].
Defined.

(** ** More on the lookups and the filter calls *)

Section MoreHandlers.
Context {engine : Engine.Lib}.
Variable store : Database.store.

(** X15. [eth_getTransactionByHash]: a hash that does not decode makes the
    call fail before anything is sent to the store; once it decodes, the call
    sends one statement and never fails: it returns the first row, exported,
    or [null] when the store has no row or raises. *)
Theorem getTransactionByHash_outcomes (transactionHash : string) :
  match Engine.hexToBytes transactionHash with
  | Throw e =>
      Database.eth_getTransactionByHash transactionHash store = (Throw e, [])
  | Ok t =>
      Database.eth_getTransactionByHash transactionHash store =
        (Ok match store (Database.Q_getTransactionByHash (JS.VBuffer t)) with
            | Ok (row :: _) => Engine.exportJSON (JS.VObject row)
            | Ok [] => JS.VNull
            | Throw _ => JS.VNull
            end,
         [Database.Q_getTransactionByHash (JS.VBuffer t)])
  end.
Proof.
  unfold Database.eth_getTransactionByHash.
  destruct (Engine.hexToBytes transactionHash) as [t|e]; [|reflexivity].
  unfold Database.mbind, Database.try_catch, Database._query, Database.lift,
    Database.ret.
  destruct (store (Database.Q_getTransactionByHash (JS.VBuffer t))) as [[|row rows]|e];
    reflexivity.
Qed.

(** X17. [eth_getBlockByNumber] never fails, whatever its argument and
    whatever the store answers, and sends exactly one statement; a
    [0x]-prefixed argument reaches the store as a number, any other argument
    (a tag such as [latest], a decimal literal) as the string itself. *)
Theorem getBlockByNumber_never_fails (blockNumber : string) :
  exists v arg,
    Database.eth_getBlockByNumber blockNumber store =
      (Ok v, [Database.Q_getBlockByNumber arg]) /\
    (JS.startsWith blockNumber "0x" = true ->
       arg = JS.VNumber (JS.parseInt blockNumber 16)) /\
    (JS.startsWith blockNumber "0x" = false -> arg = JS.VString blockNumber) /\
    (forall e, store (Database.Q_getBlockByNumber arg) = Throw e -> v = JS.VNull).
Proof.
  unfold Database.eth_getBlockByNumber.
  unfold Database.mbind, Database.try_catch, Database._query, Database.ret.
  set (arg := if JS.startsWith blockNumber "0x"
              then JS.VNumber (JS.parseInt blockNumber 16)
              else JS.VString blockNumber).
  destruct (store (Database.Q_getBlockByNumber arg)) as [rows|e] eqn:E.
  - eexists. exists arg. split; [reflexivity|]. split; [|split].
    + intros H. unfold arg. rewrite H. reflexivity.
    + intros H. unfold arg. rewrite H. reflexivity.
    + intros e He. congruence.
  - exists JS.VNull. exists arg. split; [reflexivity|]. split; [|split].
    + intros H. unfold arg. rewrite H. reflexivity.
    + intros H. unfold arg. rewrite H. reflexivity.
    + reflexivity.
Qed.

(** X20. The kind of a filter decides what the two polling calls do. For a
    kind other than [block] and [event] (a pending-transaction filter, or
    anything else the row holds) both return the empty sequence after the
    kind lookup alone; for [block] and [event] they send one more statement,
    and the two calls differ only in the store function they name. *)
Theorem filter_kind_dispatch (filterID : string) (row : Database.record)
  (rows : list Database.record) :
  JS.is_zero (JS.parseInt filterID 16) = false ->
  store (Database.Q_filter_type (JS.parseInt filterID 16)) = Ok (row :: rows) ->
  let id := JS.parseInt filterID 16 in
  let kind := JS.get_field "type" row in
  (Database.is_string kind "block" = false ->
   Database.is_string kind "event" = false ->
   Database.eth_getFilterChanges filterID store =
     (Ok (JS.VArray []), [Database.Q_filter_type id]) /\
   Database.eth_getFilterLogs filterID store =
     (Ok (JS.VArray []), [Database.Q_filter_type id])) /\
  (Database.is_string kind "block" = true ->
   snd (Database.eth_getFilterChanges filterID store) =
     [Database.Q_filter_type id; Database.Q_getFilterChanges_block id] /\
   snd (Database.eth_getFilterLogs filterID store) =
     [Database.Q_filter_type id; Database.Q_getFilterLogs_block id]) /\
  (Database.is_string kind "event" = true ->
   Database.eth_getFilterChanges filterID store =
     (bind (store (Database.Q_getFilterChanges_event id))
           (fun rs => Ok (Engine.exportJSON (JS.VArray (map JS.VObject rs)))),
      [Database.Q_filter_type id; Database.Q_getFilterChanges_event id]) /\
   Database.eth_getFilterLogs filterID store =
     (bind (store (Database.Q_getFilterLogs_event id))
           (fun rs => Ok (Engine.exportJSON (JS.VArray (map JS.VObject rs)))),
      [Database.Q_filter_type id; Database.Q_getFilterLogs_event id])).
Proof.
  intros Hid Hrow id kind.
  unfold Database.eth_getFilterChanges, Database.eth_getFilterLogs.
  rewrite Hid. fold id.
  unfold Database.mbind, Database._query, Database.lift, Database.ret.
  fold id in Hrow. rewrite Hrow. cbn [Database.first_row_field]. fold kind.
  split; [|split].
  - intros Hb He. rewrite Hb, He. split; reflexivity.
  - intros Hb. rewrite Hb.
    destruct (store (Database.Q_getFilterChanges_block id)) as [r1|e1],
             (store (Database.Q_getFilterLogs_block id)) as [r2|e2]; cbn [snd app];
      repeat match goal with
             | |- context [Database.mapM ?f ?l] => destruct (Database.mapM f l)
             end; split; reflexivity.
  - intros He.
    assert (Hb : Database.is_string kind "block" = false).
    { destruct kind; try reflexivity. simpl in *.
      apply String.eqb_eq in He. subst. reflexivity. }
    rewrite Hb, He.
    destruct (store (Database.Q_getFilterChanges_event id)) as [r1|e1],
             (store (Database.Q_getFilterLogs_event id)) as [r2|e2]; split; reflexivity.
Qed.

End MoreHandlers.

Lemma filter_kind_dispatch_witness :
  Database.eth_getFilterChanges "0x5" (fun _ => Ok [[("type", JS.VString "transaction")]]) =
    (Ok (JS.VArray []), [Database.Q_filter_type (JS.Fin 5)]).
Proof.
  refine (proj1 (proj1 (filter_kind_dispatch
            (fun _ => Ok [[("type", JS.VString "transaction")]]) "0x5"
            [("type", JS.VString "transaction")] [] _ _) _ _)); reflexivity.
Defined.

(** ** The handlers that send one statement *)

Lemma parseInt_no_radix_0x body :
  JS.parseInt (String "0" (String "x" body)) 0 =
  JS.number_of_digits false 16 (JS.digits_prefix 16 body).
Proof. cbv -[JS.number_of_digits JS.digits_prefix]. reflexivity. Qed.

Lemma number_of_printed R n :
  2 <= R <= 36 -> 0 <= n <= 2 ^ 53 ->
  JS.number_of_digits false R (JS.digits_prefix R (Engine.string_of_digits (Engine.printed R n))) =
  JS.Fin n.
Proof.
  intros HR Hn.
  destruct (printed_spec R n) as (Hne & Hrange & Hval); [lia | lia |].
  rewrite digits_prefix_printed by (assumption || lia).
  unfold JS.number_of_digits. destruct (Engine.printed R n); [contradiction|].
  rewrite Hval.
  destruct (Z.eqb_spec n 0) as [->|Hnz]; [reflexivity|].
  apply to_double_small. lia.
Qed.

(** Without a radix, [parseInt] reads a quantity as hex and a decimal literal
    as decimal. *)
Lemma parseInt_no_radix n :
  0 <= n <= 2 ^ 53 ->
  JS.parseInt (Engine.intToHex n) 0 = JS.Fin n /\
  JS.parseInt (Engine.toString 10 n) 0 = JS.Fin n.
Proof.
  intros Hn. split.
  - unfold Engine.intToHex. rewrite toString_nonneg by lia.
    change ("0x" ++ ?s)%string with (String "0" (String "x" s)).
    rewrite parseInt_no_radix_0x. apply number_of_printed; lia.
  - rewrite toString_nonneg by lia.
    destruct (printed_spec 10 n) as (Hne & Hrange & _); [lia | lia |].
    assert (H36 : Forall (fun d => 0 <= d < 36) (Engine.printed 10 n))
      by (eapply Forall_impl; [|exact Hrange]; simpl; lia).
    unfold JS.parseInt. rewrite trim_start_printed by assumption.
    rewrite !printed_first_is by (assumption || reflexivity).
    cbn [orb]. change (0 =? 0) with true. cbn [negb andb orb].
    rewrite !printed_no_prefix by (assumption || reflexivity).
    cbn [orb]. apply number_of_printed; lia.
Qed.

Section OneStatement.
Context {engine : Engine.Lib}.
Variable intToHex : JS.value -> result JS.value.
Hypothesis intToHex_BigInt :
  forall z, intToHex (JS.VBigInt z) = Ok (JS.VString (Engine.intToHex z)).
Variable store : Rpc.store.

(** X16. The quantity that [eth_blockNumber] returns for a height up to 2^53
    is read back by [resolveBlockSpec] as that height: the answer of one call
    can be used as a block bound of [eth_getLogs]. *)
Theorem blockNumber_resolves_back (n : Z) (row : Database.record)
  (rows : list Database.record) (latest : JS.value) :
  0 <= n <= 2 ^ 53 ->
  store {| Rpc.text := "SELECT eth_blockNumber() AS result"; Rpc.params := [] |} =
    Ok (row :: rows) ->
  JS.get_field "result" row = JS.VBigInt n ->
  exists quantity,
    fst (Rpc.eth_blockNumber intToHex store) = Ok (JS.VString quantity) /\
    Database.resolveBlockSpec latest (Some quantity) = Ok (JS.VNumber (JS.Fin n)).
Proof.
  intros Hn Hstore Hfield. exists (Engine.intToHex n). split.
  - unfold Rpc.eth_blockNumber, Rpc.query_then, Rpc.hex_of_field. cbn [fst].
    rewrite Hstore. cbn [bind Database.first_row_field].
    rewrite Hfield. apply intToHex_BigInt.
  - unfold Database.resolveBlockSpec.
    rewrite !intToHex_not_a_tag by discriminate.
    rewrite parseInt_intToHex by assumption. reflexivity.
Qed.

(** X18. The id that [eth_newBlockFilter] hands out, passed back unchanged,
    reaches the store as the same integer in the kind lookup of the polling
    calls and in [eth_uninstallFilter], for ids from 1 to 2^53; creation and
    removal name the same placeholder client address. *)
Theorem newBlockFilter_id_round_trip (n : Z) (row : Database.record)
  (rows : list Database.record) (filters : Database.store) :
  0 < n <= 2 ^ 53 ->
  store {| Rpc.text := "SELECT eth_newBlockFilter($1) AS id";
           Rpc.params := [JS.VString "0.0.0.0"] |} = Ok (row :: rows) ->
  JS.get_field "id" row = JS.VBigInt n ->
  exists id,
    Rpc.eth_newBlockFilter intToHex store =
      (Ok (JS.VString id),
       [{| Rpc.text := "SELECT eth_newBlockFilter($1) AS id";
           Rpc.params := [JS.VString "0.0.0.0"] |}]) /\
    (exists rest, snd (Database.eth_getFilterChanges id filters) =
                    Database.Q_filter_type (JS.Fin n) :: rest) /\
    (exists rest, snd (Database.eth_uninstallFilter id filters) =
                    Database.Q_uninstallFilter "0.0.0.0" (JS.Fin n) :: rest).
Proof.
  intros Hn Hstore Hfield. exists (Engine.intToHex n). split; [|split].
  - unfold Rpc.eth_newBlockFilter, Rpc.query_then, Rpc.hex_of_field.
    rewrite Hstore. cbn [bind Database.first_row_field].
    rewrite Hfield, intToHex_BigInt. reflexivity.
  - unfold Database.eth_getFilterChanges. rewrite parseInt_intToHex by lia.
    cbn [JS.is_zero]. replace (n =? 0) with false by lia.
    unfold Database.mbind at 1, Database._query.
    destruct (filters (Database.Q_filter_type (JS.Fin n))); cbn [app snd];
      match goal with
      | |- context [let (_, _) := ?m in _] => destruct m; cbn [snd]; eauto
      | _ => eauto
      end.
  - unfold Database.eth_uninstallFilter. rewrite parseInt_intToHex by lia.
    cbn [JS.is_zero]. replace (n =? 0) with false by lia.
    unfold Database.mbind at 1, Database._query.
    destruct (filters (Database.Q_uninstallFilter "0.0.0.0" (JS.Fin n))); cbn [app snd];
      match goal with
      | |- context [let (_, _) := ?m in _] => destruct m; cbn [snd]; eauto
      | _ => eauto
      end.
Qed.

(** X19. [eth_getTransactionByBlockNumberAndIndex] never fails and sends one
    statement; block number and index are read without a radix, so each may
    be a hex quantity or a decimal literal, and heights and indices up to
    2^53 reach the store exactly. The answer is the first row, or [null] when
    there is none or the store raises. *)
Theorem getTransactionByBlockNumberAndIndex_outcomes (blockNumber transactionIndex : string)
  (n i : Z) :
  0 <= n <= 2 ^ 53 -> 0 <= i <= 2 ^ 53 ->
  blockNumber = Engine.intToHex n \/ blockNumber = Engine.toString 10 n ->
  transactionIndex = Engine.intToHex i \/ transactionIndex = Engine.toString 10 i ->
  let sent :=
    {| Rpc.text := "SELECT * FROM eth_getTransactionByBlockNumberAndIndex($1::blockno, $2::int)";
       Rpc.params := [JS.VNumber (JS.Fin n); JS.VNumber (JS.Fin i)] |} in
  Rpc.eth_getTransactionByBlockNumberAndIndex blockNumber transactionIndex store =
    (Ok match store sent with
        | Ok (row :: _) => Engine.exportJSON (JS.VObject row)
        | Ok [] => JS.VNull
        | Throw _ => JS.VNull
        end, [sent]).
Proof.
  intros Hn Hi Hblock Hindex sent.
  assert (Hpn : JS.parseInt blockNumber 0 = JS.Fin n)
    by (destruct Hblock as [-> | ->]; apply parseInt_no_radix; assumption).
  assert (Hpi : JS.parseInt transactionIndex 0 = JS.Fin i)
    by (destruct Hindex as [-> | ->]; apply parseInt_no_radix; assumption).
  unfold Rpc.eth_getTransactionByBlockNumberAndIndex, Rpc.query_or_null.
  rewrite Hpn, Hpi. fold sent.
  destruct (store sent) as [[|row rows]|e]; reflexivity.
Qed.

(** X21. The count handlers and [eth_blockNumber] catch nothing: an error of
    the store is the error of the call, and an answer without rows ends in
    the TypeError of the destructuring; with a row, the answer is the
    quantity of its [result] column. *)
Theorem count_handlers_outcomes (blockNumber : string) :
  let sent :=
    {| Rpc.text := "SELECT eth_getBlockTransactionCountByNumber($1) AS result";
       Rpc.params := [Rpc.number_argument blockNumber] |} in
  Rpc.eth_getBlockTransactionCountByNumber intToHex blockNumber store =
    (match store sent with
     | Throw e => Throw e
     | Ok [] => Throw "TypeError: Cannot destructure property 'result' of 'undefined' as it is undefined."
     | Ok (row :: _) => intToHex (JS.get_field "result" row)
     end, [sent]) /\
  (forall e, (forall s, store s = Throw e) ->
     fst (Rpc.eth_blockNumber intToHex store) = Throw e /\
     fst (Rpc.eth_getUncleCountByBlockNumber intToHex blockNumber store) = Throw e /\
     fst (Rpc.eth_newPendingTransactionFilter intToHex store) = Throw e).
Proof.
  intros sent. split.
  - unfold Rpc.eth_getBlockTransactionCountByNumber, Rpc.query_then, Rpc.hex_of_field.
    fold sent. destruct (store sent) as [[|row rows]|e]; reflexivity.
  - intros e He.
    unfold Rpc.eth_blockNumber, Rpc.eth_getUncleCountByBlockNumber,
      Rpc.eth_newPendingTransactionFilter, Rpc.query_then. cbn [fst].
    rewrite !He. repeat split.
Qed.

(** X24. The handlers that take a block hash decode it before they touch the
    store: when decoding fails the call fails with that error and sends
    nothing. The two count handlers decode only a [0x]-prefixed hash and pass
    any other string to the store as it is; the transaction lookup decodes
    every hash, and once the hash decodes it never fails. *)
Theorem hash_handlers_outcomes (blockHash transactionIndex : string) :
  (forall e, Engine.hexToBytes blockHash = Throw e ->
     Rpc.eth_getTransactionByBlockHashAndIndex blockHash transactionIndex store =
       (Throw e, []) /\
     (JS.startsWith blockHash "0x" = true ->
      Rpc.eth_getBlockTransactionCountByHash intToHex blockHash store = (Throw e, []) /\
      Rpc.eth_getUncleCountByBlockHash intToHex blockHash store = (Throw e, []))) /\
  (JS.startsWith blockHash "0x" = false ->
   snd (Rpc.eth_getBlockTransactionCountByHash intToHex blockHash store) =
     [{| Rpc.text := "SELECT eth_getBlockTransactionCountByHash($1) AS result";
         Rpc.params := [JS.VString blockHash] |}] /\
   snd (Rpc.eth_getUncleCountByBlockHash intToHex blockHash store) =
     [{| Rpc.text := "SELECT eth_getUncleCountByBlockHash($1) AS result";
         Rpc.params := [JS.VString blockHash] |}]) /\
  (forall b, Engine.hexToBytes blockHash = Ok b ->
     let sent :=
       {| Rpc.text := "SELECT * FROM eth_getTransactionByBlockHashAndIndex($1::hash, $2::int)";
          Rpc.params := [JS.VBuffer b; JS.VNumber (JS.parseInt transactionIndex 0)] |} in
     Rpc.eth_getTransactionByBlockHashAndIndex blockHash transactionIndex store =
       (Ok match store sent with
           | Ok (row :: _) => Engine.exportJSON (JS.VObject row)
           | Ok [] => JS.VNull
           | Throw _ => JS.VNull
           end, [sent])).
Proof.
  unfold Rpc.eth_getTransactionByBlockHashAndIndex, Rpc.eth_getBlockTransactionCountByHash,
    Rpc.eth_getUncleCountByBlockHash, Rpc.with_argument, Rpc.hash_argument.
  split; [|split].
  - intros e He. rewrite He. cbn [bind]. split; [reflexivity|].
    intros H0x. rewrite H0x. split; reflexivity.
  - intros H0x. rewrite H0x. split; reflexivity.
  - intros b Hb. rewrite Hb. cbn [bind]. unfold Rpc.query_or_null. cbv zeta.
    match goal with |- context [store ?q] => destruct (store q) as [[|row rows]|e] end;
      reflexivity.
Qed.

End OneStatement.

Lemma blockNumber_resolves_back_witness :
  exists quantity,
    fst (Rpc.eth_blockNumber Rpc.reference_intToHex
           (fun _ => Ok [[("result", JS.VBigInt 255)]])) = Ok (JS.VString quantity) /\
    Database.resolveBlockSpec JS.VNull (Some quantity) = Ok (JS.VNumber (JS.Fin 255)).
Proof.
  apply (blockNumber_resolves_back Rpc.reference_intToHex (fun z => eq_refl)
           (fun _ => Ok [[("result", JS.VBigInt 255)]]) 255
           [("result", JS.VBigInt 255)] [] JS.VNull); solve [ lia | reflexivity ].
Defined.

Lemma newBlockFilter_id_round_trip_witness :
  exists id,
    Rpc.eth_newBlockFilter Rpc.reference_intToHex (fun _ => Ok [[("id", JS.VBigInt 7)]]) =
      (Ok (JS.VString id),
       [{| Rpc.text := "SELECT eth_newBlockFilter($1) AS id";
           Rpc.params := [JS.VString "0.0.0.0"] |}]) /\
    (exists rest, snd (Database.eth_getFilterChanges id (fun _ => Ok [])) =
                    Database.Q_filter_type (JS.Fin 7) :: rest) /\
    (exists rest, snd (Database.eth_uninstallFilter id (fun _ => Ok [])) =
                    Database.Q_uninstallFilter "0.0.0.0" (JS.Fin 7) :: rest).
Proof.
  apply (newBlockFilter_id_round_trip Rpc.reference_intToHex (fun z => eq_refl)
           (fun _ => Ok [[("id", JS.VBigInt 7)]]) 7 [("id", JS.VBigInt 7)] []
           (fun _ => Ok [])); solve [ lia | reflexivity ].
Defined.

Lemma getTransactionByBlockNumberAndIndex_outcomes_witness :
  Rpc.eth_getTransactionByBlockNumberAndIndex "0x10" "3" (fun _ => Ok []) =
  (Ok JS.VNull,
   [{| Rpc.text := "SELECT * FROM eth_getTransactionByBlockNumberAndIndex($1::blockno, $2::int)";
       Rpc.params := [JS.VNumber (JS.Fin 16); JS.VNumber (JS.Fin 3)] |}]).
Proof.
  apply (getTransactionByBlockNumberAndIndex_outcomes (fun _ => Ok []) "0x10" "3" 16 3);
    solve [ lia | left; reflexivity | right; reflexivity ].
Defined.

(** ** More on the indexer *)

Section IndexerMore.
Import Indexer.
Context {engine : Engine.Lib}.
Variable chainID : Z.

Lemma transaction_rows_nth (blockID : Z) (txs : list Transaction) :
  forall k rows i t,
  Expect.transaction_rows blockID k txs = Ok rows ->
  nth_error txs i = Some t ->
  exists r, nth_error rows i = Some r /\
            transaction_query blockID (k + Z.of_nat i) t = Ok r.
Proof.
  induction txs as [|t0 txs IH]; intros k rows [|i] t Hrows H; simpl in H;
    try discriminate; cbn [Expect.transaction_rows] in Hrows;
    destruct (transaction_query blockID k t0) as [row|e] eqn:Hrow; try discriminate;
    cbn [bind] in Hrows;
    destruct (Expect.transaction_rows blockID (k + 1) txs) as [rows'|e] eqn:Hrows';
    try discriminate; injection Hrows as <-.
  - injection H as <-. exists row. rewrite Z.add_0_r. split; [reflexivity | exact Hrow].
  - destruct (IH (k + 1) rows' i t Hrows' H) as (r & Hr & Hq).
    exists r. split; [exact Hr|]. rewrite <- Hq. f_equal. lia.
Qed.

Lemma transaction_rows_length (blockID : Z) (txs : list Transaction) :
  forall k rows,
  Expect.transaction_rows blockID k txs = Ok rows ->
  List.length rows = List.length txs.
Proof.
  induction txs as [|t0 txs IH]; intros k rows Hrows; cbn [Expect.transaction_rows] in Hrows.
  - injection Hrows as <-. reflexivity.
  - destruct (transaction_query blockID k t0); [|discriminate]. cbn [bind] in Hrows.
    destruct (Expect.transaction_rows blockID (k + 1) txs) as [rows'|] eqn:Hrows';
      [|discriminate].
    injection Hrows as <-. cbn [List.length]. rewrite (IH _ _ Hrows'). reflexivity.
Qed.

(** X9. When a fetched block can be turned into rows and the store rejects
    none of them, [indexBlock] returns with the block row written and the
    rows of its transactions written after the rows the table already holds,
    in the order of the source, each under the requested height and with its
    position in the block, counted from 0, as index. *)
Theorem indexBlock_transaction_indices (account : string) (blockID : Z) (w : world)
  (a : answer) (b : BlockMetadata) (row : BlockRow) (rows : list TransactionRow)
  (rest : list answer) :
  a blockID = Produced b None ->
  block_query chainID b = Ok row ->
  Expect.transaction_rows blockID 0 (transactions b) = Ok rows ->
  Z.of_nat (List.length (transactions b)) <= 2 ^ 53 ->
  indexBlock chainID (Ok account) blockID w (a :: rest) =
    Indexed {| db := {| block_table := block_table (db w) ++ [row];
                        transaction_table := transaction_table (db w) ++ rows |};
               trace := trace w ++ [GetBlock blockID; Insert_block row] ++
                        map Insert_transaction rows |} rest /\
  List.length rows = List.length (transactions b) /\
  forall i t, nth_error (transactions b) i = Some t ->
    exists r, nth_error rows i = Some r /\
              block r = blockID /\ index r = Z.of_nat i /\ transaction_source r = t /\
              transaction_query blockID (Z.of_nat i) t = Ok r.
Proof.
  intros Ha Hrow Hrows Hlen.
  split; [apply (indexBlock_persists chainID account a blockID b); assumption|].
  split; [apply (transaction_rows_length blockID _ 0); exact Hrows|].
  intros i t Hi.
  destruct (transaction_rows_nth blockID _ 0 rows i t Hrows Hi) as (r & Hr & Hq).
  cbn [Z.add] in Hq. exists r. split; [exact Hr|].
  destruct (transaction_query_row _ _ _ _ Hq) as (H1 & H2 & H3).
  repeat split; assumption.
Qed.

(** Whatever a call of [indexBlock] ends in, both tables have only grown at
    their end, and the new transaction rows carry the requested height. *)
Lemma indexBlock_grows (contractID : result string) (answers : list answer)
  (blockID : Z) (w : world) :
  match indexBlock chainID contractID blockID w answers with
  | Waiting w' | Indexed w' _ | Crashed w' _ =>
      exists bs ts,
        block_table (db w') = block_table (db w) ++ bs /\
        transaction_table (db w') = transaction_table (db w) ++ ts /\
        Forall (fun r => block r = blockID) ts
  end.
Proof.
  pose proof (indexBlock_result chainID contractID answers blockID w) as H.
  destruct (indexBlock chainID contractID blockID w answers) as [w'|w' rest|w' e].
  - exists [], []. rewrite H, !app_nil_r. repeat split. constructor.
  - destruct H as (waits & a & b & fault & row & ts & _ & _ & _ & _ & Hb & Ht & Hall & _).
    exists [row], ts. repeat split; assumption.
  - destruct H as [H | (a & b & fault & row & ts & _ & _ & _ & Hb & Ht & Hall)].
    + exists [], []. rewrite H, !app_nil_r. repeat split. constructor.
    + exists [row], ts. repeat split; assumption.
Qed.

Lemma loop_appends (contractID : result string) (fuel : nat) :
  forall blockID w answers,
  blockID + Z.of_nat (List.length answers) <= 2 ^ 53 ->
  exists bs ts,
    block_table (store_of (loop chainID contractID fuel blockID w answers)) =
      block_table (db w) ++ bs /\
    transaction_table (store_of (loop chainID contractID fuel blockID w answers)) =
      transaction_table (db w) ++ ts /\
    Forall (fun r => blockID <= block r) ts.
Proof.
  induction fuel as [|fuel IH]; intros blockID w answers Hbound; cbn [loop store_of].
  - exists [], []. rewrite !app_nil_r. repeat split. constructor.
  - pose proof (indexBlock_grows contractID answers blockID w) as Happ.
    pose proof (indexBlock_result chainID contractID answers blockID w) as Hres.
    assert (Hle : forall ts, Forall (fun r => block r = blockID) ts ->
                             Forall (fun r => blockID <= block r) ts)
      by (intros ts Hts; eapply Forall_impl; [|exact Hts]; simpl; intros; lia).
    destruct (indexBlock chainID contractID blockID w answers) as [w1|w1 rest|w1 e];
      cbn [store_of].
    + destruct Happ as (bs & ts & Hb & Ht & Hall). exists bs, ts. auto.
    + destruct Happ as (bs & ts & Hb & Ht & Hall).
      destruct Hres as (waits & a & b & fault & row & ts0 & Heq & _).
      assert (Hlen : (List.length rest < List.length answers)%nat)
        by (rewrite Heq, length_app; cbn [List.length]; lia).
      destruct (IH (JS.add_one blockID) w1 rest) as (bs' & ts' & Hb' & Ht' & Hall').
      * rewrite add_one_exact by lia. lia.
      * exists (bs ++ bs'), (ts ++ ts'). rewrite Hb', Ht', Hb, Ht, <- !app_assoc.
        repeat split. apply Forall_app. split; [auto|].
        eapply Forall_impl; [|exact Hall']. simpl. intros r Hr.
        rewrite add_one_exact in Hr by lia. lia.
    + destruct Happ as (bs & ts & Hb & Ht & Hall). exists bs, ts. auto.
Qed.

Lemma start_appends (contractID : result string) (database : Store)
  (answers : list answer) (n : nat) :
  heights database = Spec.upto n ->
  Z.of_nat n + Z.of_nat (List.length answers) <= 2 ^ 31 ->
  exists bs ts,
    block_table (store_of (start chainID contractID database answers)) =
      block_table database ++ bs /\
    transaction_table (store_of (start chainID contractID database answers)) =
      transaction_table database ++ ts /\
    Forall (fun r => Z.of_nat n <= block r) ts.
Proof.
  intros Hh Hbound. unfold start. rewrite (resume_at_upto database n Hh) by lia.
  apply (loop_appends contractID _ (Z.of_nat n)
           {| db := database; trace := [Select_max_id] |}).
  lia.
Qed.

(** X12. Start-up looks at the greatest recorded height alone: whatever the
    order of the rows and whatever heights are missing below it, the indexer
    resumes one above it when it fits 32 bits, and start-up fails when it
    does not. Heights missing below the maximum are not requested again. *)
Theorem resume_at_greatest_height (database : Store) (m : Z) :
  In m (heights database) ->
  (forall x, In x (heights database) -> x <= m) ->
  (- 2 ^ 31 <= m < 2 ^ 31 -> resume_at database = Ok (m + 1)) /\
  (2 ^ 31 <= m -> resume_at database = Throw "integer out of range").
Proof.
  intros Hin Hmax.
  assert (Hm : max_id (block_table database) = Some m).
  { unfold max_id. rewrite max_id_map. fold (heights database).
    destruct (heights database) as [|a l]; [contradiction|].
    cbn [fold_left]. apply max_fold; assumption. }
  unfold resume_at. rewrite Hm. unfold cast_int. split; intros Hr.
  - destruct (Z.leb_spec (- 2 ^ 31) m); [|lia].
    destruct (Z.ltb_spec m (2 ^ 31)); [|lia].
    cbn [andb bind]. rewrite add_one_exact by lia. reflexivity.
  - destruct (Z.ltb_spec m (2 ^ 31)); [lia|]. rewrite andb_false_r. reflexivity.
Qed.

Lemma loop_grows (contractID : result string) (fuel : nat) :
  forall blockID w answers,
  exists bs ts,
    block_table (store_of (loop chainID contractID fuel blockID w answers)) =
      block_table (db w) ++ bs /\
    transaction_table (store_of (loop chainID contractID fuel blockID w answers)) =
      transaction_table (db w) ++ ts.
Proof.
  induction fuel as [|fuel IH]; intros blockID w answers; cbn [loop store_of].
  - exists [], []. rewrite !app_nil_r. split; reflexivity.
  - pose proof (indexBlock_grows contractID answers blockID w) as Happ.
    destruct (indexBlock chainID contractID blockID w answers) as [w1|w1 rest|w1 e];
      cbn [store_of]; destruct Happ as (bs & ts & Hb & Ht & _).
    + exists bs, ts. auto.
    + destruct (IH (JS.add_one blockID) w1 rest) as (bs' & ts' & Hb' & Ht').
      exists (bs ++ bs'), (ts ++ ts'). rewrite Hb', Ht', Hb, Ht, <- !app_assoc.
      split; reflexivity.
    + exists bs, ts. auto.
Qed.

Lemma start_grows (contractID : result string) (database : Store)
  (answers : list answer) :
  exists bs ts,
    block_table (store_of (start chainID contractID database answers)) =
      block_table database ++ bs /\
    transaction_table (store_of (start chainID contractID database answers)) =
      transaction_table database ++ ts.
Proof.
  unfold start. destruct (resume_at database) as [blockID|e].
  - apply (loop_grows contractID _ blockID {| db := database; trace := [Select_max_id] |}).
  - exists [], []. cbn [store_of db]. rewrite !app_nil_r. split; reflexivity.
Qed.

(** X10. The indexer never removes or rewrites a row: after any sequence of
    runs and restarts, on any store, both tables consist of the rows they held
    before, in the same order, followed by the new rows. *)
Theorem indexer_append_only (contractID : result string)
  (runs : list (list answer)) : forall database : Store,
  exists bs ts,
    block_table (sessions chainID contractID database runs) =
      block_table database ++ bs /\
    transaction_table (sessions chainID contractID database runs) =
      transaction_table database ++ ts.
Proof.
  induction runs as [|answers runs IH]; intros database; cbn [sessions].
  - exists [], []. rewrite !app_nil_r. split; reflexivity.
  - destruct (start_grows contractID database answers) as (bs & ts & Hb & Ht).
    destruct (IH (store_of (start chainID contractID database answers)))
      as (bs' & ts' & Hb' & Ht').
    exists (bs ++ bs'), (ts ++ ts'). rewrite Hb', Ht', Hb, Ht, <- !app_assoc.
    split; reflexivity.
Qed.

(** X11. The block row and the transaction rows are written by separate
    statements. When the store rejects the insert of transaction [j] of
    block [n], the process stops with the block row and the transactions
    before the rejected one in the store. The next start resumes at [n + 1]:
    every transaction row written from then on belongs to a later block, so
    the remaining transactions of block [n] are never recorded. *)
Theorem indexer_partial_block_is_skipped (account : string) (database : Store)
  (n : nat) (waits : list answer) (a : answer) (b : BlockMetadata) (row : BlockRow)
  (pre : list Transaction) (t : Transaction) (post : list Transaction)
  (rows : list TransactionRow) (rejected : TransactionRow)
  (rest later : list answer) :
  heights database = Spec.upto n ->
  Forall (fun a' => a' (Z.of_nat n) = NotProduced) waits ->
  a (Z.of_nat n) = Produced b (Some (S (List.length pre))) ->
  number b = Z.of_nat n ->
  block_query chainID b = Ok row ->
  transactions b = pre ++ t :: post ->
  Expect.transaction_rows (Z.of_nat n) 0 pre = Ok rows ->
  transaction_query (Z.of_nat n) (Z.of_nat (List.length pre)) t = Ok rejected ->
  Z.of_nat (List.length pre) <= 2 ^ 53 ->
  Z.of_nat n + 1 + Z.of_nat (List.length later) <= 2 ^ 31 ->
  exists w,
    start chainID (Ok account) database (waits ++ a :: rest) =
      Stopped w "query failed" /\
    block_table (db w) = block_table database ++ [row] /\
    heights (db w) = Spec.upto (S n) /\
    transaction_table (db w) = transaction_table database ++ rows /\
    resume_at (db w) = Ok (Z.of_nat n + 1) /\
    exists ts,
      transaction_table (store_of (start chainID (Ok account) (db w) later)) =
        transaction_table (db w) ++ ts /\
      Forall (fun r => Z.of_nat n + 1 <= block r) ts.
Proof.
  intros Hh Hwaits Ha Hnum Hrow Htxs Hrows Hrejected Hlen Hbound.
  unfold start at 1. rewrite (resume_at_upto database n Hh) by lia.
  cbn [loop]. rewrite indexBlock_waits by assumption.
  cbn [indexBlock]. rewrite Ha, Hrow, Htxs. cbn [option_map Nat.pred].
  rewrite (indexTransactions_app pre (Z.of_nat n) 0 rows (t :: post)
             (Some (List.length pre)) _ Hrows) by (cbn [Z.add]; lia).
  cbn [option_map]. rewrite Nat.sub_diag. cbn [indexTransactions Z.add].
  unfold indexTransaction. rewrite Hrejected.
  eexists. split; [reflexivity|].
  cbn [did insert_block db block_table transaction_table].
  assert (Hheights : heights
            {| block_table := block_table database ++ [row];
               transaction_table := transaction_table database ++ rows |} =
            Spec.upto (S n)).
  { unfold heights in *. cbn [block_table]. rewrite map_app, Hh, upto_S.
    apply block_query_row in Hrow as (_ & Hid & _). cbn [map]. rewrite Hid, Hnum.
    reflexivity. }
  split; [reflexivity|]. split; [exact Hheights|]. split; [reflexivity|]. split.
  - rewrite (resume_at_upto _ (S n) Hheights) by lia. f_equal. lia.
  - destruct (start_appends (Ok account) _ later (S n) Hheights)
      as (bs & ts & _ & Ht & Hall); [lia|].
    exists ts. split; [exact Ht|].
    eapply Forall_impl; [|exact Hall]. simpl. intros r Hr. lia.
Qed.

End IndexerMore.

Lemma indexBlock_transaction_indices_witness :
  Indexer.indexBlock 1313161554 (Ok "aurora") 4
    {| Indexer.db := Indexer.empty_store; Indexer.trace := [] |}
    [fun h => Indexer.Produced (Spec.busy_block h) None] =
  Indexer.Indexed
    {| Indexer.db :=
         {| Indexer.block_table := [Spec.busy_row 1313161554 4];
            Indexer.transaction_table := [Spec.transfer_row 4 0; Spec.transfer_row 4 1] |};
       Indexer.trace := [Indexer.GetBlock 4;
                         Indexer.Insert_block (Spec.busy_row 1313161554 4);
                         Indexer.Insert_transaction (Spec.transfer_row 4 0);
                         Indexer.Insert_transaction (Spec.transfer_row 4 1)] |} [].
Proof.
  refine (proj1 (indexBlock_transaction_indices 1313161554 "aurora" 4
    {| Indexer.db := Indexer.empty_store; Indexer.trace := [] |}
    (fun h => Indexer.Produced (Spec.busy_block h) None)
    (Spec.busy_block 4) (Spec.busy_row 1313161554 4)
    [Spec.transfer_row 4 0; Spec.transfer_row 4 1] [] _ _ _ _)).
  - reflexivity.
  - reflexivity.
  - reflexivity.
  - simpl. lia.
Defined.

Lemma resume_at_greatest_height_witness :
  Indexer.resume_at
    {| Indexer.block_table := [Spec.plain_row 1 5; Spec.plain_row 1 2];
       Indexer.transaction_table := [] |} = Ok 6.
Proof.
  refine (proj1 (resume_at_greatest_height _ 5 _ _) _).
  - simpl. auto.
  - simpl. intros x [<- | [<- | []]]; lia.
  - lia.
Defined.

Lemma indexer_partial_block_is_skipped_witness :
  exists w,
    Indexer.start 1313161554 (Ok "aurora") Indexer.empty_store
      [Spec.not_produced;
       fun h => Indexer.Produced (Spec.busy_block h) (Some 2%nat)] =
      Indexer.Stopped w "query failed" /\
    Indexer.block_table (Indexer.db w) = [Spec.busy_row 1313161554 0] /\
    Indexer.transaction_table (Indexer.db w) = [Spec.transfer_row 0 0] /\
    Indexer.resume_at (Indexer.db w) = Ok 1.
Proof.
  destruct (indexer_partial_block_is_skipped 1313161554 "aurora" Indexer.empty_store
    0 [Spec.not_produced]
    (fun h => Indexer.Produced (Spec.busy_block h) (Some 2%nat))
    (Spec.busy_block 0) (Spec.busy_row 1313161554 0)
    [Spec.transfer 0] (Spec.transfer 1) [] [Spec.transfer_row 0 0]
    (Spec.transfer_row 0 1) [] [])
    as (w & Hrun & Hblocks & _ & Htx & Hresume & _).
  - reflexivity.
  - repeat constructor.
  - reflexivity.
  - reflexivity.
  - reflexivity.
  - reflexivity.
  - reflexivity.
  - reflexivity.
  - simpl. lia.
  - simpl. lia.
  - exists w. split; [exact Hrun|]. split; [exact Hblocks|].
    split; [exact Htx | exact Hresume].
Defined.

(** ** Argument checks and error codes *)

Lemma to_double_negative m :
  0 < m <= 2 ^ 53 -> JS.to_double true m = JS.Fin (- m).
Proof.
  intros H. unfold JS.to_double. rewrite round_nearest_even_small by lia.
  destruct (Z.leb_spec (2 ^ 1024) m) as [Hbig|_]; [|reflexivity].
  exfalso. assert (2 ^ 53 < 2 ^ 1024) by (apply Z.pow_lt_mono_r; lia). lia.
Qed.

(** X14. [expectArgs] lets a call pass exactly when the argument list is
    absent or its length lies between [min] and [max]; a list that is too
    short raises MissingArgument for index [min - 1] (also when it is too long
    as well, which needs [max < min]), a list that is only too long raises
    TooManyArguments. Both carry code -32602, never the code -32601 of an
    unsupported or unimplemented method; an empty custom message falls back
    to the default text. The bounds are doubles: [min - 1] is exact for a
    [min] between -2^53 and 2^53, and bounds that are NaN check nothing. *)
Theorem expectArgs_outcomes (Number_toString : JS.number -> string)
  (args : option (list JS.value)) (min max : Z)
  (minMsg : option string) (method : string) :
  (Errors.expectArgs Number_toString args (JS.Fin min) (JS.Fin max) minMsg =
     Errors.Returned tt <->
   args = None \/
   exists l, args = Some l /\ min <= Z.of_nat (List.length l) <= max) /\
  (forall l, args = Some l -> Z.of_nat (List.length l) < min ->
     Errors.expectArgs Number_toString args (JS.Fin min) (JS.Fin max) minMsg =
       Errors.Raised (Errors.MissingArgument Number_toString
                        (JS.sub_one (JS.Fin min)) minMsg)) /\
  (- 2 ^ 53 < min <= 2 ^ 53 -> JS.sub_one (JS.Fin min) = JS.Fin (min - 1)) /\
  (forall l, args = Some l -> min <= Z.of_nat (List.length l) ->
     max < Z.of_nat (List.length l) ->
     Errors.expectArgs Number_toString args (JS.Fin min) (JS.Fin max) minMsg =
       Errors.Raised (Errors.TooManyArguments Number_toString (JS.Fin max))) /\
  (forall lower upper e,
     Errors.expectArgs Number_toString args lower upper minMsg = Errors.Raised e ->
     Errors.code e = -32602) /\
  Errors.expectArgs Number_toString args JS.NaN JS.NaN minMsg = Errors.Returned tt /\
  Errors.unsupported method = Errors.Raised (Errors.UnsupportedMethod method) /\
  Errors.unimplemented method = Errors.Raised (Errors.UnimplementedMethod method) /\
  Errors.code (Errors.UnsupportedMethod method) = -32601 /\
  Errors.code (Errors.UnimplementedMethod method) = -32601 /\
  Errors.MissingArgument Number_toString (JS.sub_one (JS.Fin min)) (Some "") =
    Errors.MissingArgument Number_toString (JS.sub_one (JS.Fin min)) None.
Proof.
  unfold Errors.expectArgs.
  split; [|split; [|split; [|split; [|split; [|split; [|repeat split]]]]]].
  - destruct args as [l|]; [|split; auto].
    cbn [JS.number_lt JS.real].
    destruct (Z.ltb_spec (Z.of_nat (List.length l)) min);
      [|destruct (Z.ltb_spec max (Z.of_nat (List.length l)))].
    + split; [discriminate | intros [H0 | (l' & Hl & Hr)]; [discriminate|]].
      injection Hl as <-. lia.
    + split; [discriminate | intros [H1 | (l' & Hl & Hr)]; [discriminate|]].
      injection Hl as <-. lia.
    + split; [intros _; right; exists l; split; [reflexivity | lia] | reflexivity].
  - intros l -> Hlt. cbn [JS.number_lt JS.real].
    destruct (Z.ltb_spec (Z.of_nat (List.length l)) min); [reflexivity | lia].
  - intros Hmin. cbn [JS.sub_one].
    destruct (Z.eqb_spec (min - 1) 0) as [->|Hnz]; [reflexivity|].
    destruct (Z.ltb_spec (min - 1) 0).
    + rewrite to_double_negative by lia. f_equal. lia.
    + rewrite to_double_small by lia. f_equal. lia.
  - intros l -> Hge Hgt. cbn [JS.number_lt JS.real].
    destruct (Z.ltb_spec (Z.of_nat (List.length l)) min); [lia|].
    destruct (Z.ltb_spec max (Z.of_nat (List.length l))); [reflexivity | lia].
  - intros lower upper e. destruct args as [l|]; [|discriminate].
    destruct (JS.number_lt _ lower); [|destruct (JS.number_lt upper _)];
      intros H; try discriminate; injection H as <-; reflexivity.
  - destruct args; reflexivity.
Qed.

(** ** Literals that [resolveBlockSpec] accepts *)

Lemma parseInt_minus_0x body :
  JS.parseInt (String "-" (String "0" (String "x" body))) 16 =
  JS.number_of_digits true 16 (JS.digits_prefix 16 body).
Proof. cbv -[JS.number_of_digits JS.digits_prefix]. reflexivity. Qed.

Lemma hex_digits_no_prefix ds a :
  Forall (fun d => 0 <= d < 16) ds ->
  JS.startsWith (Engine.string_of_digits ds) (String a (String "x" "")) = false /\
  JS.startsWith (Engine.string_of_digits ds) (String a (String "X" "")) = false.
Proof.
  intros H. destruct H as [|d1 ds Hd1 H]; [split; reflexivity|].
  destruct H as [|d2 ds Hd2 H]; simpl.
  - split; apply andb_false_r.
  - rewrite (digit_char_neq 16 d2 "x"), (digit_char_neq 16 d2 "X")
      by (assumption || lia || reflexivity).
    split; apply andb_false_r.
Qed.

Lemma hex_digits_first_is ds c :
  Forall (fun d => 0 <= d < 16) ds -> JS.radix_digit 16 c = None ->
  JS.first_is c (Engine.string_of_digits ds) = false.
Proof.
  intros H Hc. destruct H as [|d ds Hd _]; [reflexivity|]. simpl.
  apply (digit_char_neq 16); (assumption || lia).
Qed.

Lemma printed_not_tag n tag :
  0 <= n ->
  (exists c, In c (list_ascii_of_string tag) /\ JS.radix_digit 16 c = None) ->
  (Engine.toString 16 n =? tag)%string = false.
Proof.
  intros Hn (c & Hc & Hnot). apply String.eqb_neq. intros Heq.
  rewrite toString_nonneg in Heq by assumption.
  destruct (printed_spec 16 n) as (_ & Hrange & _); [lia | lia |].
  rewrite <- Heq in Hc. clear Heq.
  induction Hrange as [|d ds Hd _ IH]; simpl in Hc; [contradiction|].
  destruct Hc as [<- | Hc]; [|auto].
  rewrite radix_digit_char in Hnot by lia. discriminate.
Qed.

(** X22. [resolveBlockSpec] reads a literal with [parseInt(spec, 16)], so it
    also accepts what is no quantity: hex digits without the [0x] prefix
    resolve to their hex value (the literal [10] is height 16), and a literal
    with a minus sign resolves to a negative height instead of being
    rejected. *)
Theorem resolveBlockSpec_lenient (latest : JS.value) (n : Z) :
  0 < n <= 2 ^ 53 ->
  Database.resolveBlockSpec latest (Some (Engine.toString 16 n)) =
    Ok (JS.VNumber (JS.Fin n)) /\
  Database.resolveBlockSpec latest (Some (String "-" (Engine.intToHex n))) =
    Ok (JS.VNumber (JS.Fin (- n))) /\
  Database.resolveBlockSpec latest (Some "10") = Ok (JS.VNumber (JS.Fin 16)).
Proof.
  intros Hn. split; [|split; [|reflexivity]].
  - unfold Database.resolveBlockSpec.
    rewrite !printed_not_tag;
      try lia;
      try (exists "r"%char; split; [simpl; tauto | reflexivity]);
      try (exists "l"%char; split; [simpl; tauto | reflexivity]);
      try (exists "p"%char; split; [simpl; tauto | reflexivity]).
    rewrite toString_nonneg by lia.
    destruct (printed_spec 16 n) as (Hne & Hrange & Hval); [lia | lia |].
    assert (H36 : Forall (fun d => 0 <= d < 36) (Engine.printed 16 n))
      by (eapply Forall_impl; [|exact Hrange]; simpl; lia).
    unfold JS.parseInt. rewrite trim_start_printed by assumption.
    rewrite !hex_digits_first_is by (assumption || reflexivity).
    cbn [orb]. change (16 =? 0) with false. change (16 =? 16) with true.
    change (16 <? 2) with false. change (36 <? 16) with false.
    cbn [negb andb orb].
    destruct (hex_digits_no_prefix (Engine.printed 16 n) "0" Hrange) as [-> ->].
    cbn [orb]. rewrite digits_prefix_printed by (assumption || lia).
    unfold JS.number_of_digits. destruct (Engine.printed 16 n); [contradiction|].
    rewrite Hval. replace (n =? 0) with false by lia. cbn [JS.isNaN].
    rewrite to_double_small by lia. reflexivity.
  - unfold Database.resolveBlockSpec, Engine.intToHex.
    rewrite toString_nonneg by lia.
    change ("0x" ++ ?s)%string with (String "0" (String "x" s)).
    cbn [String.eqb Ascii.eqb Bool.eqb].
    rewrite parseInt_minus_0x.
    destruct (printed_spec 16 n) as (Hne & Hrange & Hval); [lia | lia |].
    rewrite digits_prefix_printed by (assumption || lia).
    unfold JS.number_of_digits. destruct (Engine.printed 16 n); [contradiction|].
    rewrite Hval. replace (n =? 0) with false by lia.
    rewrite to_double_negative by lia. reflexivity.
Qed.

Lemma resolveBlockSpec_lenient_witness :
  Database.resolveBlockSpec JS.VNull (Some (Engine.toString 16 255)) =
    Ok (JS.VNumber (JS.Fin 255)) /\
  Database.resolveBlockSpec JS.VNull (Some (String "-" (Engine.intToHex 255))) =
    Ok (JS.VNumber (JS.Fin (- 255))) /\
  Database.resolveBlockSpec JS.VNull (Some "10") = Ok (JS.VNumber (JS.Fin 16)).
Proof. apply (resolveBlockSpec_lenient JS.VNull 255). lia. Defined.

(** ** Rows of the block lookups *)

Lemma get_set_field (key : string) (v : JS.value) (r : Database.record) :
  JS.get_field key (Database.set_field key v r) = v /\
  forall other, other <> key ->
    JS.get_field other (Database.set_field key v r) = JS.get_field other r.
Proof.
  induction r as [|[k w] r [IH1 IH2]]; cbn [Database.set_field JS.get_field].
  - rewrite String.eqb_refl. split; [reflexivity|].
    intros other Hne. apply String.eqb_neq in Hne. rewrite String.eqb_sym, Hne.
    reflexivity.
  - destruct (String.eqb_spec k key) as [->|Hk]; cbn [JS.get_field].
    + rewrite String.eqb_refl. split; [reflexivity|].
      intros other Hne. apply String.eqb_neq in Hne. rewrite String.eqb_sym, Hne.
      reflexivity.
    + apply String.eqb_neq in Hk. rewrite Hk. split; [exact IH1|].
      intros other Hne. destruct (k =? other)%string; [reflexivity | auto].
Qed.

(** X23. [eth_getBlockByHash] fails before anything is sent when a
    [0x]-prefixed hash does not decode, and otherwise never fails: it sends
    one statement and answers with the exported list of rows, or [null] when
    the store raises. In every row of that list [uncles] and [transactions]
    are the empty list, whatever the store returned for them, and all other
    columns are as the store returned them. *)
Theorem getBlockByHash_outcomes {engine : Engine.Lib} (store : Database.store)
  (blockHash : string) (row : Database.record) (other : string) :
  let shaped (r : Database.record) :=
    Database.set_field "transactions" (JS.VArray [])
      (Database.set_field "uncles" (JS.VArray []) r) in
  match (if JS.startsWith blockHash "0x"
         then bind (Engine.hexToBytes blockHash) (fun b => Ok (JS.VBuffer b))
         else Ok (JS.VString blockHash)) with
  | Throw e => Database.eth_getBlockByHash blockHash store = (Throw e, [])
  | Ok arg =>
      Database.eth_getBlockByHash blockHash store =
        (Ok match store (Database.Q_getBlockByHash arg) with
            | Ok rows =>
                Engine.exportJSON (JS.VArray (map (fun r => JS.VObject (shaped r)) rows))
            | Throw _ => JS.VNull
            end, [Database.Q_getBlockByHash arg])
  end /\
  JS.get_field "uncles" (shaped row) = JS.VArray [] /\
  JS.get_field "transactions" (shaped row) = JS.VArray [] /\
  (other <> "uncles" -> other <> "transactions" ->
   JS.get_field other (shaped row) = JS.get_field other row).
Proof.
  intros shaped. split; [|split; [|split]].
  - unfold Database.eth_getBlockByHash.
    unfold Database.mbind, Database.try_catch, Database._query, Database.lift,
      Database.ret.
    destruct (if JS.startsWith blockHash "0x"
              then bind (Engine.hexToBytes blockHash) (fun b => Ok (JS.VBuffer b))
              else Ok (JS.VString blockHash)) as [arg|e]; [|reflexivity].
    destruct (store (Database.Q_getBlockByHash arg)); reflexivity.
  - unfold shaped.
    rewrite (proj2 (get_set_field "transactions" _ _)) by discriminate.
    apply get_set_field.
  - unfold shaped. apply get_set_field.
  - intros H1 H2. unfold shaped.
    rewrite (proj2 (get_set_field "transactions" _ _)) by assumption.
    apply get_set_field. assumption.
Qed.
